(** * Camera file-transfer analyzer: correlation core and packet metrics

    A shallow embedding of [analyze_transfers] and the report step of
    [run_analysis] (ftp_transfer_analyzer.py) and of [calculate_metrics]
    (mqtt_test_analyzer_ws.py), followed by the properties of the
    design document that concern them.

    Conventions used throughout:
    - a [datetime] is an integer count of microseconds (the resolution of
      Python's [datetime]); a [timedelta] is a signed count of
      microseconds;
    - [timedelta.total_seconds()] and every other float of the source is
      an exact rational ([Q]); rounding of binary floats is not modelled;
    - the start tolerance is passed as the duration that
      [timedelta(seconds=time_tolerance_seconds_stor)] makes of it; the
      connection tolerance is a number of seconds, as in the source;
    - a dict with a fixed set of keys is a record; a DataFrame is a finite
      map from column names to columns;
    - an exception is a value of [exn] on the left of a sum;
    - [logging] calls and [datetime.now()] act on an explicit [World]
      (wall clock and log sink) that is threaded through the code. *)

From Stdlib Require Import ZArith QArith Qminmax Qround Lqa List Ascii String Lia.
From Stdlib Require Import Sorting.Permutation Sorting.Sorted DecimalString.
From stdpp Require Import base option list gmap strings.

Local Open Scope Z_scope.

(* ================================================================== *)
(** * Part I: ftp_transfer_analyzer.py                                 *)
(* ================================================================== *)

Definition datetime := Z.
Definition timedelta := Z.

(** [timedelta.total_seconds()]. *)
Definition total_seconds (d : timedelta) : Q := Qmake d 1000000.

(** ** The world outside the core: wall clock and log sink *)

Record log_record := LogRecord {
  asctime : Z;
  levelname : string;
  message : string;
  message_args : list datetime
}.

Record World := MkWorld {
  wall_clock : nat -> Z;      (* the successive readings of the clock *)
  clock_reads : nat;          (* how many readings were taken so far *)
  log_sink : list log_record
}.

(** [datetime.now()]. *)
Definition datetime_now (w : World) : Z * World :=
  (wall_clock w (clock_reads w),
   MkWorld (wall_clock w) (S (clock_reads w)) (log_sink w)).

(** [logging.info] / [logging.warning]: the record is stamped with the
    wall clock ([%(asctime)s]) and appended to the sink. *)
Definition logging_log (level msg : string) (args : list datetime)
    (w : World) : World :=
  let '(t, w') := datetime_now w in
  MkWorld (wall_clock w') (clock_reads w')
          (log_sink w' ++ [LogRecord t level msg args]).

Definition logging_info := logging_log "INFO".
Definition logging_warning := logging_log "WARNING".

(** ** Events and result rows *)

(** One element of [mqtt_events]: [{'timestamp': ..., 'type': ...}]. *)
Record mqtt_event := MqttEvent {
  mqtt_timestamp : datetime;
  mqtt_type : string
}.

(** One element of [ftp_events]:
    [{"type": ..., "timestamp": ..., "filename": ...}]; the filename is
    [None] for every event that is not a STOR. *)
Record ftp_event := FtpEvent {
  ftp_type : string;
  ftp_timestamp : datetime;
  ftp_filename : option string
}.

(** One element of [analysis_results]; the fields are the keys of the
    dict appended at lines 204-217. *)
Record transfer := Transfer {
  mqtt_true_time : datetime;
  ftp_stor_time : datetime;
  ftp_completion_time : datetime;
  transfer_duration_seconds : Q;
  filename : option string;
  next_false_mqtt_time : option datetime;
  transfer_completed_after_false_signal : bool;
  time_overlap_after_false_signal_seconds : option Q;
  time_true_to_transfer_start_seconds : Q;
  connection_opened_time : option datetime;
  connection_closed_time : option datetime;
  overlapped_with_previous_transfer : bool
}.

(** ** The searches of the loop body *)

(** Lines 148-151: the STOR events inside the window, in list order. *)
Definition relevant_stors (ftp_events : list ftp_event)
    (search_start_time search_end_time : datetime) : list ftp_event :=
  List.filter
    (fun e => String.eqb (ftp_type e) "STOR"
              && ((search_start_time <=? ftp_timestamp e)
                  && (ftp_timestamp e <=? search_end_time)))
    ftp_events.

(** Lines 157-160: the first COMPLETION strictly after the STOR. *)
Definition find_completion (ftp_events : list ftp_event)
    (found_stor : ftp_event) : option ftp_event :=
  List.find
    (fun event => (ftp_timestamp found_stor <? ftp_timestamp event)
                  && String.eqb (ftp_type event) "COMPLETION")
    ftp_events.

(** Lines 167-171: the first 'false' message at an index above [i]. *)
Definition find_next_false (mqtt_events : list mqtt_event) (i : nat)
    : option datetime :=
  mqtt_timestamp <$>
    List.find (fun e => String.eqb (mqtt_type e) "false")
              (drop (S i) mqtt_events).

(** Lines 184-189: scanning from the end, the first CONN_OPEN before the
    STOR that is also within the tolerance (the [break] sits inside the
    tolerance test, so events outside it are passed over). *)
Definition find_conn_opened (ftp_events : list ftp_event)
    (time_tolerance_seconds_conn : Q) (found_stor : ftp_event)
    : option datetime :=
  ftp_timestamp <$>
    List.find
      (fun e => (ftp_timestamp e <? ftp_timestamp found_stor)
                && String.eqb (ftp_type e) "CONN_OPEN"
                && Qle_bool
                     (total_seconds
                        (ftp_timestamp found_stor - ftp_timestamp e))
                     time_tolerance_seconds_conn)
      (rev ftp_events).

(** Lines 192-197: the first CONN_CLOSE after the completion that is
    within the tolerance. *)
Definition find_conn_closed (ftp_events : list ftp_event)
    (time_tolerance_seconds_conn : Q) (found_completion : ftp_event)
    : option datetime :=
  ftp_timestamp <$>
    List.find
      (fun e => (ftp_timestamp found_completion <? ftp_timestamp e)
                && String.eqb (ftp_type e) "CONN_CLOSE"
                && Qle_bool
                     (total_seconds
                        (ftp_timestamp e - ftp_timestamp found_completion))
                     time_tolerance_seconds_conn)
      ftp_events.

(** Lines 163-217: the row built once a STOR and a completion are found. *)
Definition make_transfer (mqtt_events : list mqtt_event)
    (ftp_events : list ftp_event) (time_tolerance_seconds_conn : Q)
    (i : nat) (mqtt_true_ts : datetime)
    (found_stor found_completion : ftp_event)
    (last_transfer_completion_time : option datetime) : transfer :=
  let transfer_duration :=
    ftp_timestamp found_completion - ftp_timestamp found_stor in
  let time_true_to_transfer_start :=
    ftp_timestamp found_stor - mqtt_true_ts in
  let next_false_mqtt_ts := find_next_false mqtt_events i in
  let after_false :=
    match next_false_mqtt_ts with
    | Some off => off <? ftp_timestamp found_completion
    | None => false
    end in
  let time_overlap :=
    match next_false_mqtt_ts with
    | Some off =>
        if off <? ftp_timestamp found_completion
        then Some (total_seconds (ftp_timestamp found_completion - off))
        else None
    | None => None
    end in
  let conn_opened_time :=
    find_conn_opened ftp_events time_tolerance_seconds_conn found_stor in
  let conn_closed_time :=
    find_conn_closed ftp_events time_tolerance_seconds_conn found_completion in
  let overlapped :=
    match last_transfer_completion_time with
    | Some last => mqtt_true_ts <? last
    | None => false
    end in
  {| mqtt_true_time := mqtt_true_ts;
     ftp_stor_time := ftp_timestamp found_stor;
     ftp_completion_time := ftp_timestamp found_completion;
     transfer_duration_seconds := total_seconds transfer_duration;
     filename := ftp_filename found_stor;
     next_false_mqtt_time := next_false_mqtt_ts;
     transfer_completed_after_false_signal := after_false;
     time_overlap_after_false_signal_seconds := time_overlap;
     time_true_to_transfer_start_seconds :=
       total_seconds time_true_to_transfer_start;
     connection_opened_time := conn_opened_time;
     connection_closed_time := conn_closed_time;
     overlapped_with_previous_transfer := overlapped |}.

(** ** The loop of [analyze_transfers] *)

(** What the loop carries from one iteration to the next. *)
Record loop_state := LoopState {
  analysis_results : list transfer;
  last_transfer_completion_time : option datetime;
  world : World
}.

(** One iteration of the [for] loop of lines 135-222, at index [i]. *)
Definition analyze_step (mqtt_events : list mqtt_event)
    (ftp_events : list ftp_event)
    (time_tolerance_stor : timedelta) (time_tolerance_seconds_conn : Q)
    (st : loop_state) (ie : nat * mqtt_event) : loop_state :=
  let '(i, mqtt_event) := ie in
  if String.eqb (mqtt_type mqtt_event) "true" then
    let mqtt_true_ts := mqtt_timestamp mqtt_event in
    let search_start_time := mqtt_true_ts in
    let search_end_time := mqtt_true_ts + time_tolerance_stor in
    let found_stor :=
      head (relevant_stors ftp_events search_start_time search_end_time) in
    let found_completion :=
      match found_stor with
      | Some s => find_completion ftp_events s
      | None => None
      end in
    match found_stor, found_completion with
    | Some s, Some c =>
        {| analysis_results :=
             analysis_results st ++
             [make_transfer mqtt_events ftp_events time_tolerance_seconds_conn i
                mqtt_true_ts s c (last_transfer_completion_time st)];
           last_transfer_completion_time := Some (ftp_timestamp c);
           world := world st |}
    | _, _ =>
        {| analysis_results := analysis_results st;
           last_transfer_completion_time :=
             last_transfer_completion_time st;
           world :=
             logging_info
               "Could not find matching FTP transfer (STOR+COMPLETION) for MQTT 'true' at"
               [mqtt_true_ts] (world st) |}
    end
  else st.

(** [enumerate(l)] *)
Definition enumerate {A} (l : list A) : list (nat * A) := imap pair l.

Definition initial_state (w : World) : loop_state :=
  {| analysis_results := [];
     last_transfer_completion_time := None;
     world := w |}.

(** The loop after its first [n] iterations. *)
Definition analyze_prefix (mqtt_events : list mqtt_event)
    (ftp_events : list ftp_event)
    (time_tolerance_stor : timedelta) (time_tolerance_seconds_conn : Q)
    (w : World) (n : nat) : loop_state :=
  fold_left
    (analyze_step mqtt_events ftp_events
       time_tolerance_stor time_tolerance_seconds_conn)
    (take n (enumerate mqtt_events)) (initial_state w).

(** [analyze_transfers]: the returned list together with the world the
    call leaves behind. *)
Definition analyze_transfers (mqtt_events : list mqtt_event)
    (ftp_events : list ftp_event)
    (time_tolerance_stor : timedelta) (time_tolerance_seconds_conn : Q)
    (w : World) : list transfer * World :=
  let st :=
    fold_left
      (analyze_step mqtt_events ftp_events
         time_tolerance_stor time_tolerance_seconds_conn)
      (enumerate mqtt_events) (initial_state w) in
  (analysis_results st, world st).

(** ** Exceptions *)

Inductive exn :=
| ZeroDivisionError
| ValueError
| TypeError
| AttributeError
| KeyError (key : string).

Definition result (A : Type) : Type := (exn + A)%type.

Definition raise {A} (e : exn) : result A := inl e.

Definition bind {A B} (r : result A) (k : A -> result B) : result B :=
  match r with
  | inl e => inl e
  | inr a => k a
  end.

Notation "x <-- r ;; k" := (bind r (fun x => k))
  (at level 100, r at next level, right associativity,
   format "'[v' x  <--  r  ;;  '/' k ']'").

(** ** The report step of [run_analysis] (lines 248-314) *)

Definition py_sum (l : list Q) : Q := fold_left Qplus l (0%Q).

(** [a / b]: division by zero raises. *)
Definition py_div (a b : Q) : result Q :=
  if Qeq_bool b 0 then raise ZeroDivisionError else inr (a / b)%Q.

(** [min(l)] and [max(l)]: an empty argument raises [ValueError]. *)
Definition py_min (l : list Q) : result Q :=
  match l with
  | [] => raise ValueError
  | x :: xs => inr (fold_left Qmin xs x)
  end.

Definition py_max (l : list Q) : result Q :=
  match l with
  | [] => raise ValueError
  | x :: xs => inr (fold_left Qmax xs x)
  end.

Definition len {A} (l : list A) : Q := inject_Z (Z.of_nat (length l)).

(** [f"{x:<spec>}"] for a float [x]. The format specs of the report
    have the shape [.<digit>f]: with such a spec the number goes into
    the line (the number stands for its text, the digits are not
    modelled). A spec that goes on after the type is no format spec and
    [format] raises [ValueError]; so it is with [.2f ], which ends in a
    blank. *)
Definition format_float (spec : string) (x : Q) : result Q :=
  match spec with
  | String "." (String d (String "f" EmptyString)) =>
      if ((48 <=? nat_of_ascii d) && (nat_of_ascii d <=? 57))%nat
      then inr x
      else raise ValueError
  | _ => raise ValueError
  end.

(** The numbers printed under "Summary Statistics". *)
Record summary := Summary {
  total_correlated_transfers : nat;
  avg_true_to_start : Q;
  min_true_to_start : Q;
  max_true_to_start : Q;
  avg_transfer_duration : Q;
  min_transfer_duration : Q;
  max_transfer_duration : Q;
  transfers_after_false_count : nat;
  transfers_after_false_percent : Q;
  overlap_after_false_avg_max : option (Q * Q);
  overlapped_with_previous_count : nat;
  overlapped_with_previous_percent : Q
}.

(** What [report_lines] holds: the header time, one block per row and
    the summary block ([None] stands for the line "No transfer durations
    to summarize."). *)
Record report := Report {
  analysis_conducted_on : Z;
  individual_transfer_details : list transfer;
  summary_statistics : option summary
}.

(** Lines 266-289, the loop over the rows: the latency and the
    duration of a row are formatted with [:.4f]; the overlap of a row
    flagged as completed after 'false' is formatted with [:.4f] and
    collected, and a flagged row without a number cannot be
    formatted. *)
Fixpoint collect_overlap_after_false (analysis_results : list transfer)
    : result (list Q) :=
  match analysis_results with
  | [] => inr []
  | res :: rest =>
      _ <-- format_float ".4f"
              (time_true_to_transfer_start_seconds res) ;;
      _ <-- format_float ".4f" (transfer_duration_seconds res) ;;
      if transfer_completed_after_false_signal res then
        match time_overlap_after_false_signal_seconds res with
        | Some v =>
            v <-- format_float ".4f" v ;;
            vs <-- collect_overlap_after_false rest ;;
            inr (v :: vs)
        | None => raise TypeError
        end
      else collect_overlap_after_false rest
  end.

(** Lines 292-309, line by line. The two percentages, at lines 302 and
    307, are formatted with [:.2f ]. *)
Definition summarize (analysis_results : list transfer)
    (overlap_after_false_durations : list Q) : result (option summary) :=
  let total_transfer_durations :=
    map transfer_duration_seconds analysis_results in
  let time_true_to_start_durations :=
    map time_true_to_transfer_start_seconds analysis_results in
  let after_false_count :=
    length (List.filter transfer_completed_after_false_signal
              analysis_results) in
  let overlapped_count :=
    length (List.filter overlapped_with_previous_transfer
              analysis_results) in
  match total_transfer_durations with
  | [] => inr None
  | _ :: _ =>
      avg_start <-- py_div (py_sum time_true_to_start_durations)
                           (len time_true_to_start_durations) ;;
      avg_start <-- format_float ".4f" avg_start ;;
      min_start <-- py_min time_true_to_start_durations ;;
      min_start <-- format_float ".4f" min_start ;;
      max_start <-- py_max time_true_to_start_durations ;;
      max_start <-- format_float ".4f" max_start ;;
      avg_dur <-- py_div (py_sum total_transfer_durations)
                         (len total_transfer_durations) ;;
      avg_dur <-- format_float ".4f" avg_dur ;;
      min_dur <-- py_min total_transfer_durations ;;
      min_dur <-- format_float ".4f" min_dur ;;
      max_dur <-- py_max total_transfer_durations ;;
      max_dur <-- format_float ".4f" max_dur ;;
      frac_false <-- py_div (inject_Z (Z.of_nat after_false_count))
                            (len analysis_results) ;;
      percent_false <-- format_float ".2f " (frac_false * 100)%Q ;;
      overlap_stats <--
        match overlap_after_false_durations with
        | [] => inr None
        | _ :: _ =>
            avg_ov <-- py_div (py_sum overlap_after_false_durations)
                              (len overlap_after_false_durations) ;;
            avg_ov <-- format_float ".4f" avg_ov ;;
            max_ov <-- py_max overlap_after_false_durations ;;
            max_ov <-- format_float ".4f" max_ov ;;
            inr (Some (avg_ov, max_ov))
        end ;;
      frac_prev <-- py_div (inject_Z (Z.of_nat overlapped_count))
                           (len analysis_results) ;;
      percent_prev <-- format_float ".2f " (frac_prev * 100)%Q ;;
      inr (Some
        {| total_correlated_transfers := length analysis_results;
           avg_true_to_start := avg_start;
           min_true_to_start := min_start;
           max_true_to_start := max_start;
           avg_transfer_duration := avg_dur;
           min_transfer_duration := min_dur;
           max_transfer_duration := max_dur;
           transfers_after_false_count := after_false_count;
           transfers_after_false_percent := percent_false;
           overlap_after_false_avg_max := overlap_stats;
           overlapped_with_previous_count := overlapped_count;
           overlapped_with_previous_percent := percent_prev |})
  end.

(** Lines 252-309: the report for a list of rows. *)
Definition generate_report (now : Z) (analysis_results : list transfer)
    : result report :=
  overlaps <-- collect_overlap_after_false analysis_results ;;
  stats <-- summarize analysis_results overlaps ;;
  inr {| analysis_conducted_on := now;
         individual_transfer_details := analysis_results;
         summary_statistics := stats |}.

Definition OUTPUT_ANALYSIS_FILE : string := "transfer_analysis_report.txt".

(** [setup_logging]: installing the handlers is left out, the message
    it logs is kept. *)
Definition setup_logging (log_file : string) (w : World) : World :=
  logging_info
    (String.append
       "Analysis logging initialized. Report will be saved to '"
       (String.append log_file "'"))
    [] w.

(** [run_analysis] from the two parsed event lists on (reading the two
    log files, and what the two parsers log, is left to the callers).
    The result is the report written to the output file; [None] is an
    early [return] without a report; an exception of the report step
    leaves [run_analysis] before the file is opened, and no caller
    handles it. *)
Definition run_analysis (mqtt_events : list mqtt_event)
    (ftp_events : list ftp_event) (w : World)
    : result (option report) * World :=
  let w := setup_logging OUTPUT_ANALYSIS_FILE w in
  let w := logging_info
             "Starting analysis of MQTT and Wireshark logs..." [] w in
  match mqtt_events with
  | [] =>
      (inr None,
       logging_warning
         "No messages found in MQTT log. Cannot perform correlation." [] w)
  | _ :: _ =>
  match ftp_events with
  | [] =>
      (inr None,
       logging_warning
         "No relevant FTP events found in Wireshark log. Cannot perform correlation."
         [] w)
  | _ :: _ =>
  let '(analysis_results, w) :=
    analyze_transfers mqtt_events ftp_events 10000000 30%Q w in
  match analysis_results with
  | [] =>
      (inr None,
       logging_info
         "No successful FTP transfer correlations found based on provided logs and settings."
         [] w)
  | _ :: _ =>
      let '(now, w) := datetime_now w in
      match generate_report now analysis_results with
      | inl e => (inl e, w)
      | inr rep =>
          (inr (Some rep),
           logging_info
             (String.append "Analysis complete. Report saved to '"
                (String.append OUTPUT_ANALYSIS_FILE "'"))
             [] w)
      end
  end end end.

(* ================================================================== *)
(** * Part II: mqtt_test_analyzer_ws.py, [calculate_metrics]           *)
(* ================================================================== *)

(** ** Data frames

    A column is a pandas Series with the dtype that the clean-up in
    [analyze_tshark_capture] gives it: numbers (NaN is [None]) for
    [tcp.analysis.*], [tcp.flags.*], [frame.len] and the RTT field,
    strings for [ip.*] and [ftp.*], timestamps in microseconds (NaT is
    [None]) for [frame.time]. Comparisons and [isin] on a column of another dtype are
    false everywhere, as in pandas; an aggregate or a [.str] access on a
    column of another dtype is reported as an exception. *)
Inductive column :=
| Numeric (values : list (option Q))
| Text (values : list string)
| Datetime (values : list (option Z)).

Abbreviation DataFrame := (gmap string column).

(** [name in df.columns] *)
Definition in_columns (name : string) (df : DataFrame) : bool :=
  match df !! name with
  | Some _ => true
  | None => false
  end.

(** [df[name]]: a missing column raises [KeyError]. *)
Definition getitem (df : DataFrame) (name : string) : result column :=
  match df !! name with
  | Some c => inr c
  | None => raise (KeyError name)
  end.

(** The values of a numeric series that are not NaN. *)
Definition notna (values : list (option Q)) : list Q := omap id values.

(** [series.sum()], which skips NaN. *)
Definition series_sum (c : column) : result Q :=
  match c with
  | Numeric v => inr (py_sum (notna v))
  | Text _ | Datetime _ => raise TypeError
  end.

(** [int(x)]: truncation toward zero. *)
Definition py_int (x : Q) : Z := Z.quot (Qnum x) (Zpos (Qden x)).

(** [series.dropna().empty] *)
Definition dropna_empty (c : column) : bool :=
  match c with
  | Numeric v => match notna v with [] => true | _ :: _ => false end
  | Text v => match v with [] => true | _ :: _ => false end
  | Datetime v =>
      match omap id v with [] => true | _ :: _ => false end
  end.

(** [series.dropna().mean()] (NaN on a series without values, which the
    caller excludes before it asks for the mean). The mean is the exact
    quotient; the float that pandas returns is this number up to
    rounding, and may leave the range of the samples by an ulp. *)
Definition dropna_mean (c : column) : result Q :=
  match c with
  | Numeric v => inr (py_sum (notna v) / len (notna v))%Q
  | Text _ | Datetime _ => raise TypeError
  end.

(** [series == 1] *)
Definition eq_one (c : column) : list bool :=
  match c with
  | Numeric v =>
      map (fun x => match x with
                    | Some q => Qeq_bool q 1
                    | None => false
                    end) v
  | Text v => map (fun _ => false) v
  | Datetime v => map (fun _ => false) v
  end.

(** [series.isin(values)] for a list of strings. *)
Definition isin (c : column) (values : list string) : list bool :=
  match c with
  | Text v => map (fun s => existsb (String.eqb s) values) v
  | Numeric v => map (fun _ => false) v
  | Datetime v => map (fun _ => false) v
  end.

(** [a & b] and [a | b] on boolean series: rows are aligned by position
    and a row missing on one side counts as [False] there. *)
Definition mask_op (f : bool -> bool -> bool) (a b : list bool)
    : list bool :=
  let n := Nat.max (length a) (length b) in
  zip_with f (resize n false a) (resize n false b).

Definition mask_and := mask_op andb.
Definition mask_or := mask_op orb.

(** [df[mask].empty] *)
Definition selection_empty (mask : list bool) : bool :=
  negb (existsb (fun b => b) mask).

(** The values of a series in the rows that [mask] selects. *)
Definition select {A} (mask : list bool) (values : list A) : list A :=
  map snd (List.filter fst (combine mask values)).

(** [df[mask]['frame.time']] *)
Definition selected_frame_time (df : DataFrame) (mask : list bool)
    : result (list (option Z)) :=
  c <-- getitem df "frame.time" ;;
  match c with
  | Datetime v => inr (select mask v)
  | Numeric _ | Text _ => raise AttributeError
  end.

(** [series.min()] and [series.max()] on timestamps: NaT is skipped, and
    the result is NaT when nothing is left. *)
Definition time_min (v : list (option Z)) : option Z :=
  match omap id v with
  | [] => None
  | t :: ts => Some (fold_left Z.min ts t)
  end.

Definition time_max (v : list (option Z)) : option Z :=
  match omap id v with
  | [] => None
  | t :: ts => Some (fold_left Z.max ts t)
  end.

(** The [.str] accessor. *)
Definition str_accessor (c : column) : result (list string) :=
  match c with
  | Text v => inr v
  | Numeric _ | Datetime _ => raise AttributeError
  end.

Definition upper_ascii (a : ascii) : ascii :=
  let n := nat_of_ascii a in
  if (97 <=? n)%nat && (n <=? 122)%nat
  then ascii_of_nat (n - 32) else a.

(** [s.upper()] *)
Fixpoint upper (s : string) : string :=
  match s with
  | EmptyString => EmptyString
  | String a rest => String (upper_ascii a) (upper rest)
  end.

(** [s.startswith(p)] *)
Definition startswith (p s : string) : bool := String.prefix p s.

(** [sub in s] *)
Definition contains (sub s : string) : bool :=
  match String.index 0 sub s with
  | Some _ => true
  | None => false
  end.

(** [df.get(name, pd.Series(dtype=str))] followed by a [.str] test. *)
Definition get_str_mask (df : DataFrame) (name : string)
    (test : string -> bool) : result (list bool) :=
  match df !! name with
  | Some c => v <-- str_accessor c ;; inr (map test v)
  | None => inr []
  end.

(** ** The metrics *)

(** The dict returned by [calculate_metrics]. The two timestamps are the
    texts of lines 204-205, kept as the count of milliseconds that the
    text shows; [None] is the empty text. *)
Record metrics := Metrics {
  total_retransmissions : Z;
  zero_window_count : Z;
  window_full_count : Z;
  lost_segments_count : Z;
  duplicate_ack_count : Z;
  measured_throughput_Mbps : Q;
  avg_rtt_ms : Q;
  ftp_conn_opened_timestamp : option Z;
  ftp_conn_closed_timestamp : option Z
}.

(** Lines 162-166: [int(df[c].sum()) if c in df.columns else 0]. *)
Definition counter (df : DataFrame) (name : string) : result Z :=
  if in_columns name df then
    c <-- getitem df name ;;
    s <-- series_sum c ;;
    inr (py_int s)
  else inr 0.

(** [a > b] on numbers. *)
Definition py_gt (a b : Q) : bool := negb (Qle_bool a b).

(** Lines 169-173. *)
Definition throughput (df : DataFrame) (duration_s : Q) : result Q :=
  if py_gt duration_s 0 && in_columns "frame.len" df then
    c <-- getitem df "frame.len" ;;
    total_bytes <-- series_sum c ;;
    inr ((total_bytes * 8) / (duration_s * 1024 * 1024))%Q
  else inr 0%Q.

(** Lines 176-179; [rtt_field] is [None] when tshark has no RTT field. *)
Definition average_rtt (df : DataFrame) (rtt_field : option string)
    : result Q :=
  match rtt_field with
  | Some name =>
      if in_columns name df then
        c <-- getitem df name ;;
        if negb (dropna_empty c) then
          m <-- dropna_mean c ;;
          inr (m * 1000)%Q
        else inr 0%Q
      else inr 0%Q
  | None => inr 0%Q
  end.

(** Lines 183-186: the open time from the TCP flags. *)
Definition primary_opened (df : DataFrame) (camera_ips : list string)
    : result (option Z) :=
  if in_columns "tcp.flags.syn" df && in_columns "ip.src" df then
    syn <-- getitem df "tcp.flags.syn" ;;
    src <-- getitem df "ip.src" ;;
    let syn_events := mask_and (eq_one syn) (isin src camera_ips) in
    if negb (selection_empty syn_events) then
      times <-- selected_frame_time df syn_events ;;
      inr (time_min times)
    else inr None
  else inr None.

(** Lines 188-191: the close time from the TCP flags. *)
Definition primary_closed (df : DataFrame) (camera_ips : list string)
    : result (option Z) :=
  if in_columns "tcp.flags.fin" df && in_columns "ip.src" df
     && in_columns "ip.dst" df then
    fin <-- getitem df "tcp.flags.fin" ;;
    rst <-- getitem df "tcp.flags.reset" ;;
    src <-- getitem df "ip.src" ;;
    dst <-- getitem df "ip.dst" ;;
    let fin_rst_events :=
      mask_and (mask_or (eq_one fin) (eq_one rst))
               (mask_or (isin src camera_ips) (isin dst camera_ips)) in
    if negb (selection_empty fin_rst_events) then
      times <-- selected_frame_time df fin_rst_events ;;
      inr (time_max times)
    else inr None
  else inr None.

(** Lines 194-197: the open time from the FTP layer, consulted when the
    TCP flags gave none. *)
Definition fallback_opened (df : DataFrame) (opened_ts : option Z)
    : result (option Z) :=
  if negb (bool_decide (is_Some opened_ts))
     && in_columns "ftp.response.code" df then
    code <-- getitem df "ftp.response.code" ;;
    codes <-- str_accessor code ;;
    users <-- get_str_mask df "ftp.request.command"
                (fun s => contains "USER" (upper s)) ;;
    let ftp_open_events :=
      mask_or (map (fun s => startswith "220" s || startswith "230" s)
                   codes)
              users in
    if negb (selection_empty ftp_open_events) then
      times <-- selected_frame_time df ftp_open_events ;;
      inr (time_min times)
    else inr opened_ts
  else inr opened_ts.

(** Lines 199-202: the close time from the FTP layer. *)
Definition fallback_closed (df : DataFrame) (closed_ts : option Z)
    : result (option Z) :=
  if negb (bool_decide (is_Some closed_ts))
     && in_columns "ftp.request.command" df then
    command <-- getitem df "ftp.request.command" ;;
    commands <-- str_accessor command ;;
    goodbyes <-- get_str_mask df "ftp.response.code" (startswith "221") ;;
    let ftp_close_events :=
      mask_or (map (fun s => contains "QUIT" (upper s)) commands)
              goodbyes in
    if negb (selection_empty ftp_close_events) then
      times <-- selected_frame_time df ftp_close_events ;;
      inr (time_max times)
    else inr closed_ts
  else inr closed_ts.

(** [ts.strftime('%Y-%m-%d %H:%M:%S.%f')[:-3] if pd.notna(ts) else ""] *)
Definition format_timestamp (ts : option Z) : option Z :=
  (fun t => t / 1000) <$> ts.

(** [calculate_metrics(df, duration_s, rtt_field, camera_ips)] *)
Definition calculate_metrics (df : DataFrame) (duration_s : Q)
    (rtt_field : option string) (camera_ips : list string)
    : result metrics :=
  retransmissions <-- counter df "tcp.analysis.retransmission" ;;
  zero_window <-- counter df "tcp.analysis.zero_window" ;;
  window_full <-- counter df "tcp.analysis.window_full" ;;
  lost_segments <-- counter df "tcp.analysis.lost_segment" ;;
  duplicate_acks <-- counter df "tcp.analysis.duplicate_ack" ;;
  mbps <-- throughput df duration_s ;;
  rtt <-- average_rtt df rtt_field ;;
  opened_ts <-- primary_opened df camera_ips ;;
  closed_ts <-- primary_closed df camera_ips ;;
  opened_ts <-- fallback_opened df opened_ts ;;
  closed_ts <-- fallback_closed df closed_ts ;;
  inr {| total_retransmissions := retransmissions;
         zero_window_count := zero_window;
         window_full_count := window_full;
         lost_segments_count := lost_segments;
         duplicate_ack_count := duplicate_acks;
         measured_throughput_Mbps := mbps;
         avg_rtt_ms := rtt;
         ftp_conn_opened_timestamp := format_timestamp opened_ts;
         ftp_conn_closed_timestamp := format_timestamp closed_ts |}.

(* ================================================================== *)
(** * Part III: vocabulary of the properties                           *)
(* ================================================================== *)

(** [e] is a STOR whose time lies in the closed window that opens at
    [signal_on] and is [tolerance] long. *)
Definition stor_in_window (signal_on : datetime) (tolerance : timedelta)
    (e : ftp_event) : Prop :=
  ftp_type e = "STOR" /\
  signal_on <= ftp_timestamp e <= signal_on + tolerance.

(** [e] is a COMPLETION strictly later than the STOR [s]. *)
Definition completion_after (s e : ftp_event) : Prop :=
  ftp_type e = "COMPLETION" /\ ftp_timestamp s < ftp_timestamp e.

(** [x] is the first element of [l], in list order, that satisfies [P]. *)
Definition first_such {A} (P : A -> Prop) (l : list A) (x : A) : Prop :=
  exists pre post,
    l = pre ++ x :: post /\ P x /\ forall y, y ∈ pre -> ~ P y.

(** [off] is the time of the first 'false' message at an index above
    [i]; [None] when there is none. *)
Definition first_false_after (mqtt_events : list mqtt_event) (i : nat)
    (off : option datetime) : Prop :=
  match off with
  | Some t =>
      exists j e,
        (i < j)%nat /\ mqtt_events !! j = Some e /\
        mqtt_type e = "false" /\ mqtt_timestamp e = t /\
        forall k e', (i < k < j)%nat -> mqtt_events !! k = Some e' ->
                     mqtt_type e' <> "false"
  | None =>
      forall j e, (i < j)%nat -> mqtt_events !! j = Some e ->
                  mqtt_type e <> "false"
  end.

(** The event list is in non-decreasing order of time. *)
Definition ftp_sorted (ftp_events : list ftp_event) : Prop :=
  forall j k e e',
    (j <= k)%nat -> ftp_events !! j = Some e -> ftp_events !! k = Some e' ->
    ftp_timestamp e <= ftp_timestamp e'.

(** The number of 'true' messages. *)
Definition count_true (mqtt_events : list mqtt_event) : nat :=
  length (List.filter (fun e => String.eqb (mqtt_type e) "true")
            mqtt_events).

(** The three ways an iteration of the loop can end: the event is not a
    'true' message, no transfer is found for it, or a row is appended. *)
Inductive step_outcome (mqtt_events : list mqtt_event)
    (ftp_events : list ftp_event)
    (time_tolerance_stor : timedelta) (time_tolerance_seconds_conn : Q)
    (st : loop_state) (i : nat) (ev : mqtt_event) : loop_state -> Prop :=
| outcome_ignored :
    mqtt_type ev <> "true" ->
    step_outcome mqtt_events ftp_events
      time_tolerance_stor time_tolerance_seconds_conn st i ev st
| outcome_skipped :
    mqtt_type ev = "true" ->
    (forall s,
       head (relevant_stors ftp_events (mqtt_timestamp ev)
               (mqtt_timestamp ev + time_tolerance_stor)) = Some s ->
       find_completion ftp_events s = None) ->
    step_outcome mqtt_events ftp_events
      time_tolerance_stor time_tolerance_seconds_conn st i ev
      {| analysis_results := analysis_results st;
         last_transfer_completion_time :=
           last_transfer_completion_time st;
         world :=
           logging_info
             "Could not find matching FTP transfer (STOR+COMPLETION) for MQTT 'true' at"
             [mqtt_timestamp ev] (world st) |}
| outcome_emitted s c :
    mqtt_type ev = "true" ->
    head (relevant_stors ftp_events (mqtt_timestamp ev)
            (mqtt_timestamp ev + time_tolerance_stor)) = Some s ->
    find_completion ftp_events s = Some c ->
    step_outcome mqtt_events ftp_events
      time_tolerance_stor time_tolerance_seconds_conn st i ev
      {| analysis_results :=
           analysis_results st ++
           [make_transfer mqtt_events ftp_events time_tolerance_seconds_conn i
              (mqtt_timestamp ev) s c (last_transfer_completion_time st)];
         last_transfer_completion_time := Some (ftp_timestamp c);
         world := world st |}.

(** Iteration [i] of the loop appends the row [r]. *)
Definition emits (mqtt_events : list mqtt_event)
    (ftp_events : list ftp_event)
    (time_tolerance_stor : timedelta) (time_tolerance_seconds_conn : Q)
    (w : World) (i : nat) (r : transfer) : Prop :=
  analysis_results
    (analyze_prefix mqtt_events ftp_events
       time_tolerance_stor time_tolerance_seconds_conn w (S i))
  = analysis_results
      (analyze_prefix mqtt_events ftp_events
         time_tolerance_stor time_tolerance_seconds_conn w i) ++ [r].

(** ** Inputs of the worked scenarios *)

Definition quiet_world : World := MkWorld (fun n => Z.of_nat n) 0 [].

(** SIGNAL_ON 00:00:00.000, SIGNAL_OFF 00:00:04.000, a second SIGNAL_ON
    at 00:00:04.500; TRANSFER_START 00:00:02.000, TRANSFER_COMPLETE
    00:00:05.000, and a second transfer from 00:00:06.000 to
    00:00:08.000. *)
Definition scenario_mqtt : list mqtt_event :=
  [MqttEvent 0 "true"; MqttEvent 4000000 "false";
   MqttEvent 4500000 "true"].

Definition scenario_ftp : list ftp_event :=
  [FtpEvent "STOR" 2000000 (Some "a.jpg");
   FtpEvent "COMPLETION" 5000000 None;
   FtpEvent "STOR" 6000000 (Some "b.jpg");
   FtpEvent "COMPLETION" 8000000 None].

Definition scenario_first : transfer :=
  {| mqtt_true_time := 0;
     ftp_stor_time := 2000000;
     ftp_completion_time := 5000000;
     transfer_duration_seconds := total_seconds 3000000;
     filename := Some "a.jpg";
     next_false_mqtt_time := Some 4000000;
     transfer_completed_after_false_signal := true;
     time_overlap_after_false_signal_seconds :=
       Some (total_seconds 1000000);
     time_true_to_transfer_start_seconds := total_seconds 2000000;
     connection_opened_time := None;
     connection_closed_time := None;
     overlapped_with_previous_transfer := false |}.

Definition scenario_second : transfer :=
  {| mqtt_true_time := 4500000;
     ftp_stor_time := 6000000;
     ftp_completion_time := 8000000;
     transfer_duration_seconds := total_seconds 2000000;
     filename := Some "b.jpg";
     next_false_mqtt_time := None;
     transfer_completed_after_false_signal := false;
     time_overlap_after_false_signal_seconds := None;
     time_true_to_transfer_start_seconds := total_seconds 1500000;
     connection_opened_time := None;
     connection_closed_time := None;
     overlapped_with_previous_transfer := true |}.

(** ** Rows of a table *)

(** The numeric column [name] holds 1 in row [i]. *)
Definition flag_set (df : DataFrame) (name : string) (i : nat) : Prop :=
  exists v q,
    df !! name = Some (Numeric v) /\ v !! i = Some (Some q) /\ (q == 1)%Q.

(** The text column [name] holds one of [ips] in row [i]. *)
Definition address_in (df : DataFrame) (name : string)
    (ips : list string) (i : nat) : Prop :=
  exists v a, df !! name = Some (Text v) /\ v !! i = Some a /\ a ∈ ips.

(** Row [i] carries the time [t] in [frame.time]. *)
Definition frame_time_at (df : DataFrame) (i : nat) (t : Z) : Prop :=
  exists v,
    df !! "frame.time" = Some (Datetime v) /\ v !! i = Some (Some t).

(** [o] is the earliest time carried by the rows in [rows], and no time
    when none of them carries one. *)
Definition earliest_of (rows : nat -> Prop) (df : DataFrame)
    (o : option Z) : Prop :=
  match o with
  | Some t =>
      (exists i, rows i /\ frame_time_at df i t) /\
      forall i t', rows i -> frame_time_at df i t' -> t <= t'
  | None => forall i t', rows i -> ~ frame_time_at df i t'
  end.

(** The same for the latest time. *)
Definition latest_of (rows : nat -> Prop) (df : DataFrame)
    (o : option Z) : Prop :=
  match o with
  | Some t =>
      (exists i, rows i /\ frame_time_at df i t) /\
      forall i t', rows i -> frame_time_at df i t' -> t' <= t
  | None => forall i t', rows i -> ~ frame_time_at df i t'
  end.

(** The rows that open a connection as the code selects them: SYN set
    and the source address among the cameras. *)
Definition syn_rows (df : DataFrame) (ips : list string) (i : nat)
    : Prop :=
  flag_set df "tcp.flags.syn" i /\ address_in df "ip.src" ips i.

(** The rows that open a connection as the design document words them:
    SYN set and the source or the destination among the cameras. *)
Definition syn_rows_as_documented (df : DataFrame) (ips : list string)
    (i : nat) : Prop :=
  flag_set df "tcp.flags.syn" i /\
  (address_in df "ip.src" ips i \/ address_in df "ip.dst" ips i).

(** The rows that close a connection: FIN or RESET set and the source
    or the destination among the cameras. *)
Definition fin_rst_rows (df : DataFrame) (ips : list string) (i : nat)
    : Prop :=
  (flag_set df "tcp.flags.fin" i \/ flag_set df "tcp.flags.reset" i) /\
  (address_in df "ip.src" ips i \/ address_in df "ip.dst" ips i).

(** ** Tables of the worked examples *)

(** One SYN packet sent to a camera by another host. *)
Definition syn_to_camera : DataFrame :=
  <["tcp.flags.syn" := Numeric [Some 1%Q]]>
    (<["ip.src" := Text ["10.0.0.9"]]>
       (<["ip.dst" := Text ["10.0.0.1"]]>
          (<["frame.time" := Datetime [Some 5000]]> ∅))).

(** A capture of two packets of camera 10.0.0.1: its SYN and its FIN. *)
Definition camera_session : DataFrame :=
  <["tcp.flags.syn" := Numeric [Some 1%Q; Some 0%Q]]>
    (<["tcp.flags.fin" := Numeric [Some 0%Q; Some 1%Q]]>
       (<["tcp.flags.reset" := Numeric [Some 0%Q; Some 0%Q]]>
          (<["ip.src" := Text ["10.0.0.1"; "10.0.0.1"]]>
             (<["ip.dst" := Text ["10.0.0.7"; "10.0.0.7"]]>
                (<["frame.time" := Datetime [Some 5000; Some 9000]]>
                   ∅))))).

(** A FIN packet of camera 10.0.0.1 in a table without [ip.dst]. *)
Definition fin_without_destination : DataFrame :=
  <["tcp.flags.fin" := Numeric [Some 1%Q]]>
    (<["tcp.flags.reset" := Numeric [Some 0%Q]]>
       (<["ip.src" := Text ["10.0.0.1"]]>
          (<["frame.time" := Datetime [Some 7000]]> ∅))).

(** A table with the FIN flag and both addresses but without the RESET
    flag; it has no rows. *)
Definition fin_without_reset : DataFrame :=
  <["tcp.flags.fin" := Numeric []]>
    (<["ip.src" := Text []]> (<["ip.dst" := Text []]> ∅)).

(** A SYN packet of a camera in a table without [frame.time]. *)
Definition syn_without_frame_time : DataFrame :=
  <["tcp.flags.syn" := Numeric [Some 1%Q]]>
    (<["ip.src" := Text ["10.0.0.1"]]> ∅).

(* ================================================================== *)
(** * Part III-b: vocabulary of the further properties                 *)
(* ================================================================== *)

(** The message list is in non-decreasing order of time. *)
Definition mqtt_sorted (mqtt_events : list mqtt_event) : Prop :=
  forall j k e e',
    (j <= k)%nat ->
    mqtt_events !! j = Some e -> mqtt_events !! k = Some e' ->
    mqtt_timestamp e <= mqtt_timestamp e'.

(** [e] is a CONN_OPEN strictly before [stor_time] and at most
    [tolerance] seconds before it. *)
Definition conn_open_candidate (tolerance : Q) (stor_time : datetime)
    (e : ftp_event) : Prop :=
  ftp_type e = "CONN_OPEN" /\
  ftp_timestamp e < stor_time /\
  (total_seconds (stor_time - ftp_timestamp e)%Z <= tolerance)%Q.

(** [e] is a CONN_CLOSE strictly after [completion_time] and at most
    [tolerance] seconds after it. *)
Definition conn_close_candidate (tolerance : Q)
    (completion_time : datetime) (e : ftp_event) : Prop :=
  ftp_type e = "CONN_CLOSE" /\
  completion_time < ftp_timestamp e /\
  (total_seconds (ftp_timestamp e - completion_time)%Z <= tolerance)%Q.

(** [x] is the last element of [l], in list order, that satisfies [P]. *)
Definition last_such {A} (P : A -> Prop) (l : list A) (x : A) : Prop :=
  exists pre post,
    l = pre ++ x :: post /\ P x /\ forall y, y ∈ post -> ~ P y.

(** A session around one transfer: the connection opens at 1 s, the
    file is stored from 2 s to 5 s, the connection closes at 6 s; a
    stale CONN_OPEN lies 40 s before the transfer. *)
Definition session_mqtt : list mqtt_event :=
  [MqttEvent 50000000 "true"; MqttEvent 57000000 "true"].

Definition session_ftp : list ftp_event :=
  [FtpEvent "CONN_OPEN" 11000000 None;
   FtpEvent "CONN_OPEN" 51000000 None;
   FtpEvent "STOR" 52000000 (Some "a.jpg");
   FtpEvent "COMPLETION" 55000000 None;
   FtpEvent "CONN_CLOSE" 56000000 None].

Definition session_row : transfer :=
  {| mqtt_true_time := 50000000;
     ftp_stor_time := 52000000;
     ftp_completion_time := 55000000;
     transfer_duration_seconds := total_seconds 3000000;
     filename := Some "a.jpg";
     next_false_mqtt_time := None;
     transfer_completed_after_false_signal := false;
     time_overlap_after_false_signal_seconds := None;
     time_true_to_transfer_start_seconds := total_seconds 2000000;
     connection_opened_time := Some 51000000;
     connection_closed_time := Some 56000000;
     overlapped_with_previous_transfer := false |}.

(** ** Rows of a table, continued *)

(** Row [i] is an FTP-level sign of an opened session: a response code
    that starts with 220 or 230, or a command that contains USER in any
    letter case. *)
Definition ftp_open_rows (df : DataFrame) (i : nat) : Prop :=
  (exists v s,
     df !! "ftp.response.code" = Some (Text v) /\ v !! i = Some s /\
     (startswith "220" s = true \/ startswith "230" s = true)) \/
  (exists v s,
     df !! "ftp.request.command" = Some (Text v) /\ v !! i = Some s /\
     contains "USER" (upper s) = true).

(** Row [i] is an FTP-level sign of a closed session: a command that
    contains QUIT in any letter case, or a response code that starts with
    221. *)
Definition ftp_close_rows (df : DataFrame) (i : nat) : Prop :=
  (exists v s,
     df !! "ftp.request.command" = Some (Text v) /\ v !! i = Some s /\
     contains "QUIT" (upper s) = true) \/
  (exists v s,
     df !! "ftp.response.code" = Some (Text v) /\ v !! i = Some s /\
     startswith "221" s = true).

(** The column [name] is missing or numeric. *)
Definition numeric_or_absent (df : DataFrame) (name : string) : Prop :=
  match df !! name with
  | Some (Numeric _) | None => True
  | Some (Text _) | Some (Datetime _) => False
  end.

(** The column [name] is missing or holds strings. *)
Definition text_or_absent (df : DataFrame) (name : string) : Prop :=
  match df !! name with
  | Some (Text _) | None => True
  | Some (Numeric _) | Some (Datetime _) => False
  end.


(** An FTP session seen only at the FTP layer: the server greets at
    3 ms, the client logs in at 4 ms and quits at 9 ms. *)
Definition ftp_only_session : DataFrame :=
  <["ftp.response.code" := Text ["220"; "230"; "221"]]>
    (<["ftp.request.command" := Text [""; "user"; "quit"]]>
       (<["frame.time" := Datetime [Some 3000; Some 4000; Some 9000]]>
          ∅)).


(* ================================================================== *)
(** * Part II-b: ftp_transfer_analyzer.py, [parse_wireshark_ftp_log]   *)
(* ================================================================== *)

(** ** [sorted(l, key=...)]

    Python's sort is stable, so its result is fixed by the keys: the
    elements in non-decreasing key order, equal keys in their original
    order. The model inserts the elements one by one, each after the
    elements whose key is not greater. *)
Fixpoint insert_by {A} (key : A -> Z) (x : A) (l : list A) : list A :=
  match l with
  | [] => [x]
  | y :: l' =>
      if key x <? key y then x :: y :: l' else y :: insert_by key x l'
  end.

Definition sorted_by {A} (key : A -> Z) (l : list A) : list A :=
  fold_left (fun acc x => insert_by key x acc) l [].

(** ** Strings *)

(** [c.isspace()] for a character below 256. *)
Definition isspace (c : ascii) : bool :=
  let n := nat_of_ascii c in
  ((9 <=? n) && (n <=? 13) || (28 <=? n) && (n <=? 32)
   || (n =? 133) || (n =? 160))%nat.

Fixpoint lstrip (s : string) : string :=
  match s with
  | EmptyString => EmptyString
  | String c rest => if isspace c then lstrip rest else s
  end.

Fixpoint string_rev_append (s acc : string) : string :=
  match s with
  | EmptyString => acc
  | String c rest => string_rev_append rest (String c acc)
  end.

Definition string_rev (s : string) : string :=
  string_rev_append s EmptyString.

(** [s.strip()] *)
Definition strip (s : string) : string :=
  string_rev (lstrip (string_rev (lstrip s))).

(** The longest prefix without a line feed: what [.+] or [.*] can take. *)
Fixpoint until_newline (s : string) : string :=
  match s with
  | EmptyString => EmptyString
  | String c rest =>
      if (nat_of_ascii c =? 10)%nat then EmptyString
      else String c (until_newline rest)
  end.

(** [re.search(r"STOR (.+)", s)]: group 1 of the leftmost match. *)
Fixpoint search_stor (s : string) : option string :=
  match s with
  | EmptyString => None
  | String _ rest =>
      if String.prefix "STOR " s then
        match until_newline (String.substring 5 (String.length s - 5) s)
        with
        | EmptyString => search_stor rest
        | group => Some group
        end
      else search_stor rest
  end.

(** ** One row *)

(** Lines 89-101: the type and the filename read off the Info text;
    [None] when the row is not an FTP event of interest. *)
Definition classify_info (info_str : string)
    : option (string * option string) :=
  if contains "FTP (Command) STOR" info_str then
    Some ("STOR",
          Some match search_stor info_str with
               | Some group => strip group
               | None => "unknown_file"
               end)
  else if contains "FTP (Response) 226 Transfer complete" info_str
          || contains
               "FTP (Response) 250 Requested file action okay, completed"
               info_str then
    Some ("COMPLETION", None)
  else if contains "FTP (Response) 220 Service ready" info_str
          || contains "FTP (Response) 230 User logged in" info_str then
    Some ("CONN_OPEN", None)
  else if contains "FTP (Command) QUIT" info_str
          || contains "FTP (Response) 221 Goodbye" info_str then
    Some ("CONN_CLOSE", None)
  else None.

(** Lines 75-110, one iteration over [(timestamp_str, info_str)].
    [strptime text format] stands for [datetime.strptime], with [None]
    for the [ValueError] of a text that does not fit the format; the
    exception is caught inside the loop and the row is dropped. *)
Definition parse_wireshark_row
    (strptime : string -> string -> option datetime)
    (st : list ftp_event * World) (row : string * string)
    : list ftp_event * World :=
  let '(ftp_events, w) := st in
  let '(timestamp_str, info_str) := row in
  let parsed :=
    if contains " " timestamp_str && contains "." timestamp_str then
      Some (strptime timestamp_str "%Y-%m-%d %H:%M:%S.%f")
    else if contains " " timestamp_str then
      Some (strptime timestamp_str "%Y-%m-%d %H:%M:%S")
    else None in
  match parsed with
  | None =>
      (ftp_events,
       logging_warning
         "Wireshark timestamp might be relative or unparseable. Skipping row."
         [] w)
  | Some None =>
      (ftp_events,
       logging_warning "Error processing Wireshark CSV row." [] w)
  | Some (Some dt_object) =>
      match classify_info info_str with
      | Some (event_type, filename) =>
          (ftp_events ++ [FtpEvent event_type dt_object filename], w)
      | None => (ftp_events, w)
      end
  end.

(** [parse_wireshark_ftp_log] from the rows of the CSV file on (reading
    the file and checking its two columns is left to the caller). *)
Definition parse_wireshark_rows
    (strptime : string -> string -> option datetime)
    (rows : list (string * string)) (w : World)
    : list ftp_event * World :=
  let '(ftp_events, w) :=
    fold_left (parse_wireshark_row strptime) rows ([], w) in
  (sorted_by ftp_timestamp ftp_events,
   logging_info "Found STOR, COMPLETION, CONN_OPEN, CONN_CLOSE events in FTP log."
     [] w).

(** A stand-in for [strptime] in the worked examples: the text is the
    count of microseconds written in unary after "T " and an optional
    dot. *)
Definition unary_time (text format : string) : option datetime :=
  if String.prefix "T " text
  then Some (Z.of_nat (String.length text - 2))
  else None.

Definition sample_rows : list (string * string) :=
  [("T ....", "Response: FTP (Response) 226 Transfer complete");
   ("T ..", "Request: FTP (Command) STOR  img_001.jpg ");
   ("12.5", "FTP (Command) STOR relative.jpg");
   ("T .", "FTP (Response) 220 Service ready");
   ("T ..", "TCP segment")].

(** The event that one row contributes, if any. *)
Definition row_event (strptime : string -> string -> option datetime)
    (row : string * string) : option ftp_event :=
  let '(timestamp_str, info_str) := row in
  dt_object ←
    (if contains " " timestamp_str && contains "." timestamp_str then
       strptime timestamp_str "%Y-%m-%d %H:%M:%S.%f"
     else if contains " " timestamp_str then
       strptime timestamp_str "%Y-%m-%d %H:%M:%S"
     else None);
  '(event_type, filename) ← classify_info info_str;
  Some (FtpEvent event_type dt_object filename).

(* ================================================================== *)
(** * Part II-c: mqtt_test_analyzer_ws.py, [analyze_tshark_capture]    *)
(* ================================================================== *)

(** A metrics dict after the caller has added ["num_cameras_detected"]
    to it. *)
Record camera_metrics := CameraMetrics {
  network : metrics;
  num_cameras_detected : nat
}.

(** [default_metrics], lines 212-217. *)
Definition default_metrics : camera_metrics :=
  {| network :=
       {| total_retransmissions := 0;
          zero_window_count := 0;
          window_full_count := 0;
          lost_segments_count := 0;
          duplicate_ack_count := 0;
          measured_throughput_Mbps := 0%Q;
          avg_rtt_ms := 0%Q;
          ftp_conn_opened_timestamp := None;
          ftp_conn_closed_timestamp := None |};
     num_cameras_detected := 0 |}.

(** The returned dict [{"overall": ..., "per_camera": [...]}]. *)
Record capture_analysis := CaptureAnalysis {
  overall : camera_metrics;
  per_camera : list (string * camera_metrics)
}.

(** [series == ip] *)
Definition eq_str (c : column) (ip : string) : list bool :=
  match c with
  | Text v => map (fun s => String.eqb s ip) v
  | Numeric v => map (fun _ => false) v
  | Datetime v => map (fun _ => false) v
  end.

(** [mask.any()] *)
Definition any (mask : list bool) : bool := existsb (fun b => b) mask.

(** [(df['ip.src'] == ip).any() or (df['ip.dst'] == ip).any()]: the
    destination column is read only when the source column has no
    match. *)
Definition ip_seen (df : DataFrame) (ip : string) : result bool :=
  src <-- getitem df "ip.src" ;;
  if any (eq_str src ip) then inr true
  else dst <-- getitem df "ip.dst" ;; inr (any (eq_str dst ip)).

(** The comprehension of line 259, before it is made a set. *)
Fixpoint seen_ips (df : DataFrame) (configured_camera_ips : list string)
    : result (list string) :=
  match configured_camera_ips with
  | [] => inr []
  | ip :: rest =>
      seen <-- ip_seen df ip ;;
      ips <-- seen_ips df rest ;;
      inr (if seen then ip :: ips else ips)
  end.

(** [detected_ips]. Python iterates a set in an order of its own; the
    model lists it without repetition in the order of [remove_dups]. *)
Definition detected_ips (df : DataFrame)
    (configured_camera_ips : list string) : result (list string) :=
  ips <-- seen_ips df configured_camera_ips ;;
  inr (remove_dups ips).

(** [series[mask]] and [df[mask]] *)
Definition column_select (mask : list bool) (c : column) : column :=
  match c with
  | Numeric v => Numeric (select mask v)
  | Text v => Text (select mask v)
  | Datetime v => Datetime (select mask v)
  end.

Definition filter_rows (mask : list bool) (df : DataFrame) : DataFrame :=
  column_select mask <$> df.

(** Line 267: [df[(df['ip.src'] == ip) | (df['ip.dst'] == ip)].copy()] *)
Definition camera_frame (df : DataFrame) (ip : string)
    : result DataFrame :=
  src <-- getitem df "ip.src" ;;
  dst <-- getitem df "ip.dst" ;;
  inr (filter_rows (mask_or (eq_str src ip) (eq_str dst ip)) df).

(** Lines 266-271: the loop over the detected addresses. *)
Fixpoint per_camera_metrics (df : DataFrame) (capture_duration_s : Q)
    (rtt_field : option string) (ips : list string)
    : result (list (string * camera_metrics)) :=
  match ips with
  | [] => inr []
  | ip :: rest =>
      df_cam <-- camera_frame df ip ;;
      cam_metrics <-- calculate_metrics df_cam capture_duration_s
                        rtt_field [ip] ;;
      others <-- per_camera_metrics df capture_duration_s rtt_field rest ;;
      inr ((ip, {| network := cam_metrics;
                   num_cameras_detected := 1 |}) :: others)
  end.

(** Lines 259-271, inside the [try]. *)
Definition analyze_frame (df : DataFrame) (capture_duration_s : Q)
    (rtt_field : option string) (configured_camera_ips : list string)
    : result capture_analysis :=
  ips <-- detected_ips df configured_camera_ips ;;
  overall_metrics <-- calculate_metrics df capture_duration_s rtt_field
                        configured_camera_ips ;;
  per_camera_metrics_list <--
    per_camera_metrics df capture_duration_s rtt_field ips ;;
  inr {| overall := {| network := overall_metrics;
                       num_cameras_detected := length ips |};
         per_camera := per_camera_metrics_list |}.

(** [analyze_tshark_capture] from the cleaned table on (running tshark,
    reading its CSV export and converting the column types is left
    out): any exception of the analysis is caught and answered with the
    default metrics and no camera. *)
Definition analyze_tshark_capture (df : DataFrame)
    (capture_duration_s : Q) (rtt_field : option string)
    (configured_camera_ips : list string) : capture_analysis :=
  match analyze_frame df capture_duration_s rtt_field
          configured_camera_ips with
  | inr analysis => analysis
  | inl _ => {| overall := default_metrics; per_camera := [] |}
  end.

(** The cells of the column [name], where it is numeric, are not
    negative. *)
Definition nonneg_column (df : DataFrame) (name : string) : Prop :=
  forall v,
    df !! name = Some (Numeric v) ->
    Forall (fun x => match x with
                     | Some q => (0 <= q)%Q
                     | None => True
                     end) v.

(** Two cameras and a third host: four packets, three of them
    retransmitted. *)
Definition two_cameras : DataFrame :=
  <["ip.src" := Text ["10.0.0.1"; "10.0.0.2"; "10.0.0.7"; "10.0.0.1"]]>
    (<["ip.dst" := Text ["10.0.0.7"; "10.0.0.7"; "10.0.0.2"; "10.0.0.7"]]>
       (<["tcp.analysis.retransmission" :=
            Numeric [Some 1%Q; Some 0%Q; Some 1%Q; Some 1%Q]]>
          (<["frame.time" :=
               Datetime [Some 1000; Some 2000; Some 3000; Some 4000]]>
             ∅))).

(** The address [ip] occurs in the source or in the destination column
    of the table. *)
Definition address_occurs (df : DataFrame) (ip : string) : Prop :=
  exists name v i,
    (name = "ip.src" \/ name = "ip.dst") /\
    df !! name = Some (Text v) /\ v !! i = Some ip.

(* ================================================================== *)
(** * Part II-d: clock.py                                              *)
(* ================================================================== *)

(** Characters are those below 256, which is all that the clock's own
    text needs; text of any characters follows at the end of this
    part. *)

(** [ORIGINAL_DIGITS] *)
Definition ORIGINAL_DIGITS : gmap ascii (list string) :=
  list_to_map
    [("0"%char, [" AAA "; "A   A"; "A   A"; "A   A"; " AAA "]);
     ("1"%char, ["  A  "; " AA  "; "  A  "; "  A  "; " AAA "]);
     ("2"%char, [" AAA "; "    A"; " AAA "; "A    "; " AAA "]);
     ("3"%char, [" AAA "; "    A"; "  AA "; "    A"; " AAA "]);
     ("4"%char, ["A   A"; "A   A"; " AAA "; "    A"; "    A"]);
     ("5"%char, [" AAA "; "A    "; " AAA "; "    A"; " AAA "]);
     ("6"%char, [" AAA "; "A    "; " AAA "; "A   A"; " AAA "]);
     ("7"%char, ["AAAAA"; "    A"; "   A "; "  A  "; " A   "]);
     ("8"%char, [" AAA "; "A   A"; " AAA "; "A   A"; " AAA "]);
     ("9"%char, [" AAA "; "A   A"; " AAA "; "    A"; " AAA "])].

Definition ORIGINAL_SEPARATOR_DOT : list string :=
  ["     "; "  .  "; "     "; "  .  "; "     "].

Definition ORIGINAL_SEPARATOR_DASH : list string :=
  ["     "; " --- "; "     "; " --- "; "     "].

(** The inner loop of [scale_char_art]: every character twice. *)
Fixpoint scale_line (line : string) : string :=
  match line with
  | EmptyString => EmptyString
  | String c rest => String c (String c (scale_line rest))
  end.

(** [scale_char_art]: every scaled line twice. *)
Fixpoint scale_char_art (original_art : list string) : list string :=
  match original_art with
  | [] => []
  | line :: rest =>
      scale_line line :: scale_line line :: scale_char_art rest
  end.

Definition SCALED_DIGITS : gmap ascii (list string) :=
  scale_char_art <$> ORIGINAL_DIGITS.

Definition SCALED_SEPARATOR_DOT : list string :=
  scale_char_art ORIGINAL_SEPARATOR_DOT.

Definition SCALED_SEPARATOR_DASH : list string :=
  scale_char_art ORIGINAL_SEPARATOR_DASH.

(** [len(SCALED_DIGITS['0'])] *)
Definition SCALED_CHAR_HEIGHT : nat :=
  match SCALED_DIGITS !! "0"%char with
  | Some art => length art
  | None => 0
  end.

(** The exceptions of this module: a missing dict key and a list index
    out of range. *)
Inductive clock_exn :=
| CharKeyError (key : ascii)
| IndexError.

Definition clock_bind {A B} (r : clock_exn + A)
    (k : A -> clock_exn + B) : clock_exn + B :=
  match r with
  | inl e => inl e
  | inr a => k a
  end.

(** [c.isdigit()] on the characters below 256: there it accepts the
    ten ASCII digits and the superscripts two, three and one. (Above
    256 it accepts many more; see [Unicode] below.) *)
Definition isdigit (c : ascii) : bool :=
  let n := nat_of_ascii c in
  ((48 <=? n) && (n <=? 57) || (n =? 178) || (n =? 179) || (n =? 185))%nat.

(** [get_large_char] *)
Definition get_large_char (c : ascii) : clock_exn + list string :=
  if isdigit c then
    match SCALED_DIGITS !! c with
    | Some art => inr art
    | None => inl (CharKeyError c)
    end
  else if Ascii.eqb c "."%char then inr SCALED_SEPARATOR_DOT
  else if Ascii.eqb c "-"%char then inr SCALED_SEPARATOR_DASH
  else inr (scale_char_art (replicate 5 "     ")).

(** The inner loop of [display_large_time]:
    [display_lines[i] += large_char_art[i] + "  "] for [i] below the
    height. *)
Fixpoint add_large_char (i : nat) (display_lines large_char_art : list string)
    : clock_exn + list string :=
  match display_lines with
  | [] => inr []
  | line :: rest =>
      match large_char_art !! i with
      | Some art_line =>
          clock_bind (add_large_char (S i) rest large_char_art)
            (fun rest' =>
               inr (String.append line (String.append art_line "  ")
                    :: rest'))
      | None => inl IndexError
      end
  end.

Fixpoint display_chars (chars : list ascii) (display_lines : list string)
    : clock_exn + list string :=
  match chars with
  | [] => inr display_lines
  | c :: rest =>
      clock_bind (get_large_char c) (fun large_char_art =>
      clock_bind (add_large_char 0 display_lines large_char_art)
        (fun display_lines' => display_chars rest display_lines'))
  end.

(** [display_large_time]: the lines it prints. *)
Definition display_large_time (time_string : string)
    : clock_exn + list string :=
  display_chars (list_ascii_of_string time_string)
    (replicate SCALED_CHAR_HEIGHT EmptyString).

(** The fields of [datetime.datetime.now()] that the loop reads. *)
Record clock_now := ClockNow {
  hour : nat;
  minute : nat;
  second : nat;
  microsecond : nat
}.

(** A number in decimal, padded with zeros on the left to at least
    [width] characters: [%H], [%M], [%S] with width 2 and [:03d]. *)
Definition zero_padded (width n : nat) : string :=
  let digits := NilZero.string_of_uint (Nat.to_uint n) in
  String.append
    (string_of_list_ascii
       (replicate (width - String.length digits) "0"%char))
    digits.

(** [now.strftime("%H-%M-%S") + f".{now.microsecond // 1000:03d}"] *)
Definition time_str (now : clock_now) : string :=
  String.append
    (String.append (zero_padded 2 (hour now))
       (String.append "-"
          (String.append (zero_padded 2 (minute now))
             (String.append "-" (zero_padded 2 (second now))))))
    (String.append "." (zero_padded 3 (microsecond now / 1000))).

(** A character that [str.isdigit] accepts and [SCALED_DIGITS] lacks. *)
Definition superscript_digit (c : ascii) : Prop :=
  nat_of_ascii c = 178%nat \/ nat_of_ascii c = 179%nat
  \/ nat_of_ascii c = 185%nat.

(** [c] is one of the ten ASCII digits. *)
Definition ascii_digit (c : ascii) : bool :=
  let n := nat_of_ascii c in ((48 <=? n) && (n <=? 57))%nat.

(** [zero_padded width n] has exactly [width] characters, all digits. *)
Definition padded_exactly (width n : nat) : bool :=
  (String.length (zero_padded width n) =? width)%nat
  && forallb ascii_digit (list_ascii_of_string (zero_padded width n)).

(** ** Text of any characters

    [display_large_time] takes any string. In this second reading of
    [get_large_char] and [display_large_time] a character is its code
    point, and [str.isdigit], a table of the Unicode database, is a
    parameter. The keys of [SCALED_DIGITS] are the ten ASCII digits. *)
Module Unicode.

Inductive clock_exn :=
| KeyError (key : N)
| IndexError.

Definition clock_bind {A B} (r : clock_exn + A)
    (k : A -> clock_exn + B) : clock_exn + B :=
  match r with
  | inl e => inl e
  | inr a => k a
  end.

(** [SCALED_DIGITS[char]] *)
Definition SCALED_DIGITS_getitem (char : N) : clock_exn + list string :=
  match (if (char <? 256)%N then SCALED_DIGITS !! ascii_of_N char
         else None) with
  | Some art => inr art
  | None => inl (KeyError char)
  end.

(** [get_large_char]; 46 is the full stop and 45 the hyphen. *)
Definition get_large_char (isdigit : N -> bool) (char : N)
    : clock_exn + list string :=
  if isdigit char then SCALED_DIGITS_getitem char
  else if (char =? 46)%N then inr SCALED_SEPARATOR_DOT
  else if (char =? 45)%N then inr SCALED_SEPARATOR_DASH
  else inr (scale_char_art (replicate 5 "     ")).

Fixpoint add_large_char (i : nat) (display_lines large_char_art : list string)
    : clock_exn + list string :=
  match display_lines with
  | [] => inr []
  | line :: rest =>
      match large_char_art !! i with
      | Some art_line =>
          clock_bind (add_large_char (S i) rest large_char_art)
            (fun rest' =>
               inr (String.append line (String.append art_line "  ")
                    :: rest'))
      | None => inl IndexError
      end
  end.

Fixpoint display_chars (isdigit : N -> bool) (chars : list N)
    (display_lines : list string) : clock_exn + list string :=
  match chars with
  | [] => inr display_lines
  | c :: rest =>
      clock_bind (get_large_char isdigit c) (fun large_char_art =>
      clock_bind (add_large_char 0 display_lines large_char_art)
        (fun display_lines' => display_chars isdigit rest display_lines'))
  end.

(** [display_large_time]: the lines it prints. *)
Definition display_large_time (isdigit : N -> bool) (time_string : list N)
    : clock_exn + list string :=
  display_chars isdigit time_string
    (replicate SCALED_CHAR_HEIGHT EmptyString).

(** The code point of one of the ten ASCII digits. *)
Definition ascii_digit (char : N) : bool :=
  ((48 <=? char) && (char <=? 57))%N.

(** A character that [str.isdigit] accepts and [SCALED_DIGITS] lacks. *)
Definition missing_digit (isdigit : N -> bool) (char : N) : bool :=
  isdigit char && negb (ascii_digit char).

End Unicode.

(* ================================================================== *)
(** * Part II-e: mqtt_test_analyzer_ws.py, [load_config]               *)
(* ================================================================== *)

(** A JSON document as [json.load] reads it; an object keeps its pairs
    in the order of the file. *)
#[warnings="-register-all"]
Inductive json :=
| JNull
| JBool (b : bool)
| JInt (z : Z)
| JFloat (q : Q)
| JStr (s : string)
| JArray (items : list json)
| JObject (pairs : list (string * json)).

(** The dict that [json.load] builds of a top-level object: the pairs
    are stored in order, a repeated name replaces the earlier value. *)
Definition dict_of_pairs (pairs : list (string * json))
    : gmap string json :=
  fold_left (fun d p => <[p.1 := p.2]> d) pairs ∅.

(** What [open] and [json.load] come to: one of the exceptions that
    [load_config] catches, or the document. *)
Inductive load_outcome :=
| FileNotFoundError
| JSONDecodeError
| OtherException (e : string)
| Loaded (document : json).

(** [type(x).__name__] of a document that is not an object. *)
Definition type_name (document : json) : string :=
  match document with
  | JNull => "NoneType"
  | JBool _ => "bool"
  | JInt _ => "int"
  | JFloat _ => "float"
  | JStr _ => "str"
  | JArray _ => "list"
  | JObject _ => "dict"
  end.

(** [default_config], lines 19-37. *)
Definition default_config : gmap string json :=
  dict_of_pairs
    [("mqtt_broker", JStr "broker.emqx.io");
     ("mqtt_port", JInt 1883);
     ("mqtt_topic", JStr "home/status/power");
     ("interval_true_false", JInt 5000);
     ("interval_false_true", JInt 10000);
     ("log_file", JStr "mqtt_activity.log");
     ("repeats", JInt 1);
     ("true_message", JStr "true");
     ("false_message", JStr "false");
     ("ftp_folder_to_manage", JStr "./ftp_images");
     ("ftp_management_delay_seconds", JInt 2);
     ("google_sheet_name", JStr "My_Test_Results");
     ("google_worksheet_name", JStr "Test_Data");
     ("tshark_enabled", JBool false);
     ("tshark_interface", JStr EmptyString);
     ("tshark_temp_capture_file", JStr "temp_capture.pcap");
     ("camera_ips", JArray [])].

Definition logging_error := logging_log "ERROR".
Definition logging_critical := logging_log "CRITICAL".

Definition unexpected_error (e : string) : string :=
  String.append "Unexpected error loading config: "
    (String.append e ". Using defaults.").

(** [load_config], lines 15-50.  [{**default_config, **config}] keeps
    the defaults and lets the file's values replace them; for a
    document that is not an object the merge raises [TypeError], which
    the last handler catches like any other exception. *)
Definition load_config (config_file : string) (outcome : load_outcome)
    (w : World) : gmap string json * World :=
  match outcome with
  | Loaded (JObject pairs) => (dict_of_pairs pairs ∪ default_config, w)
  | FileNotFoundError =>
      (default_config,
       logging_error
         (String.append "Config file '"
            (String.append config_file "' not found. Using defaults."))
         [] w)
  | JSONDecodeError =>
      (default_config,
       logging_error
         (String.append "Error decoding JSON from '"
            (String.append config_file "'. Using defaults."))
         [] w)
  | OtherException e =>
      (default_config, logging_critical (unexpected_error e) [] w)
  | Loaded document =>
      (default_config,
       logging_critical
         (unexpected_error
            (String.append "'"
               (String.append (type_name document)
                  "' object is not a mapping")))
         [] w)
  end.

(** The value of the last pair of the given name. *)
Definition last_value (k : string) (pairs : list (string * json))
    : option json :=
  last (omap (fun p => if decide (p.1 = k) then Some p.2 else None)
             pairs).

(** A file that names the repeats twice and one camera. *)
Definition sample_pairs : list (string * json) :=
  [("repeats", JInt 3);
   ("camera_ips", JArray [JStr "10.0.0.1"]);
   ("repeats", JInt 7)].

(* ================================================================== *)
(** * Part II-f: triggering_manager.py, the loop of [run_publisher]    *)
(* ================================================================== *)

(** What a call of [client.publish] comes to: an exception, or a
    result whose [rc] is [MQTT_ERR_SUCCESS] ([None]) or an error with
    the text of [mqtt.error_string]. *)
Inductive publish_outcome :=
| PublishRaises (e : string)
| PublishRc (error_string : option string).

(** The MQTT client and the sleeping of the process: the outcome of
    the k-th call of [client.publish], the calls made so far, the
    pauses taken so far in seconds, and whether the client is still
    connected. *)
Record broker := MkBroker {
  publish_outcomes : nat -> publish_outcome;
  publish_calls : list (string * string);
  sleeps : list Q;
  connected : bool
}.

(** The local variables that [run_publisher] reads from the
    configuration (lines 82-90); [repeats] is an integer. *)
Record publisher_settings := MkSettings {
  topic : string;
  true_message : string;
  false_message : string;
  interval_tf_s : Q;
  interval_ft_s : Q;
  repeats : Z
}.

(** The statements of the [try] block run on the log and the client;
    each one raises (the text of the exception) or returns. *)
Definition publisher_state : Type := World * broker.

Definition pub (A : Type) : Type :=
  publisher_state -> (string + A) * publisher_state.

Definition pub_ret {A} (a : A) : pub A := fun st => (inr a, st).

Definition pub_bind {A B} (m : pub A) (k : A -> pub B) : pub B :=
  fun st =>
    match m st with
    | (inl e, st') => (inl e, st')
    | (inr a, st') => k a st'
    end.

Notation "x <~ m ;; k" := (pub_bind m (fun x => k))
  (at level 100, m at next level, right associativity).

Definition client_publish (topic message : string)
    : pub (option string) :=
  fun '(w, b) =>
    let b' := MkBroker (publish_outcomes b)
                       (publish_calls b ++ [(topic, message)])
                       (sleeps b) (connected b) in
    match publish_outcomes b (length (publish_calls b)) with
    | PublishRaises e => (inl e, (w, b'))
    | PublishRc rc => (inr rc, (w, b'))
    end.

(** [time.sleep]: a negative length raises [ValueError]. *)
Definition time_sleep (seconds : Q) : pub unit :=
  fun '(w, b) =>
    if Qle_bool 0 seconds then
      (inr tt,
       (w, MkBroker (publish_outcomes b) (publish_calls b)
                    (sleeps b ++ [seconds]) (connected b)))
    else (inl "sleep length must be non-negative", (w, b)).

Definition pub_log (level msg : string) : pub unit :=
  fun '(w, b) => (inr tt, (logging_log level msg [] w, b)).

(** [str(n)] for an integer. *)
Definition str_int (n : Z) : string :=
  NilZero.string_of_int (Z.to_int n).

Definition published_message (s : publisher_settings) (message : string)
    (current_repeat : Z) : string :=
  String.append "Published '"
    (String.append message
       (String.append "' to topic '"
          (String.append (topic s)
             (String.append "' (Cycle "
                (String.append (str_int (current_repeat + 1))
                   (String.append "/"
                      (String.append
                         (if repeats s =? -1 then "Infinite"
                          else str_int (repeats s))
                         ")"))))))).

Definition failed_message (message error_string : string) : string :=
  String.append "Failed to publish '"
    (String.append message (String.append "': " error_string)).

(** Lines 117-122 and 127-132: one message is published and the
    outcome is logged. *)
Definition publish_and_log (s : publisher_settings) (message : string)
    (current_repeat : Z) : pub unit :=
  rc <~ client_publish (topic s) message ;;
  match rc with
  | None => pub_log "INFO" (published_message s message current_repeat)
  | Some error_string =>
      pub_log "ERROR" (failed_message message error_string)
  end.

(** Lines 116-137: the body of the [while] loop; the value is
    [current_repeat] after the body. *)
Definition publish_cycle (s : publisher_settings) (current_repeat : Z)
    : pub Z :=
  _ <~ publish_and_log s (true_message s) current_repeat ;;
  _ <~ time_sleep (interval_tf_s s) ;;
  _ <~ publish_and_log s (false_message s) current_repeat ;;
  _ <~ time_sleep (interval_ft_s s) ;;
  pub_ret (if negb (repeats s =? -1) then current_repeat + 1
           else current_repeat).

(** Lines 114-137: the [while] loop, run for at most [fuel] bodies;
    [None] when the loop has not ended by then.  A loop that ends
    gives the exception that ended it, if any, and [current_repeat]
    as the [finally] block finds it: the body raises only before its
    increment. *)
Fixpoint publish_loop (fuel : nat) (s : publisher_settings)
    (current_repeat : Z) (st : publisher_state)
    : option (option string * Z * publisher_state) :=
  if (repeats s =? -1) || (current_repeat <? repeats s) then
    match fuel with
    | O => None
    | S fuel' =>
        match publish_cycle s current_repeat st with
        | (inl e, st') => Some (Some e, current_repeat, st')
        | (inr current_repeat', st') =>
            publish_loop fuel' s current_repeat' st'
        end
    end
  else Some (None, current_repeat, st).

Definition client_disconnect (b : broker) : broker :=
  MkBroker (publish_outcomes b) (publish_calls b) (sleeps b) false.

(** Lines 113-148 of [run_publisher] in triggering_manager.py, for a
    run that no Ctrl+C interrupts: the loop, the handler of [Exception]
    and the [finally] block. (mqtt_interval_publisher.py has the same
    loop; its [finally] block goes on after the last record: it logs
    again, sleeps two seconds and manages the FTP folder, which is not
    modelled.) *)
Definition publish_messages (fuel : nat) (s : publisher_settings)
    (st : publisher_state) : option (Z * publisher_state) :=
  match publish_loop fuel s 0 st with
  | None => None
  | Some (raised, current_repeat, (w, b)) =>
      let w :=
        match raised with
        | Some e =>
            logging_critical
              (String.append "An unhandled error occurred: " e) [] w
        | None => w
        end in
      let w := logging_info "Disconnecting from MQTT broker." [] w in
      let b := client_disconnect b in
      let w :=
        if negb (repeats s =? -1) then
          logging_info
            (String.append "Completed "
               (String.append (str_int current_repeat)
                  " message cycles as configured.")) [] w
        else w in
      Some (current_repeat, (w, b))
  end.

(** ** Vocabulary for the publisher *)

(** The state after [n] bodies of the loop, whatever its condition. *)
Fixpoint publish_cycles (n : nat) (s : publisher_settings)
    (current_repeat : Z) : pub Z :=
  match n with
  | O => pub_ret current_repeat
  | S n' =>
      c <~ publish_cycle s current_repeat ;;
      publish_cycles n' s c
  end.

(** The calls of [n] full cycles, and their pauses. *)
Definition cycles_published (s : publisher_settings) (n : nat)
    : list (string * string) :=
  concat (replicate n [(topic s, true_message s);
                       (topic s, false_message s)]).

Definition cycles_slept (s : publisher_settings) (n : nat) : list Q :=
  concat (replicate n [interval_tf_s s; interval_ft_s s]).

(** No call of [client.publish] raises. *)
Definition publish_returns (b : broker) : Prop :=
  forall k, exists rc, publish_outcomes b k = PublishRc rc.

(** A client whose calls all succeed, and one that is offline: every
    call returns an error code. *)
Definition idle_broker : broker :=
  MkBroker (fun _ => PublishRc None) [] [] true.

Definition offline_broker : broker :=
  MkBroker (fun _ => PublishRc (Some "The connection was lost."))
           [] [] true.

Definition sample_settings (repeats : Z) (interval_tf_s : Q)
    : publisher_settings :=
  MkSettings "home/status/power" "true" "false" interval_tf_s 10 repeats.

(* ================================================================== *)
(** * Part IV: properties of the correlation loop                      *)
(* ================================================================== *)

(** ** The log *)

Lemma logging_log_sink level msg args w :
  log_sink (logging_log level msg args w) =
  log_sink w ++ [LogRecord (wall_clock w (clock_reads w)) level msg args].
Proof. reflexivity. Qed.

(** ** Searching a list for its first match *)

Lemma head_filter_find {A} (f : A -> bool) (l : list A) :
  head (List.filter f l) = List.find f l.
Proof.
  induction l as [|x l IH]; simpl; [done|].
  destruct (f x); simpl; auto.
Qed.

Lemma find_first {A} (f : A -> bool) (l : list A) (x : A) :
  List.find f l = Some x ->
  first_such (fun y => f y = true) l x.
Proof.
  induction l as [|y l IH]; simpl; [done|].
  destruct (f y) eqn:Hy.
  - intros [= ->]. exists [], l. split; [done|]. split; [done|].
    intros z Hz. by apply elem_of_nil in Hz.
  - intros Hx. destruct (IH Hx) as (pre & post & -> & Hfx & Hpre).
    exists (y :: pre), post. split; [done|]. split; [done|].
    intros z [->|Hz]%elem_of_cons; [congruence | by apply Hpre].
Qed.

Lemma find_none_iff {A} (f : A -> bool) (l : list A) :
  List.find f l = None <-> forall y, y ∈ l -> f y = false.
Proof.
  induction l as [|y l IH]; simpl.
  - split; [|done]. intros _ z Hz. by apply elem_of_nil in Hz.
  - destruct (f y) eqn:Hy.
    + split; [done|]. intros H. specialize (H y). rewrite Hy in H.
      discriminate H. apply elem_of_cons. by left.
    + rewrite IH. split.
      * intros H z [->|Hz]%elem_of_cons; auto.
      * intros H z Hz. apply H, elem_of_cons. by right.
Qed.

Lemma first_such_iff {A} (P Q : A -> Prop) (l : list A) (x : A) :
  (forall y, P y <-> Q y) -> first_such P l x -> first_such Q l x.
Proof.
  intros HPQ (pre & post & -> & Hx & Hpre).
  exists pre, post. split; [done|]. split; [by apply HPQ|].
  intros y Hy HQ. apply (Hpre y Hy). by apply HPQ.
Qed.

(** In a sorted list the first match is also the earliest one. *)
Lemma first_such_lookup {A} (P : A -> Prop) (l : list A) (x : A) :
  first_such P l x ->
  exists j, l !! j = Some x /\ P x /\
            forall k y, l !! k = Some y -> P y -> (j <= k)%nat.
Proof.
  intros (pre & post & -> & Hx & Hpre).
  exists (length pre). split; [by apply list_lookup_middle|].
  split; [done|]. intros k y Hk Hy.
  destruct (decide (k < length pre)%nat) as [Hlt|]; [|lia].
  rewrite lookup_app_l in Hk by done.
  exfalso. apply (Hpre y); [|done]. by eapply list_elem_of_lookup_2.
Qed.

(** ** The tests of the searches, as propositions *)

Lemma stor_test_spec (a b : datetime) (e : ftp_event) :
  String.eqb (ftp_type e) "STOR"
  && ((a <=? ftp_timestamp e) && (ftp_timestamp e <=? a + b)) = true
  <-> stor_in_window a b e.
Proof.
  unfold stor_in_window.
  rewrite !andb_true_iff, String.eqb_eq, !Z.leb_le. tauto.
Qed.

Lemma completion_test_spec (s e : ftp_event) :
  (ftp_timestamp s <? ftp_timestamp e)
  && String.eqb (ftp_type e) "COMPLETION" = true
  <-> completion_after s e.
Proof.
  unfold completion_after.
  rewrite andb_true_iff, String.eqb_eq, Z.ltb_lt. tauto.
Qed.

Lemma found_stor_first ftp_events signal_on tolerance s :
  head (relevant_stors ftp_events signal_on (signal_on + tolerance))
    = Some s ->
  first_such (stor_in_window signal_on tolerance) ftp_events s.
Proof.
  unfold relevant_stors. rewrite head_filter_find. intros H%find_first.
  eapply first_such_iff; [|exact H].
  intros y. apply stor_test_spec.
Qed.

Lemma found_stor_none ftp_events signal_on tolerance :
  (forall e, e ∈ ftp_events -> ~ stor_in_window signal_on tolerance e) ->
  head (relevant_stors ftp_events signal_on (signal_on + tolerance))
    = None.
Proof.
  intros Hno. unfold relevant_stors. rewrite head_filter_find.
  apply find_none_iff. intros y Hy.
  apply not_true_is_false. rewrite stor_test_spec. by apply Hno.
Qed.

Lemma found_completion_first ftp_events s c :
  find_completion ftp_events s = Some c ->
  first_such (completion_after s) ftp_events c.
Proof.
  unfold find_completion. intros H%find_first.
  eapply first_such_iff; [|exact H].
  intros y. apply completion_test_spec.
Qed.

Lemma find_next_false_spec mqtt_events i :
  first_false_after mqtt_events i (find_next_false mqtt_events i).
Proof.
  unfold find_next_false.
  destruct (List.find _ _) as [e|] eqn:Hfind; simpl.
  - apply find_first, first_such_lookup in Hfind
      as (j & Hj & He & Hmin).
    rewrite lookup_drop in Hj. apply String.eqb_eq in He.
    exists (S i + j)%nat, e. repeat split; [lia|done..|].
    intros k e' Hk He' Hty.
    assert (j <= k - S i)%nat; [|lia].
    apply (Hmin (k - S i)%nat e'); [|by apply String.eqb_eq].
    rewrite lookup_drop. by replace (S i + (k - S i))%nat with k by lia.
  - intros j e Hj He Hty.
    rewrite find_none_iff in Hfind.
    assert (String.eqb (mqtt_type e) "false" = false) as Hf.
    { apply Hfind. apply list_elem_of_lookup. exists (j - S i)%nat.
      rewrite lookup_drop.
      by replace (S i + (j - S i))%nat with j by lia. }
    apply String.eqb_neq in Hf. done.
Qed.

(** ** The loop, one iteration at a time *)

Section Correlation.

Variables (mqtt_events : list mqtt_event) (ftp_events : list ftp_event).
Variables (time_tolerance_stor : timedelta)
          (time_tolerance_seconds_conn : Q).

Let step :=
  analyze_step mqtt_events ftp_events
    time_tolerance_stor time_tolerance_seconds_conn.
Let prefix :=
  analyze_prefix mqtt_events ftp_events
    time_tolerance_stor time_tolerance_seconds_conn.
Let outcome :=
  step_outcome mqtt_events ftp_events
    time_tolerance_stor time_tolerance_seconds_conn.

Lemma analyze_step_outcome st i ev : outcome st i ev (step st (i, ev)).
Proof.
  unfold outcome, step, analyze_step.
  destruct (String.eqb (mqtt_type ev) "true") eqn:Hty.
  - apply String.eqb_eq in Hty.
    destruct (head (relevant_stors _ _ _)) as [s|] eqn:Hs.
    + destruct (find_completion ftp_events s) as [c|] eqn:Hc.
      * by eapply outcome_emitted.
      * apply outcome_skipped; [done|]. intros s' Hs'. congruence.
    + apply outcome_skipped; [done|]. intros s' Hs'. congruence.
  - apply String.eqb_neq in Hty. by apply outcome_ignored.
Qed.

Lemma enumerate_lookup {A} (l : list A) (i : nat) :
  enumerate l !! i = pair i <$> l !! i.
Proof. apply list_lookup_imap. Qed.

Lemma enumerate_length {A} (l : list A) :
  length (enumerate l) = length l.
Proof. apply length_imap. Qed.

Lemma analyze_prefix_S w i ev :
  mqtt_events !! i = Some ev ->
  prefix w (S i) = step (prefix w i) (i, ev).
Proof.
  intros Hev. unfold prefix, analyze_prefix.
  rewrite (take_S_r _ _ (i, ev)).
  - by rewrite fold_left_app.
  - by rewrite enumerate_lookup, Hev.
Qed.

Lemma analyze_prefix_past w n :
  (length mqtt_events <= n)%nat ->
  prefix w n = prefix w (length mqtt_events).
Proof.
  intros Hn. unfold prefix, analyze_prefix.
  rewrite !take_ge; [done | | ]; rewrite enumerate_length; lia.
Qed.

Lemma analyze_transfers_prefix w :
  analyze_transfers mqtt_events ftp_events
    time_tolerance_stor time_tolerance_seconds_conn w
  = (analysis_results (prefix w (length mqtt_events)),
     world (prefix w (length mqtt_events))).
Proof.
  unfold analyze_transfers, prefix, analyze_prefix.
  rewrite take_ge; [done|]. rewrite enumerate_length. lia.
Qed.

(** What holds initially and is preserved by every iteration holds
    after any number of iterations. *)
Lemma analyze_prefix_ind (P : nat -> loop_state -> Prop) w :
  P 0%nat (initial_state w) ->
  (forall i ev st,
     mqtt_events !! i = Some ev -> st = prefix w i -> P i st ->
     P (S i) (step st (i, ev))) ->
  forall n, (n <= length mqtt_events)%nat -> P n (prefix w n).
Proof.
  intros H0 Hstep n. induction n as [|n IH]; intros Hn; [done|].
  destruct (lookup_lt_is_Some_2 mqtt_events n) as [ev Hev]; [lia|].
  rewrite (analyze_prefix_S _ _ _ Hev).
  apply Hstep; [done | done | apply IH; lia].
Qed.

(** An iteration leaves the rows alone or appends one row. *)
Lemma step_results st i ev :
  analysis_results (step st (i, ev)) = analysis_results st \/
  exists r, analysis_results (step st (i, ev)) = analysis_results st ++ [r].
Proof.
  destruct (analyze_step_outcome st i ev); simpl; eauto.
Qed.

Lemma app_singleton_neq {A} (l : list A) (x : A) : l <> l ++ [x].
Proof.
  intros H. apply (f_equal length) in H.
  rewrite length_app in H. simpl in H. lia.
Qed.

(** The iteration that appends a row, taken apart. *)
Lemma emits_inv w i r :
  emits mqtt_events ftp_events time_tolerance_stor time_tolerance_seconds_conn
    w i r ->
  exists ev s c,
    mqtt_events !! i = Some ev /\ mqtt_type ev = "true" /\
    head (relevant_stors ftp_events (mqtt_timestamp ev)
            (mqtt_timestamp ev + time_tolerance_stor)) = Some s /\
    find_completion ftp_events s = Some c /\
    r = make_transfer mqtt_events ftp_events time_tolerance_seconds_conn i
          (mqtt_timestamp ev) s c
          (last_transfer_completion_time (prefix w i)) /\
    last_transfer_completion_time (prefix w (S i))
      = Some (ftp_completion_time r).
Proof.
  unfold emits. fold prefix. intros Hem.
  destruct (mqtt_events !! i) as [ev|] eqn:Hev.
  - rewrite (analyze_prefix_S _ _ _ Hev) in *.
    destruct (analyze_step_outcome (prefix w i) i ev) as [ | |s c Hty Hs Hc].
    + by apply app_singleton_neq in Hem.
    + by apply app_singleton_neq in Hem.
    + simpl in Hem. apply app_inv_head in Hem. injection Hem as <-.
      exists ev, s, c. done.
  - apply lookup_ge_None in Hev.
    rewrite (analyze_prefix_past w (S i)), (analyze_prefix_past w i) in Hem
      by lia.
    by apply app_singleton_neq in Hem.
Qed.

(** Every row of the final list was appended by some iteration, and the
    rows before it are those the loop held when that iteration began. *)
Lemma results_emitted w n :
  (n <= length mqtt_events)%nat ->
  forall k r,
    analysis_results (prefix w n) !! k = Some r ->
    exists i,
      (i < n)%nat /\
      emits mqtt_events ftp_events time_tolerance_stor
        time_tolerance_seconds_conn w i r /\
      length (analysis_results (prefix w i)) = k.
Proof.
  apply (analyze_prefix_ind
    (fun n st => forall k r, analysis_results st !! k = Some r ->
       exists i, (i < n)%nat /\
         emits mqtt_events ftp_events time_tolerance_stor
           time_tolerance_seconds_conn w i r /\
         length (analysis_results (prefix w i)) = k)).
  - intros k r Hk. simpl in Hk. by rewrite lookup_nil in Hk.
  - intros i ev st Hev -> IH k r Hk.
    destruct (decide (k < length (analysis_results (prefix w i)))%nat)
      as [Hlt|Hge].
    + destruct (IH k r) as (j & Hj & Hem & Hlen).
      * destruct (step_results (prefix w i) i ev) as [Heq|[r' Heq]];
          rewrite Heq in Hk; [done|].
        by rewrite lookup_app_l in Hk.
      * exists j. split; [lia|done].
    + destruct (step_results (prefix w i) i ev) as [Heq|[r' Heq]];
        rewrite Heq in Hk.
      * apply lookup_lt_Some in Hk. lia.
      * pose proof (lookup_lt_Some _ _ _ Hk) as Hlt.
        rewrite length_app in Hlt. simpl in Hlt.
        assert (k = length (analysis_results (prefix w i))) as -> by lia.
        rewrite list_lookup_middle in Hk by done. injection Hk as ->.
        exists i. split; [lia|]. split; [|done].
        unfold emits. fold prefix.
        by rewrite (analyze_prefix_S _ _ _ Hev).
Qed.

Lemma analyze_prefix_all (P : loop_state -> Prop) w :
  P (initial_state w) ->
  (forall i ev st,
     mqtt_events !! i = Some ev -> st = prefix w i -> P st ->
     P (step st (i, ev))) ->
  forall n, P (prefix w n).
Proof.
  intros H0 Hstep n.
  destruct (decide (n <= length mqtt_events)%nat) as [Hn|Hn].
  - by apply (analyze_prefix_ind (fun _ => P)).
  - rewrite analyze_prefix_past by lia.
    by apply (analyze_prefix_ind (fun _ => P)).
Qed.

(** The tracker holds the completion time of the newest row, and every
    row carries the comparison of its 'true' time with the completion
    time of the row before it. *)
Lemma overlap_invariant w n :
  let st := prefix w n in
  last_transfer_completion_time st
    = ftp_completion_time <$> last (analysis_results st) /\
  (forall r, analysis_results st !! 0%nat = Some r ->
             overlapped_with_previous_transfer r = false) /\
  (forall k rp r,
     analysis_results st !! k = Some rp ->
     analysis_results st !! S k = Some r ->
     overlapped_with_previous_transfer r
       = (mqtt_true_time r <? ftp_completion_time rp)).
Proof.
  apply (analyze_prefix_all
    (fun st =>
       last_transfer_completion_time st
         = ftp_completion_time <$> last (analysis_results st) /\
       (forall r, analysis_results st !! 0%nat = Some r ->
                  overlapped_with_previous_transfer r = false) /\
       (forall k rp r,
          analysis_results st !! k = Some rp ->
          analysis_results st !! S k = Some r ->
          overlapped_with_previous_transfer r
            = (mqtt_true_time r <? ftp_completion_time rp)))).
  - simpl. split; [done|]. split; intros *; rewrite ?lookup_nil; done.
  - intros i ev st Hev _ (Hlast & Hfirst & Hchain).
    destruct (analyze_step_outcome st i ev) as [ | |s c Hty Hs Hc];
      [done | done |]. simpl.
    set (rs := analysis_results st) in *.
    split; [by rewrite last_snoc|]. split.
    + intros r H0. destruct rs as [|r0 rs'] eqn:Hrs.
      * simpl in H0. injection H0 as <-. simpl. by rewrite Hlast.
      * simpl in H0. apply Hfirst. done.
    + intros k rp r Hk HSk.
      pose proof (lookup_lt_Some _ _ _ HSk) as Hlt.
      rewrite length_app in Hlt. simpl in Hlt.
      destruct (decide (S k < length rs)%nat) as [Hin|Hout].
      * rewrite lookup_app_l in Hk by lia.
        rewrite lookup_app_l in HSk by lia. by eapply Hchain.
      * assert (S k = length rs) as Hlen by lia.
        rewrite lookup_app_l in Hk by lia.
        rewrite Hlen, list_lookup_middle in HSk by done.
        injection HSk as <-. simpl.
        rewrite Hlast, last_lookup, <- Hlen. simpl. by rewrite Hk.
Qed.

(** There are never more rows than 'true' messages seen so far. *)
Lemma results_bounded w n :
  (n <= length mqtt_events)%nat ->
  (length (analysis_results (prefix w n))
   <= count_true (take n mqtt_events))%nat.
Proof.
  apply (analyze_prefix_ind
    (fun n st => (length (analysis_results st)
                  <= count_true (take n mqtt_events))%nat)).
  - simpl. lia.
  - intros i ev st Hev _ IH.
    rewrite (take_S_r _ _ _ Hev). unfold count_true in *.
    rewrite List.filter_app, length_app.
    destruct (analyze_step_outcome st i ev) as [ | |s c Hty Hs Hc].
    + lia.
    + simpl. lia.
    + simpl. rewrite length_app. simpl.
      apply String.eqb_eq in Hty. rewrite Hty. simpl. lia.
Qed.

(** The rows and the tracker do not depend on the world. *)
Lemma fold_world_irrelevant (l : list (nat * mqtt_event)) st1 st2 :
  analysis_results st1 = analysis_results st2 ->
  last_transfer_completion_time st1 = last_transfer_completion_time st2 ->
  analysis_results (fold_left step l st1)
    = analysis_results (fold_left step l st2) /\
  last_transfer_completion_time (fold_left step l st1)
    = last_transfer_completion_time (fold_left step l st2).
Proof.
  revert st1 st2. induction l as [|[i ev] l IH]; intros st1 st2 Hr Hl.
  - done.
  - simpl. apply IH.
    + unfold step, analyze_step.
      destruct (String.eqb _ _); [|done].
      destruct (head _) as [s|]; [|done].
      destruct (find_completion _ _); simpl; congruence.
    + unfold step, analyze_step.
      destruct (String.eqb _ _); [|done].
      destruct (head _) as [s|]; [|done].
      destruct (find_completion _ _); simpl; congruence.
Qed.

Lemma prefix_world_irrelevant w1 w2 n :
  analysis_results (prefix w1 n) = analysis_results (prefix w2 n).
Proof.
  unfold prefix, analyze_prefix. by apply fold_world_irrelevant.
Qed.

End Correlation.

(** ** Rows and the iterations that append them *)

Lemma total_seconds_le (a b : timedelta) :
  a <= b -> (total_seconds a <= total_seconds b)%Q.
Proof. intros H. unfold Qle, total_seconds. simpl. lia. Qed.

Lemma total_seconds_nonneg (a : timedelta) :
  0 <= a -> (0 <= total_seconds a)%Q.
Proof. intros H. unfold Qle, total_seconds. simpl. lia. Qed.

Lemma total_seconds_pos (a : timedelta) :
  0 < a -> (0 < total_seconds a)%Q.
Proof. intros H. unfold Qlt, total_seconds. simpl. lia. Qed.

(** Every row of the result was appended by an iteration of the loop. *)
Lemma analyze_transfers_emitted mqtt_events ftp_events
    time_tolerance_stor time_tolerance_seconds_conn w k r :
  (analyze_transfers mqtt_events ftp_events time_tolerance_stor
     time_tolerance_seconds_conn w).1 !! k = Some r ->
  exists i,
    emits mqtt_events ftp_events time_tolerance_stor time_tolerance_seconds_conn
      w i r /\
    length (analysis_results
              (analyze_prefix mqtt_events ftp_events time_tolerance_stor
                 time_tolerance_seconds_conn w i)) = k.
Proof.
  rewrite analyze_transfers_prefix. simpl. intros Hk.
  destruct (results_emitted mqtt_events ftp_events time_tolerance_stor
              time_tolerance_seconds_conn w (length mqtt_events) (le_n _) k r Hk)
    as (i & _ & Hem & Hlen).
  by exists i.
Qed.

(** The shape of a row: the message, the STOR and the completion it was
    built from. *)
Lemma emitted_row mqtt_events ftp_events time_tolerance_stor
    time_tolerance_seconds_conn w i r :
  emits mqtt_events ftp_events time_tolerance_stor time_tolerance_seconds_conn
    w i r ->
  exists ev s c last_completion,
    mqtt_events !! i = Some ev /\ mqtt_type ev = "true" /\
    first_such (stor_in_window (mqtt_timestamp ev) time_tolerance_stor)
      ftp_events s /\
    first_such (completion_after s) ftp_events c /\
    r = make_transfer mqtt_events ftp_events time_tolerance_seconds_conn i
          (mqtt_timestamp ev) s c last_completion.
Proof.
  intros (ev & s & c & Hev & Hty & Hs & Hc & -> & _)%emits_inv.
  eexists ev, s, c, _. repeat split; try done.
  - by apply found_stor_first.
  - by apply found_completion_first.
Qed.

(** ** Start match *)

Lemma prefix_results_step mqtt_events ftp_events time_tolerance_stor
    time_tolerance_seconds_conn w i :
  let state :=
    analyze_prefix mqtt_events ftp_events time_tolerance_stor
      time_tolerance_seconds_conn w in
  analysis_results (state (S i)) = analysis_results (state i) \/
  exists r,
    analysis_results (state (S i)) = analysis_results (state i) ++ [r].
Proof.
  simpl. destruct (mqtt_events !! i) as [ev|] eqn:Hev.
  - rewrite (analyze_prefix_S _ _ _ _ _ _ _ Hev). apply step_results.
  - apply lookup_ge_None in Hev. left.
    by rewrite (analyze_prefix_past _ _ _ _ _ (S i)),
               (analyze_prefix_past _ _ _ _ _ i) by lia.
Qed.

(** Rows once appended stay in the list. *)
Lemma prefix_results_grow mqtt_events ftp_events time_tolerance_stor
    time_tolerance_seconds_conn w n m :
  (n <= m)%nat ->
  exists more,
    analysis_results
      (analyze_prefix mqtt_events ftp_events time_tolerance_stor
         time_tolerance_seconds_conn w m)
    = analysis_results
        (analyze_prefix mqtt_events ftp_events time_tolerance_stor
           time_tolerance_seconds_conn w n) ++ more.
Proof.
  induction 1 as [|m _ [more IH]]; [exists []; by rewrite app_nil_r|].
  destruct (prefix_results_step mqtt_events ftp_events
              time_tolerance_stor time_tolerance_seconds_conn w m)
    as [->|[r ->]].
  - by exists more.
  - exists (more ++ [r]). by rewrite IH, app_assoc.
Qed.

Lemma first_such_unique {A} (P : A -> Prop) (l : list A) (x y : A) :
  first_such P l x -> first_such P l y -> x = y.
Proof.
  intros (j & Hj & Hx & Hminx)%first_such_lookup
         (k & Hk & Hy & Hminy)%first_such_lookup.
  pose proof (Hminx k y Hk Hy). pose proof (Hminy j x Hj Hx).
  assert (j = k) as -> by lia. congruence.
Qed.

Lemma first_such_find {A} (f : A -> bool) (P : A -> Prop)
    (l : list A) (x : A) :
  (forall y, f y = true <-> P y) ->
  first_such P l x -> List.find f l = Some x.
Proof.
  intros HfP Hx. destruct (List.find f l) as [y|] eqn:Hfind.
  - apply find_first in Hfind. f_equal.
    eapply first_such_unique; [|exact Hx].
    eapply first_such_iff; [|exact Hfind]. exact HfP.
  - rewrite find_none_iff in Hfind.
    destruct Hx as (pre & post & -> & Hx & _).
    apply HfP in Hx. rewrite Hfind in Hx; [discriminate Hx|].
    apply list_elem_of_lookup. exists (length pre).
    by apply list_lookup_middle.
Qed.

(** The first STOR of the list inside the window is the one found, and
    the first COMPLETION after it is the one found. *)
Lemma found_stor_of_first ftp_events signal_on tolerance s :
  first_such (stor_in_window signal_on tolerance) ftp_events s ->
  head (relevant_stors ftp_events signal_on (signal_on + tolerance))
    = Some s.
Proof.
  intros H. unfold relevant_stors. rewrite head_filter_find.
  eapply first_such_find; [|exact H]. intros y. apply stor_test_spec.
Qed.

Lemma found_completion_of_first ftp_events s c :
  first_such (completion_after s) ftp_events c ->
  find_completion ftp_events s = Some c.
Proof.
  intros H. unfold find_completion.
  eapply first_such_find; [|exact H].
  intros y. apply completion_test_spec.
Qed.

Lemma found_completion_none ftp_events s :
  (forall e, e ∈ ftp_events -> ~ completion_after s e) ->
  find_completion ftp_events s = None.
Proof.
  intros Hno. unfold find_completion. apply find_none_iff.
  intros y Hy. apply not_true_is_false. rewrite completion_test_spec.
  by apply Hno.
Qed.

(** An iteration that finds a STOR and a COMPLETION appends their row;
    one that finds a STOR and no COMPLETION appends nothing. *)
Lemma analyze_step_found mqtt_events ftp_events time_tolerance_stor
    time_tolerance_seconds_conn st i ev s :
  mqtt_type ev = "true" ->
  head (relevant_stors ftp_events (mqtt_timestamp ev)
          (mqtt_timestamp ev + time_tolerance_stor)) = Some s ->
  analysis_results
    (analyze_step mqtt_events ftp_events time_tolerance_stor
       time_tolerance_seconds_conn st (i, ev))
  = match find_completion ftp_events s with
    | Some c =>
        analysis_results st ++
        [make_transfer mqtt_events ftp_events time_tolerance_seconds_conn
           i (mqtt_timestamp ev) s c (last_transfer_completion_time st)]
    | None => analysis_results st
    end.
Proof.
  intros Hty Hs.
  destruct (analyze_step_outcome mqtt_events ftp_events
              time_tolerance_stor time_tolerance_seconds_conn st i ev)
    as [Hno|_ Hskip|s' c' _ Hs' Hc'].
  - done.
  - by rewrite (Hskip s Hs).
  - rewrite Hs in Hs'. injection Hs' as <-. by rewrite Hc'.
Qed.

(** C1 (start match). When the loop reaches a 'true' message, it appends
    nothing if no STOR lies in the closed window from the message's time
    to that time plus the tolerance; it appends at most one row, and
    whenever it appends a row the row's STOR is the first event of the
    FTP list that is a STOR inside that window. Conversely, when a STOR
    lies in the window, the first such STOR of the list is the match:
    the row of that STOR is appended as soon as the list has a
    COMPLETION later than it, and nothing is appended when it has none.
    The same holds of the list that [analyze_transfers] returns: each
    of its rows carries the first STOR inside the window of a 'true'
    message; every 'true' message with a STOR in its window and a
    COMPLETION after the first such STOR has its row in the list, with
    that STOR; and no row belongs to a 'true' message without a STOR in
    its window. Both ends of the window count: with a window of ten
    seconds a STOR exactly ten seconds after the message is matched, a
    STOR one millisecond later is not, and a STOR at the very time of
    the message is matched. *)
Theorem start_match_first_in_window :
  (forall mqtt_events ftp_events time_tolerance_stor time_tolerance_seconds_conn
          w i ev,
     mqtt_events !! i = Some ev ->
     mqtt_type ev = "true" ->
     let before :=
       analysis_results
         (analyze_prefix mqtt_events ftp_events time_tolerance_stor
            time_tolerance_seconds_conn w i) in
     let after :=
       analysis_results
         (analyze_prefix mqtt_events ftp_events time_tolerance_stor
            time_tolerance_seconds_conn w (S i)) in
     ((forall e, e ∈ ftp_events ->
                 ~ stor_in_window (mqtt_timestamp ev)
                     time_tolerance_stor e) ->
      after = before) /\
     (after = before \/ exists r, after = before ++ [r]) /\
     (forall r,
        after = before ++ [r] ->
        exists s,
          first_such
            (stor_in_window (mqtt_timestamp ev) time_tolerance_stor)
            ftp_events s /\
          mqtt_true_time r = mqtt_timestamp ev /\
          ftp_stor_time r = ftp_timestamp s /\
          filename r = ftp_filename s) /\
     (forall s,
        first_such
          (stor_in_window (mqtt_timestamp ev) time_tolerance_stor)
          ftp_events s ->
        (forall c,
           first_such (completion_after s) ftp_events c ->
           exists r,
             after = before ++ [r] /\
             mqtt_true_time r = mqtt_timestamp ev /\
             ftp_stor_time r = ftp_timestamp s /\
             filename r = ftp_filename s /\
             ftp_completion_time r = ftp_timestamp c) /\
        ((forall e, e ∈ ftp_events -> ~ completion_after s e) ->
         after = before))) /\
  (forall mqtt_events ftp_events time_tolerance_stor
          time_tolerance_seconds_conn w,
     let rows :=
       (analyze_transfers mqtt_events ftp_events time_tolerance_stor
          time_tolerance_seconds_conn w).1 in
     (forall r,
        r ∈ rows ->
        exists i ev s,
          mqtt_events !! i = Some ev /\ mqtt_type ev = "true" /\
          first_such
            (stor_in_window (mqtt_timestamp ev) time_tolerance_stor)
            ftp_events s /\
          mqtt_true_time r = mqtt_timestamp ev /\
          ftp_stor_time r = ftp_timestamp s /\
          filename r = ftp_filename s) /\
     (forall i ev s c,
        mqtt_events !! i = Some ev -> mqtt_type ev = "true" ->
        first_such
          (stor_in_window (mqtt_timestamp ev) time_tolerance_stor)
          ftp_events s ->
        first_such (completion_after s) ftp_events c ->
        exists r,
          r ∈ rows /\
          mqtt_true_time r = mqtt_timestamp ev /\
          ftp_stor_time r = ftp_timestamp s /\
          filename r = ftp_filename s /\
          ftp_completion_time r = ftp_timestamp c) /\
     (forall i ev,
        mqtt_events !! i = Some ev -> mqtt_type ev = "true" ->
        (forall e, e ∈ ftp_events ->
                   ~ stor_in_window (mqtt_timestamp ev)
                       time_tolerance_stor e) ->
        forall r, r ∈ rows -> mqtt_true_time r <> mqtt_timestamp ev)) /\
  (forall T name w,
     map ftp_stor_time
       (analyze_transfers
          [MqttEvent T "true"]
          [FtpEvent "STOR" (T + 10000000) name;
           FtpEvent "COMPLETION" (T + 11000000) None]
          10000000 30%Q w).1
     = [T + 10000000]) /\
  (forall T name w,
     (analyze_transfers
        [MqttEvent T "true"]
        [FtpEvent "STOR" (T + 10001000) name;
         FtpEvent "COMPLETION" (T + 11000000) None]
        10000000 30%Q w).1
     = []) /\
  (forall T name w,
     map ftp_stor_time
       (analyze_transfers
          [MqttEvent T "true"]
          [FtpEvent "STOR" T name;
           FtpEvent "COMPLETION" (T + 1000000) None]
          10000000 30%Q w).1
     = [T]).
Proof.
  assert (Hstep : forall mqtt_events ftp_events tol_stor tol_conn
                         w i ev s c,
    mqtt_events !! i = Some ev -> mqtt_type ev = "true" ->
    first_such (stor_in_window (mqtt_timestamp ev) tol_stor)
      ftp_events s ->
    first_such (completion_after s) ftp_events c ->
    exists r,
      analysis_results
        (analyze_prefix mqtt_events ftp_events tol_stor tol_conn w (S i))
      = analysis_results
          (analyze_prefix mqtt_events ftp_events tol_stor tol_conn w i)
        ++ [r] /\
      mqtt_true_time r = mqtt_timestamp ev /\
      ftp_stor_time r = ftp_timestamp s /\
      filename r = ftp_filename s /\
      ftp_completion_time r = ftp_timestamp c).
  { intros mqtt_events ftp_events tol_stor tol_conn w i ev s c
      Hev Hty Hs Hc.
    rewrite (analyze_prefix_S _ _ _ _ _ _ _ Hev).
    rewrite (analyze_step_found _ _ _ _ _ _ _ s Hty
               (found_stor_of_first _ _ _ _ Hs)).
    rewrite (found_completion_of_first _ _ _ Hc).
    eexists. split; [reflexivity|]. done. }
  assert (Hrows : forall mqtt_events ftp_events tol_stor tol_conn w r,
    r ∈ (analyze_transfers mqtt_events ftp_events tol_stor tol_conn w).1 ->
    exists i ev s,
      mqtt_events !! i = Some ev /\ mqtt_type ev = "true" /\
      first_such (stor_in_window (mqtt_timestamp ev) tol_stor)
        ftp_events s /\
      mqtt_true_time r = mqtt_timestamp ev /\
      ftp_stor_time r = ftp_timestamp s /\
      filename r = ftp_filename s).
  { intros mqtt_events ftp_events tol_stor tol_conn w r
      [k Hk]%list_elem_of_lookup.
    apply analyze_transfers_emitted in Hk as (i & Hem & _).
    apply emitted_row in Hem as (ev & s & c & lc & Hev & Hty & Hs & _ & ->).
    by exists i, ev, s. }
  split; [|split; [|split; [|split]]].
  - intros mqtt_events ftp_events tol_stor tol_conn w i ev Hev Hty
      before after.
    split; [|split; [|split]].
    + subst before after. rewrite (analyze_prefix_S _ _ _ _ _ _ _ Hev).
      intros Hno. apply found_stor_none in Hno.
      destruct (analyze_step_outcome mqtt_events ftp_events
                  tol_stor tol_conn
                  (analyze_prefix mqtt_events ftp_events tol_stor
                     tol_conn w i) i ev) as [ | |s c _ Hs Hc];
        [done | done | congruence].
    + subst before after. rewrite (analyze_prefix_S _ _ _ _ _ _ _ Hev).
      apply step_results.
    + subst before after. rewrite (analyze_prefix_S _ _ _ _ _ _ _ Hev).
      intros r Hr.
      destruct (analyze_step_outcome mqtt_events ftp_events
                  tol_stor tol_conn
                  (analyze_prefix mqtt_events ftp_events tol_stor
                     tol_conn w i) i ev) as [ | |s c _ Hs Hc].
      * by apply app_singleton_neq in Hr.
      * by apply app_singleton_neq in Hr.
      * simpl in Hr. apply app_inv_head in Hr. injection Hr as <-.
        exists s. split; [by apply found_stor_first|done].
    + intros s Hs. split.
      * intros c Hc. subst before after. by eapply Hstep.
      * intros Hno. subst before after.
        rewrite (analyze_prefix_S _ _ _ _ _ _ _ Hev).
        rewrite (analyze_step_found _ _ _ _ _ _ _ s Hty
                   (found_stor_of_first _ _ _ _ Hs)).
        by rewrite (found_completion_none _ _ Hno).
  - intros mqtt_events ftp_events tol_stor tol_conn w rows.
    split; [|split].
    + intros r Hr. by eapply Hrows.
    + intros i ev s c Hev Hty Hs Hc.
      destruct (Hstep mqtt_events ftp_events tol_stor tol_conn w
                  i ev s c Hev Hty Hs Hc) as (r & Hr & Hfields).
      exists r. split; [|exact Hfields].
      subst rows. rewrite analyze_transfers_prefix. simpl.
      destruct (prefix_results_grow mqtt_events ftp_events tol_stor
                  tol_conn w (S i) (length mqtt_events)) as [more ->].
      { by apply lookup_lt_Some in Hev. }
      rewrite Hr. apply list_elem_of_lookup.
      exists (length (analysis_results
                (analyze_prefix mqtt_events ftp_events tol_stor
                   tol_conn w i))).
      rewrite <- app_assoc. by apply list_lookup_middle.
    + intros i ev Hev Hty Hno r Hr Htime.
      destruct (Hrows _ _ _ _ _ _ Hr)
        as (i' & ev' & s & _ & _ & Hs & Htrue & _).
      destruct Hs as (pre & post & -> & Hwin & _).
      apply (Hno s).
      * apply list_elem_of_lookup. exists (length pre).
        by apply list_lookup_middle.
      * by rewrite <- Htime, Htrue.
  - intros T name w. unfold analyze_transfers, enumerate. simpl.
    unfold relevant_stors. simpl.
    assert ((T <=? T + 10000000) = true) as -> by (apply Z.leb_le; lia).
    assert ((T + 10000000 <=? T + 10000000) = true) as ->
      by (apply Z.leb_le; lia).
    simpl.
    assert ((T + 10000000 <? T + 10000000) = false) as ->
      by (apply Z.ltb_ge; lia).
    assert ((T + 10000000 <? T + 11000000) = true) as ->
      by (apply Z.ltb_lt; lia).
    reflexivity.
  - intros T name w. unfold analyze_transfers, enumerate. simpl.
    unfold relevant_stors. simpl.
    assert ((T + 10001000 <=? T + 10000000) = false) as ->
      by (apply Z.leb_gt; lia).
    rewrite andb_false_r. reflexivity.
  - intros T name w. unfold analyze_transfers, enumerate. simpl.
    unfold relevant_stors. simpl.
    assert ((T <=? T) = true) as -> by (apply Z.leb_le; lia).
    assert ((T <=? T + 10000000) = true) as -> by (apply Z.leb_le; lia).
    simpl.
    assert ((T <? T) = false) as -> by (apply Z.ltb_ge; lia).
    assert ((T <? T + 1000000) = true) as -> by (apply Z.ltb_lt; lia).
    reflexivity.
Qed.

Lemma start_match_first_in_window_witness :
  (exists s,
     first_such (stor_in_window 0 10000000) scenario_ftp s /\
     mqtt_true_time scenario_first = 0 /\
     ftp_stor_time scenario_first = ftp_timestamp s /\
     filename scenario_first = ftp_filename s) /\
  (exists r,
     r ∈ (analyze_transfers scenario_mqtt scenario_ftp
            10000000 30%Q quiet_world).1 /\
     mqtt_true_time r = 4500000 /\
     ftp_stor_time r = 6000000 /\
     filename r = Some "b.jpg" /\
     ftp_completion_time r = 8000000).
Proof.
  destruct start_match_first_in_window as (Hiter & Hrows & _).
  split.
  - destruct (Hiter scenario_mqtt scenario_ftp 10000000 30%Q
                quiet_world 0%nat (MqttEvent 0 "true") eq_refl eq_refl)
      as (_ & _ & Hemit & _).
    exact (Hemit scenario_first eq_refl).
  - destruct (Hrows scenario_mqtt scenario_ftp 10000000 30%Q
                quiet_world) as (_ & Hmatched & _).
    apply (Hmatched 2%nat (MqttEvent 4500000 "true")
             (FtpEvent "STOR" 6000000 (Some "b.jpg"))
             (FtpEvent "COMPLETION" 8000000 None) eq_refl eq_refl).
    + apply found_stor_first. reflexivity.
    + apply found_completion_first. reflexivity.
Defined.

(** C6 (bounds). In every row of the result the time from the 'true'
    message to the STOR lies between zero and the start tolerance, and
    the time from the STOR to the completion is not negative; the two
    fields of the row that report them in seconds are these differences
    and obey the same bounds. *)
Theorem latency_and_duration_bounds
    mqtt_events ftp_events time_tolerance_stor time_tolerance_seconds_conn w r :
  r ∈ (analyze_transfers mqtt_events ftp_events time_tolerance_stor
         time_tolerance_seconds_conn w).1 ->
  0 <= ftp_stor_time r - mqtt_true_time r <= time_tolerance_stor /\
  0 <= ftp_completion_time r - ftp_stor_time r /\
  time_true_to_transfer_start_seconds r
    = total_seconds (ftp_stor_time r - mqtt_true_time r) /\
  transfer_duration_seconds r
    = total_seconds (ftp_completion_time r - ftp_stor_time r) /\
  (0 <= time_true_to_transfer_start_seconds r
     <= total_seconds time_tolerance_stor)%Q /\
  (0 <= transfer_duration_seconds r)%Q.
Proof.
  intros [k Hk]%list_elem_of_lookup.
  apply analyze_transfers_emitted in Hk as (i & Hem & _).
  apply emitted_row in Hem
    as (ev & s & c & lc & _ & _ & Hs & Hc & ->).
  destruct Hs as (_ & _ & _ & [_ Hwin] & _).
  destruct Hc as (_ & _ & _ & [_ Hafter] & _).
  simpl. repeat split; try lia.
  - apply total_seconds_nonneg. lia.
  - apply total_seconds_le. lia.
  - apply total_seconds_nonneg. lia.
Qed.

Lemma latency_and_duration_bounds_witness :
  0 <= ftp_stor_time scenario_first - mqtt_true_time scenario_first
    <= 10000000 /\
  0 <= ftp_completion_time scenario_first - ftp_stor_time scenario_first /\
  time_true_to_transfer_start_seconds scenario_first
    = total_seconds
        (ftp_stor_time scenario_first - mqtt_true_time scenario_first) /\
  transfer_duration_seconds scenario_first
    = total_seconds
        (ftp_completion_time scenario_first
         - ftp_stor_time scenario_first) /\
  (0 <= time_true_to_transfer_start_seconds scenario_first
     <= total_seconds 10000000%Z)%Q /\
  (0 <= transfer_duration_seconds scenario_first)%Q.
Proof.
  apply (latency_and_duration_bounds scenario_mqtt scenario_ftp
           10000000 30%Q quiet_world scenario_first).
  vm_compute. apply list_elem_of_here.
Defined.

(** C10 (strict completion ordering). The completion of every row is the
    first COMPLETION of the FTP list whose time is strictly greater than
    the time of the row's STOR, so the completion time of the row is
    strictly greater than its STOR time and its duration is strictly
    positive; when the FTP list is sorted by time, no COMPLETION later
    than the STOR is earlier than the one chosen. *)
Theorem completion_strictly_after_start
    mqtt_events ftp_events time_tolerance_stor time_tolerance_seconds_conn w r :
  r ∈ (analyze_transfers mqtt_events ftp_events time_tolerance_stor
         time_tolerance_seconds_conn w).1 ->
  exists s c,
    ftp_stor_time r = ftp_timestamp s /\
    ftp_completion_time r = ftp_timestamp c /\
    first_such (completion_after s) ftp_events c /\
    ftp_stor_time r < ftp_completion_time r /\
    (0 < transfer_duration_seconds r)%Q /\
    (ftp_sorted ftp_events ->
     forall e, e ∈ ftp_events -> completion_after s e ->
               ftp_timestamp c <= ftp_timestamp e).
Proof.
  intros [k Hk]%list_elem_of_lookup.
  apply analyze_transfers_emitted in Hk as (i & Hem & _).
  apply emitted_row in Hem
    as (ev & s & c & lc & _ & _ & _ & Hc & ->).
  exists s, c. simpl.
  pose proof Hc as (_ & _ & _ & [_ Hafter] & _).
  repeat split; try done.
  - apply total_seconds_pos. lia.
  - intros Hsorted e [n Hn]%list_elem_of_lookup He.
    apply first_such_lookup in Hc as (j & Hj & _ & Hmin).
    eapply (Hsorted j n); [|done..]. by eapply Hmin.
Qed.

Lemma scenario_ftp_sorted : ftp_sorted scenario_ftp.
Proof.
  intros j k e e' Hjk Hj Hk.
  destruct j as [|[|[|[|j]]]]; destruct k as [|[|[|[|k]]]];
    simpl in Hj, Hk; simplify_eq; simpl; lia.
Qed.

Lemma completion_strictly_after_start_witness :
  exists s c,
    ftp_stor_time scenario_second = ftp_timestamp s /\
    ftp_completion_time scenario_second = ftp_timestamp c /\
    first_such (completion_after s) scenario_ftp c /\
    ftp_stor_time scenario_second < ftp_completion_time scenario_second /\
    (0 < transfer_duration_seconds scenario_second)%Q /\
    (forall e, e ∈ scenario_ftp -> completion_after s e ->
               ftp_timestamp c <= ftp_timestamp e).
Proof.
  destruct (completion_strictly_after_start scenario_mqtt scenario_ftp
              10000000 30%Q quiet_world scenario_second)
    as (s & c & H1 & H2 & H3 & H4 & H5 & H6).
  - vm_compute. apply list_elem_of_further, list_elem_of_here.
  - exists s, c.
    exact (conj H1 (conj H2 (conj H3 (conj H4
             (conj H5 (H6 scenario_ftp_sorted)))))).
Defined.

(** ** Overlap with the 'false' message and with the previous transfer *)

(** C3 (false-signal overlap). For the row appended at index [i] of the
    message list, the recorded 'false' time is that of the first 'false'
    message after index [i], whatever the matched transfer is; the row is
    flagged as completed after 'false' exactly when such a message exists
    and the completion is strictly later, in which case the overlap is
    the completion time minus the 'false' time, and it is unset
    otherwise. Every row of the result is appended at some index. In the
    worked example ('true' at 0 s, STOR at 2 s, 'false' at 4 s,
    completion at 5 s) the only row has latency 2, duration 3, the flag
    set and an overlap of 1. *)
Theorem false_signal_overlap :
  (forall mqtt_events ftp_events time_tolerance_stor time_tolerance_seconds_conn
          w i r,
     emits mqtt_events ftp_events time_tolerance_stor
       time_tolerance_seconds_conn w i r ->
     first_false_after mqtt_events i (next_false_mqtt_time r) /\
     (transfer_completed_after_false_signal r = true <->
      exists off, next_false_mqtt_time r = Some off /\
                  off < ftp_completion_time r) /\
     (forall off,
        transfer_completed_after_false_signal r = true ->
        next_false_mqtt_time r = Some off ->
        time_overlap_after_false_signal_seconds r
          = Some (total_seconds (ftp_completion_time r - off))) /\
     (transfer_completed_after_false_signal r = false ->
      time_overlap_after_false_signal_seconds r = None)) /\
  (forall mqtt_events ftp_events time_tolerance_stor time_tolerance_seconds_conn
          w r,
     r ∈ (analyze_transfers mqtt_events ftp_events time_tolerance_stor
            time_tolerance_seconds_conn w).1 ->
     exists i, emits mqtt_events ftp_events time_tolerance_stor
                 time_tolerance_seconds_conn w i r) /\
  (forall w,
     exists r,
       (analyze_transfers
          [MqttEvent 0 "true"; MqttEvent 4000000 "false"]
          [FtpEvent "STOR" 2000000 (Some "a.jpg");
           FtpEvent "COMPLETION" 5000000 None]
          10000000 30%Q w).1 = [r] /\
       (time_true_to_transfer_start_seconds r == 2)%Q /\
       (transfer_duration_seconds r == 3)%Q /\
       transfer_completed_after_false_signal r = true /\
       exists overlap,
         time_overlap_after_false_signal_seconds r = Some overlap /\
         (overlap == 1)%Q).
Proof.
  split; [|split].
  - intros mqtt_events ftp_events tol_stor tol_conn w i r Hem.
    apply emitted_row in Hem as (ev & s & c & lc & _ & _ & _ & _ & ->).
    simpl. pose proof (find_next_false_spec mqtt_events i) as Hspec.
    destruct (find_next_false mqtt_events i) as [off|]; simpl.
    + split; [done|]. split; [|split].
      * rewrite Z.ltb_lt. split; [eauto|]. by intros (? & [= <-] & ?).
      * intros off' -> [= <-]. done.
      * by intros ->.
    + split; [done|]. split; [|split]; try done.
      split; [done|]. by intros (? & [=] & _).
  - intros mqtt_events ftp_events tol_stor tol_conn w r
      [k Hk]%list_elem_of_lookup.
    apply analyze_transfers_emitted in Hk as (i & Hem & _). eauto.
  - intros w. eexists. split; [reflexivity|]. simpl.
    repeat split. eexists. split; [reflexivity|]. reflexivity.
Qed.

Lemma false_signal_overlap_witness :
  first_false_after scenario_mqtt 0 (Some 4000000) /\
  time_overlap_after_false_signal_seconds scenario_first
    = Some (total_seconds (5000000 - 4000000)).
Proof.
  destruct false_signal_overlap as [H _].
  destruct (H scenario_mqtt scenario_ftp 10000000 30%Q quiet_world
              0%nat scenario_first eq_refl) as (Hoff & _ & Hov & _).
  split; [exact Hoff|]. exact (Hov 4000000 eq_refl eq_refl).
Defined.

(** C2 (previous-transfer overlap). The first row of the result is never
    marked as overlapping, and every later row is marked exactly when its
    'true' time is strictly earlier than the completion time of the row
    just before it in the result. After any number of iterations the
    tracker holds the completion time of the newest row (nothing while
    there is no row), and an iteration that appends no row leaves the
    tracker as it was. In the worked example a second 'true' message at
    4.5 s, before the first completion at 5 s, yields a second row that
    is marked. *)
Theorem previous_transfer_overlap :
  (forall mqtt_events ftp_events time_tolerance_stor time_tolerance_seconds_conn
          w,
     let results :=
       (analyze_transfers mqtt_events ftp_events time_tolerance_stor
          time_tolerance_seconds_conn w).1 in
     let state :=
       analyze_prefix mqtt_events ftp_events time_tolerance_stor
         time_tolerance_seconds_conn w in
     (forall r, results !! 0%nat = Some r ->
                overlapped_with_previous_transfer r = false) /\
     (forall k previous r,
        results !! k = Some previous -> results !! S k = Some r ->
        (overlapped_with_previous_transfer r = true <->
         mqtt_true_time r < ftp_completion_time previous)) /\
     (forall n,
        last_transfer_completion_time (state n)
          = ftp_completion_time <$> last (analysis_results (state n))) /\
     (forall i,
        analysis_results (state (S i)) = analysis_results (state i) ->
        last_transfer_completion_time (state (S i))
          = last_transfer_completion_time (state i))) /\
  (analyze_transfers scenario_mqtt scenario_ftp 10000000 30%Q
     quiet_world).1 = [scenario_first; scenario_second] /\
  overlapped_with_previous_transfer scenario_second = true.
Proof.
  split; [|split; reflexivity].
  intros mqtt_events ftp_events tol_stor tol_conn w results state.
  subst results state. rewrite analyze_transfers_prefix. simpl.
  destruct (overlap_invariant mqtt_events ftp_events tol_stor tol_conn
              w (length mqtt_events)) as (_ & Hfirst & Hchain).
  split; [exact Hfirst|]. split; [|split].
  - intros k previous r Hk HSk.
    rewrite (Hchain k previous r Hk HSk). apply Z.ltb_lt.
  - intros n.
    apply (overlap_invariant mqtt_events ftp_events tol_stor tol_conn
             w n).
  - intros i Heq.
    destruct (overlap_invariant mqtt_events ftp_events tol_stor tol_conn
                w i) as (-> & _).
    destruct (overlap_invariant mqtt_events ftp_events tol_stor tol_conn
                w (S i)) as (-> & _).
    by rewrite Heq.
Qed.

Lemma previous_transfer_overlap_witness :
  overlapped_with_previous_transfer scenario_second = true <->
  mqtt_true_time scenario_second < ftp_completion_time scenario_first.
Proof.
  destruct previous_transfer_overlap as [H _].
  destruct (H scenario_mqtt scenario_ftp 10000000 30%Q quiet_world)
    as (_ & Hchain & _).
  exact (Hchain 0%nat scenario_first scenario_second eq_refl eq_refl).
Defined.

(** C7 (at most one row per 'true' message). An iteration of the loop
    leaves the rows as they are or appends a single row, it appends
    nothing for a message that is not 'true', and so the result is never
    longer than the number of 'true' messages. *)
Theorem at_most_one_transfer_per_true
    mqtt_events ftp_events time_tolerance_stor time_tolerance_seconds_conn w :
  let state :=
    analyze_prefix mqtt_events ftp_events time_tolerance_stor
      time_tolerance_seconds_conn w in
  (length (analyze_transfers mqtt_events ftp_events time_tolerance_stor
             time_tolerance_seconds_conn w).1
   <= count_true mqtt_events)%nat /\
  (forall i,
     analysis_results (state (S i)) = analysis_results (state i) \/
     exists r,
       analysis_results (state (S i)) = analysis_results (state i) ++ [r]) /\
  (forall i ev,
     mqtt_events !! i = Some ev -> mqtt_type ev <> "true" ->
     analysis_results (state (S i)) = analysis_results (state i)).
Proof.
  intros state. subst state. split; [|split].
  - rewrite analyze_transfers_prefix. simpl.
    pose proof (results_bounded mqtt_events ftp_events
                  time_tolerance_stor time_tolerance_seconds_conn w
                  (length mqtt_events) (le_n _)) as H.
    by rewrite firstn_all in H.
  - intros i. destruct (mqtt_events !! i) as [ev|] eqn:Hev.
    + rewrite (analyze_prefix_S _ _ _ _ _ _ _ Hev). apply step_results.
    + apply lookup_ge_None in Hev. left.
      by rewrite (analyze_prefix_past _ _ _ _ _ (S i)),
                 (analyze_prefix_past _ _ _ _ _ i) by lia.
  - intros i ev Hev Hty.
    rewrite (analyze_prefix_S _ _ _ _ _ _ _ Hev).
    destruct (analyze_step_outcome mqtt_events ftp_events
                time_tolerance_stor time_tolerance_seconds_conn
                (analyze_prefix mqtt_events ftp_events
                   time_tolerance_stor time_tolerance_seconds_conn w i) i ev);
      done.
Qed.

Lemma at_most_one_transfer_per_true_witness :
  (length [scenario_first; scenario_second]
   <= count_true scenario_mqtt)%nat /\
  analysis_results
    (analyze_prefix scenario_mqtt scenario_ftp 10000000 30%Q
       quiet_world 2)
  = analysis_results
      (analyze_prefix scenario_mqtt scenario_ftp 10000000 30%Q
         quiet_world 1).
Proof.
  destruct (at_most_one_transfer_per_true scenario_mqtt scenario_ftp
              10000000 30%Q quiet_world) as (Hlen & _ & Hskip).
  split; [exact Hlen|].
  apply (Hskip 1%nat (MqttEvent 4000000 "false") eq_refl).
  discriminate.
Defined.

(** ** The report step *)

Lemma analyze_transfers_world_irrelevant mqtt_events ftp_events
    time_tolerance_stor time_tolerance_seconds_conn w1 w2 :
  (analyze_transfers mqtt_events ftp_events time_tolerance_stor
     time_tolerance_seconds_conn w1).1
  = (analyze_transfers mqtt_events ftp_events time_tolerance_stor
       time_tolerance_seconds_conn w2).1.
Proof.
  rewrite !analyze_transfers_prefix. simpl.
  apply prefix_world_irrelevant.
Qed.

Lemma len_cons_nonzero {A} (x : A) (l : list A) :
  Qeq_bool (len (x :: l)) 0 = false.
Proof.
  destruct (Qeq_bool _ _) eqn:E; [|done].
  apply Qeq_bool_eq in E. unfold Qeq, len in E.
  rewrite length_cons in E. simpl in E. lia.
Qed.

Lemma py_div_len {A} (a : Q) (x : A) (l : list A) :
  py_div a (len (x :: l)) = inr (a / len (x :: l))%Q.
Proof. unfold py_div. by rewrite len_cons_nonzero. Qed.

Lemma format_float_4f (x : Q) : format_float ".4f" x = inr x.
Proof. reflexivity. Qed.

Lemma format_float_2f_blank (x : Q) :
  format_float ".2f " x = inl ValueError.
Proof. reflexivity. Qed.

Lemma summarize_nil (overlaps : list Q) : summarize [] overlaps = inr None.
Proof. done. Qed.

(** For rows that are not empty the summary gets through its averages,
    minima and maxima and through the division of line 302, none of
    which divides by zero or takes the minimum of an empty list, and
    ends in the [ValueError] of the format spec of that line. *)
Lemma summarize_cons_raises (r : transfer) (rs : list transfer)
    (overlaps : list Q) :
  summarize (r :: rs) overlaps = inl ValueError.
Proof.
  unfold summarize. cbn [map]. rewrite !py_div_len.
  cbn [py_min py_max bind]. rewrite !format_float_4f. cbn [bind].
  by rewrite format_float_2f_blank.
Qed.

(** A flagged row that carries its overlap can be formatted. *)
Lemma collect_overlap_total (analysis_results : list transfer) :
  Forall (fun r => transfer_completed_after_false_signal r = true ->
                   is_Some (time_overlap_after_false_signal_seconds r))
         analysis_results ->
  exists overlaps,
    collect_overlap_after_false analysis_results = inr overlaps.
Proof.
  induction 1 as [|r rs Hr _ [os IH]]; [by eexists|].
  cbn [collect_overlap_after_false]. rewrite !format_float_4f.
  cbn [bind].
  destruct (transfer_completed_after_false_signal r); [|by eexists].
  destruct Hr as [v ->]; [done|].
  rewrite format_float_4f, IH. cbn [bind]. by eexists.
Qed.

Lemma make_transfer_overlap_set mqtt_events ftp_events
    time_tolerance_seconds_conn i t s c last_completion :
  let r := make_transfer mqtt_events ftp_events time_tolerance_seconds_conn
             i t s c last_completion in
  transfer_completed_after_false_signal r = true ->
  is_Some (time_overlap_after_false_signal_seconds r).
Proof.
  simpl. destruct (find_next_false mqtt_events i) as [off|]; [|done].
  intros ->. by eexists.
Qed.

Lemma generate_report_raises_of (now : Z) (r : transfer)
    (rs : list transfer) :
  Forall (fun r => transfer_completed_after_false_signal r = true ->
                   is_Some (time_overlap_after_false_signal_seconds r))
         (r :: rs) ->
  generate_report now (r :: rs) = inl ValueError.
Proof.
  intros Hrows. unfold generate_report.
  destruct (collect_overlap_total (r :: rs) Hrows) as [os ->].
  cbn [bind]. by rewrite summarize_cons_raises.
Qed.

(** The rows of the correlation can all be formatted. *)
Lemma analyze_transfers_overlap_set mqtt_events ftp_events
    time_tolerance_stor time_tolerance_seconds_conn w :
  Forall (fun r => transfer_completed_after_false_signal r = true ->
                   is_Some (time_overlap_after_false_signal_seconds r))
    (analyze_transfers mqtt_events ftp_events time_tolerance_stor
       time_tolerance_seconds_conn w).1.
Proof.
  apply Forall_forall. intros r [k Hk]%list_elem_of_lookup.
  apply analyze_transfers_emitted in Hk as (i & Hem & _).
  apply emitted_row in Hem as (ev & s & c & lc & _ & _ & _ & _ & ->).
  apply make_transfer_overlap_set.
Qed.

Lemma analyze_transfers_no_ftp mqtt_events time_tolerance_stor
    time_tolerance_seconds_conn w :
  (analyze_transfers mqtt_events [] time_tolerance_stor
     time_tolerance_seconds_conn w).1 = [].
Proof.
  rewrite analyze_transfers_prefix. simpl.
  apply (analyze_prefix_all mqtt_events [] time_tolerance_stor
           time_tolerance_seconds_conn (fun st => analysis_results st = [])).
  - done.
  - intros i ev st _ _ IH.
    destruct (analyze_step_outcome mqtt_events [] time_tolerance_stor
                time_tolerance_seconds_conn st i ev) as [ | |s c _ Hs _];
      [done | done | discriminate Hs].
Qed.

(** How [run_analysis] ends: without a report when the correlation has
    no row, and in the [ValueError] of line 302 when it has one. *)
Lemma run_analysis_outcome mqtt_events ftp_events w :
  (run_analysis mqtt_events ftp_events w).1 =
  match (analyze_transfers mqtt_events ftp_events 10000000 30%Q w).1 with
  | [] => inr None
  | _ :: _ => inl ValueError
  end.
Proof.
  unfold run_analysis.
  destruct mqtt_events as [|m ms]; [done|].
  destruct ftp_events as [|f fs].
  { by rewrite analyze_transfers_no_ftp. }
  set (w' := logging_info _ _ (setup_logging _ w)).
  rewrite (analyze_transfers_world_irrelevant _ _ _ _ w w').
  pose proof (analyze_transfers_overlap_set (m :: ms) (f :: fs)
                10000000 30%Q w') as Hrows.
  destruct (analyze_transfers _ _ _ _ w') as [rows w''].
  simpl in Hrows. destruct rows as [|r rs]; [done|].
  simpl. by rewrite (generate_report_raises_of _ r rs Hrows).
Qed.

(** C8 (empty input, no division by zero). With no FTP events
    [analyze_transfers] returns the empty list. [run_analysis] returns
    without a report, so without any summary, whenever the correlation
    yields no row, in particular when there are no FTP events. On no
    input does [run_analysis] end in a division by zero, and neither
    does the summary on any list of rows: for an empty list it yields
    nothing, and for any other list every divisor it reaches is the
    length of a list that is not empty. (For such a list the summary
    ends at line 302, in the [ValueError] of the format spec.) *)
Theorem empty_input_no_division :
  (forall mqtt_events time_tolerance_stor time_tolerance_seconds_conn w,
     (analyze_transfers mqtt_events [] time_tolerance_stor
        time_tolerance_seconds_conn w).1 = []) /\
  (forall mqtt_events ftp_events w,
     (analyze_transfers mqtt_events ftp_events 10000000 30%Q w).1
       = [] ->
     (run_analysis mqtt_events ftp_events w).1 = inr None) /\
  (forall mqtt_events w,
     (run_analysis mqtt_events [] w).1 = inr None) /\
  (forall mqtt_events ftp_events w,
     (run_analysis mqtt_events ftp_events w).1
       <> inl ZeroDivisionError) /\
  (forall analysis_results overlaps,
     summarize analysis_results overlaps <> inl ZeroDivisionError) /\
  (forall overlaps, summarize [] overlaps = inr None).
Proof.
  split; [exact analyze_transfers_no_ftp|].
  split; [|split; [|split; [|split]]].
  - intros mqtt_events ftp_events w Hempty.
    by rewrite run_analysis_outcome, Hempty.
  - intros mqtt_events w.
    by rewrite run_analysis_outcome, analyze_transfers_no_ftp.
  - intros mqtt_events ftp_events w. rewrite run_analysis_outcome.
    by destruct (analyze_transfers _ _ _ _ _).1.
  - intros [|r rs] overlaps; [done|].
    by rewrite summarize_cons_raises.
  - exact summarize_nil.
Qed.

Lemma empty_input_no_division_witness :
  (run_analysis [MqttEvent 0 "true"]
     [FtpEvent "STOR" 20000000 (Some "late.jpg")] quiet_world).1
  = inr None.
Proof.
  destruct empty_input_no_division as (_ & H & _).
  apply (H [MqttEvent 0 "true"]
           [FtpEvent "STOR" 20000000 (Some "late.jpg")] quiet_world).
  reflexivity.
Defined.

(* ================================================================== *)
(** * Part V: properties of the metrics                                *)
(* ================================================================== *)

(** ** Dependence on the inputs only *)

Lemma isin_ext (c : column) (ips ips' : list string) :
  (forall a, a ∈ ips <-> a ∈ ips') -> isin c ips = isin c ips'.
Proof.
  intros Hset. destruct c as [v|v|v]; simpl; [done| |done].
  apply map_ext. intros s. apply Bool.eq_iff_eq_true.
  rewrite !existsb_exists. split; intros (a & Ha & Heq).
  - exists a. split; [|done].
    by apply list_elem_of_In, Hset, list_elem_of_In.
  - exists a. split; [|done].
    by apply list_elem_of_In, Hset, list_elem_of_In.
Qed.

Lemma primary_opened_ext df ips ips' :
  (forall a, a ∈ ips <-> a ∈ ips') ->
  primary_opened df ips = primary_opened df ips'.
Proof.
  intros Hset. unfold primary_opened.
  destruct (_ && _); [|done].
  destruct (getitem df "tcp.flags.syn") as [|syn]; [done|].
  destruct (getitem df "ip.src") as [|src]; [done|].
  cbn [bind]. by rewrite (isin_ext src ips ips' Hset).
Qed.

Lemma primary_closed_ext df ips ips' :
  (forall a, a ∈ ips <-> a ∈ ips') ->
  primary_closed df ips = primary_closed df ips'.
Proof.
  intros Hset. unfold primary_closed.
  destruct (_ && _); [|done].
  destruct (getitem df "tcp.flags.fin") as [|fin]; [done|].
  destruct (getitem df "tcp.flags.reset") as [|rst]; [done|].
  destruct (getitem df "ip.src") as [|src]; [done|].
  destruct (getitem df "ip.dst") as [|dst]; [done|].
  cbn [bind].
  by rewrite (isin_ext src ips ips' Hset), (isin_ext dst ips ips' Hset).
Qed.

(** C9 (determinism). The rows returned by [analyze_transfers] are the
    same in every world: neither the readings of the wall clock nor the
    content of the log sink reach them, so two runs on the same event
    lists and tolerances return the same rows. [calculate_metrics]
    reads no world at all; its result is fixed by the columns of the
    table (however the table was built), the duration, the RTT field and
    the set of addresses (whatever their order or repetitions). *)
Theorem deterministic_core :
  (forall mqtt_events ftp_events time_tolerance_stor time_tolerance_seconds_conn
          w1 w2,
     (analyze_transfers mqtt_events ftp_events time_tolerance_stor
        time_tolerance_seconds_conn w1).1
     = (analyze_transfers mqtt_events ftp_events time_tolerance_stor
          time_tolerance_seconds_conn w2).1) /\
  (forall (df df' : DataFrame) duration_s rtt_field camera_ips camera_ips',
     (forall name, df !! name = df' !! name) ->
     (forall a, a ∈ camera_ips <-> a ∈ camera_ips') ->
     calculate_metrics df duration_s rtt_field camera_ips
     = calculate_metrics df' duration_s rtt_field camera_ips').
Proof.
  split; [exact analyze_transfers_world_irrelevant|].
  intros df df' duration_s rtt_field ips ips' Hcols Hset.
  apply map_eq in Hcols. subst df'. unfold calculate_metrics.
  by rewrite (primary_opened_ext df ips ips' Hset),
             (primary_closed_ext df ips ips' Hset).
Qed.

Lemma deterministic_core_witness :
  calculate_metrics
    (<["ip.src" := Text ["10.0.0.1"]]>
       (<["tcp.flags.syn" := Numeric [Some 1%Q]]>
          (<["frame.time" := Datetime [Some 5000]]> ∅)))
    5 None ["10.0.0.1"; "10.0.0.2"]
  = calculate_metrics
      (<["frame.time" := Datetime [Some 5000]]>
         (<["tcp.flags.syn" := Numeric [Some 1%Q]]>
            (<["ip.src" := Text ["10.0.0.1"]]> ∅)))
      5 None ["10.0.0.2"; "10.0.0.1"; "10.0.0.2"].
Proof.
  destruct deterministic_core as [_ H]. apply H.
  - intros name. reflexivity.
  - intros a. rewrite !elem_of_cons, !elem_of_nil. tauto.
Defined.

(** ** Masks and selections *)

Lemma eq_one_lookup (c : column) (i : nat) :
  eq_one c !! i = Some true <->
  exists v q, c = Numeric v /\ v !! i = Some (Some q) /\ (q == 1)%Q.
Proof.
  destruct c as [v|v|v]; simpl; rewrite list_lookup_fmap.
  - destruct (v !! i) as [[q|]|] eqn:Hv; simpl.
    + split.
      * intros [= Hq]. apply Qeq_bool_eq in Hq. by exists v, q.
      * intros (v' & q' & ? & ? & Hq). simplify_eq.
        by rewrite (Qeq_eq_bool _ _ Hq).
    + split; [done|]. intros (v' & q' & ? & ? & _). simplify_eq.
    + split; [done|]. intros (v' & q' & ? & ? & _). simplify_eq.
  - split; [by destruct (v !! i)|]. by intros (? & ? & [=] & _).
  - split; [by destruct (v !! i)|]. by intros (? & ? & [=] & _).
Qed.

Lemma existsb_eqb_elem_of (a : string) (l : list string) :
  existsb (String.eqb a) l = true <-> a ∈ l.
Proof.
  rewrite existsb_exists. split.
  - intros (x & Hx & ->%String.eqb_eq). by apply list_elem_of_In.
  - intros Ha. exists a. split; [by apply list_elem_of_In|].
    apply String.eqb_refl.
Qed.

Lemma isin_lookup (c : column) (ips : list string) (i : nat) :
  isin c ips !! i = Some true <->
  exists v a, c = Text v /\ v !! i = Some a /\ a ∈ ips.
Proof.
  destruct c as [v|v|v]; simpl; rewrite list_lookup_fmap.
  - split; [by destruct (v !! i)|]. by intros (? & ? & [=] & _).
  - destruct (v !! i) as [a|] eqn:Hv; simpl.
    + split.
      * intros [= Ha]. apply existsb_eqb_elem_of in Ha. by exists v, a.
      * intros (v' & a' & ? & ? & Ha). simplify_eq.
        by apply existsb_eqb_elem_of in Ha as ->.
    + split; [done|]. intros (v' & a' & ? & ? & _). simplify_eq.
  - split; [by destruct (v !! i)|]. by intros (? & ? & [=] & _).
Qed.

Lemma resize_false_lookup (n i : nat) (a : list bool) :
  (i < n)%nat -> resize n false a !! i = Some (default false (a !! i)).
Proof.
  intros Hi. destruct (decide (i < length a)%nat) as [Hlt|Hge].
  - rewrite lookup_resize by done.
    destruct (lookup_lt_is_Some_2 a i Hlt) as [x Hx]. by rewrite Hx.
  - rewrite lookup_resize_new by lia.
    by rewrite (proj2 (lookup_ge_None a i)) by lia.
Qed.

Lemma mask_op_lookup (f : bool -> bool -> bool) (a b : list bool)
    (i : nat) (x : bool) :
  mask_op f a b !! i = Some x <->
  (i < Nat.max (length a) (length b))%nat /\
  x = f (default false (a !! i)) (default false (b !! i)).
Proof.
  unfold mask_op. rewrite lookup_zip_with.
  destruct (decide (i < Nat.max (length a) (length b))%nat) as [Hi|Hi].
  - rewrite !resize_false_lookup by done. simpl.
    split; [intros [= <-]; by split | by intros [_ ->]].
  - rewrite !lookup_resize_old by lia. simpl. split; [done | tauto].
Qed.

Lemma lookup_true_default (a : list bool) (i : nat) :
  default false (a !! i) = true <-> a !! i = Some true.
Proof. destruct (a !! i) as [[]|]; simpl; split; congruence. Qed.

Lemma mask_and_lookup (a b : list bool) (i : nat) :
  mask_and a b !! i = Some true <->
  a !! i = Some true /\ b !! i = Some true.
Proof.
  unfold mask_and. rewrite mask_op_lookup. split.
  - intros [_ H]. symmetry in H. apply andb_true_iff in H.
    by rewrite !lookup_true_default in H.
  - intros [Ha Hb]. split.
    + apply lookup_lt_Some in Ha. lia.
    + by rewrite Ha, Hb.
Qed.

Lemma mask_or_lookup (a b : list bool) (i : nat) :
  mask_or a b !! i = Some true <->
  a !! i = Some true \/ b !! i = Some true.
Proof.
  unfold mask_or. rewrite mask_op_lookup. split.
  - intros [_ H]. symmetry in H. apply orb_true_iff in H.
    by rewrite !lookup_true_default in H.
  - intros [Ha|Hb]; split.
    + apply lookup_lt_Some in Ha. lia.
    + rewrite Ha. done.
    + apply lookup_lt_Some in Hb. lia.
    + rewrite Hb. simpl. by rewrite orb_true_r.
Qed.

Lemma selection_empty_false (mask : list bool) :
  selection_empty mask = false <-> exists i, mask !! i = Some true.
Proof.
  unfold selection_empty. rewrite negb_false_iff, existsb_exists. split.
  - intros (b & Hb%list_elem_of_In & ->).
    by apply list_elem_of_lookup in Hb.
  - intros [i Hi]. exists true. split; [|done].
    apply list_elem_of_In. by eapply list_elem_of_lookup_2.
Qed.

Lemma select_elem_of {A} (mask : list bool) (values : list A) (x : A) :
  x ∈ select mask values <->
  exists i, mask !! i = Some true /\ values !! i = Some x.
Proof.
  unfold select. revert values.
  induction mask as [|b mask IH]; intros values.
  - simpl. split; [by intros ?%elem_of_nil | by intros (i & [=] & _)].
  - destruct values as [|y values].
    + simpl. split; [by intros ?%elem_of_nil | by intros (i & _ & [=])].
    + assert (x ∈ map snd (List.filter fst (combine mask values)) <->
              exists i, mask !! i = Some true /\ values !! i = Some x)
        as IH' by apply IH.
      destruct b; simpl.
      * rewrite elem_of_cons, IH'. split.
        -- intros [->|(i & Hm & Hv)]; [by exists 0%nat | by exists (S i)].
        -- intros ([|i] & Hm & Hv); simpl in *.
           ++ left. congruence.
           ++ right. by exists i.
      * rewrite IH'. split.
        -- intros (i & Hm & Hv). by exists (S i).
        -- intros ([|i] & Hm & Hv); simpl in *; [done|]. by exists i.
Qed.

Lemma fold_min_spec (ts : list Z) (t : Z) :
  fold_left Z.min ts t ∈ t :: ts /\
  forall x, x ∈ t :: ts -> fold_left Z.min ts t <= x.
Proof.
  revert t. induction ts as [|u ts IH]; intros t; simpl.
  - split; [apply list_elem_of_here|].
    intros x ->%list_elem_of_singleton. lia.
  - destruct (IH (Z.min t u)) as [Hin Hle]. split.
    + apply elem_of_cons in Hin as [->|Hin].
      * destruct (Z.min_spec t u) as [[_ ->]|[_ ->]].
        -- apply list_elem_of_here.
        -- apply list_elem_of_further, list_elem_of_here.
      * by do 2 apply list_elem_of_further.
    + intros x [->|[->|Hx]%elem_of_cons]%elem_of_cons.
      * pose proof (Hle _ (list_elem_of_here _ _)). lia.
      * pose proof (Hle _ (list_elem_of_here _ _)). lia.
      * apply Hle. by apply list_elem_of_further.
Qed.

Lemma fold_max_spec (ts : list Z) (t : Z) :
  fold_left Z.max ts t ∈ t :: ts /\
  forall x, x ∈ t :: ts -> x <= fold_left Z.max ts t.
Proof.
  revert t. induction ts as [|u ts IH]; intros t; simpl.
  - split; [apply list_elem_of_here|].
    intros x ->%list_elem_of_singleton. lia.
  - destruct (IH (Z.max t u)) as [Hin Hle]. split.
    + apply elem_of_cons in Hin as [->|Hin].
      * destruct (Z.max_spec t u) as [[_ ->]|[_ ->]].
        -- apply list_elem_of_further, list_elem_of_here.
        -- apply list_elem_of_here.
      * by do 2 apply list_elem_of_further.
    + intros x [->|[->|Hx]%elem_of_cons]%elem_of_cons.
      * pose proof (Hle _ (list_elem_of_here _ _)). lia.
      * pose proof (Hle _ (list_elem_of_here _ _)). lia.
      * apply Hle. by apply list_elem_of_further.
Qed.

Lemma omap_id_elem_of (v : list (option Z)) (t : Z) :
  t ∈ omap id v <-> Some t ∈ v.
Proof.
  rewrite list_elem_of_omap. split.
  - intros (x & Hx & Heq). unfold id in Heq. by subst x.
  - intros H. by exists (Some t).
Qed.

Lemma time_min_spec (v : list (option Z)) :
  match time_min v with
  | Some t => Some t ∈ v /\ forall t', Some t' ∈ v -> t <= t'
  | None => forall t', Some t' ∉ v
  end.
Proof.
  unfold time_min. destruct (omap id v) as [|t ts] eqn:Hv.
  - intros t' Ht'. apply omap_id_elem_of in Ht'. rewrite Hv in Ht'.
    by apply elem_of_nil in Ht'.
  - destruct (fold_min_spec ts t) as [Hin Hle]. rewrite <- Hv in *.
    split; [by apply omap_id_elem_of|].
    intros t' Ht'. by apply Hle, omap_id_elem_of.
Qed.

Lemma time_max_spec (v : list (option Z)) :
  match time_max v with
  | Some t => Some t ∈ v /\ forall t', Some t' ∈ v -> t' <= t
  | None => forall t', Some t' ∉ v
  end.
Proof.
  unfold time_max. destruct (omap id v) as [|t ts] eqn:Hv.
  - intros t' Ht'. apply omap_id_elem_of in Ht'. rewrite Hv in Ht'.
    by apply elem_of_nil in Ht'.
  - destruct (fold_max_spec ts t) as [Hin Hle]. rewrite <- Hv in *.
    split; [by apply omap_id_elem_of|].
    intros t' Ht'. by apply Hle, omap_id_elem_of.
Qed.

(** ** Connection timestamps from the TCP flags *)

Lemma detect_earliest (rows : nat -> Prop) (df : DataFrame)
    (mask : list bool) (o : option Z) :
  (forall i, rows i <-> mask !! i = Some true) ->
  (if negb (selection_empty mask)
   then times <-- selected_frame_time df mask ;; inr (time_min times)
   else inr None) = inr o ->
  earliest_of rows df o.
Proof.
  intros Hrows. destruct (selection_empty mask) eqn:Hempty; simpl.
  - intros [= <-] i t' Hi _. apply Hrows in Hi.
    assert (selection_empty mask = false) as Hne
      by (apply selection_empty_false; eauto).
    congruence.
  - unfold selected_frame_time, getitem.
    destruct (df !! "frame.time") as [[v|v|v]|] eqn:Hft; simpl;
      try discriminate.
    intros [= <-]. pose proof (time_min_spec (select mask v)) as Hmin.
    destruct (time_min (select mask v)) as [t|]; simpl.
    + destruct Hmin as [Hin Hle].
      apply select_elem_of in Hin as (i & Hm & Hv). split.
      * exists i. split; [by apply Hrows|]. by exists v.
      * intros i' t' Hi' (v' & Hft' & Hv'). simplify_eq.
        apply Hle, select_elem_of. exists i'.
        split; [by apply Hrows|done].
    + intros i t' Hi (v' & Hft' & Hv'). simplify_eq.
      apply (Hmin t'), select_elem_of. exists i.
      split; [by apply Hrows|done].
Qed.

Lemma detect_latest (rows : nat -> Prop) (df : DataFrame)
    (mask : list bool) (o : option Z) :
  (forall i, rows i <-> mask !! i = Some true) ->
  (if negb (selection_empty mask)
   then times <-- selected_frame_time df mask ;; inr (time_max times)
   else inr None) = inr o ->
  latest_of rows df o.
Proof.
  intros Hrows. destruct (selection_empty mask) eqn:Hempty; simpl.
  - intros [= <-] i t' Hi _. apply Hrows in Hi.
    assert (selection_empty mask = false) as Hne
      by (apply selection_empty_false; eauto).
    congruence.
  - unfold selected_frame_time, getitem.
    destruct (df !! "frame.time") as [[v|v|v]|] eqn:Hft; simpl;
      try discriminate.
    intros [= <-]. pose proof (time_max_spec (select mask v)) as Hmax.
    destruct (time_max (select mask v)) as [t|]; simpl.
    + destruct Hmax as [Hin Hle].
      apply select_elem_of in Hin as (i & Hm & Hv). split.
      * exists i. split; [by apply Hrows|]. by exists v.
      * intros i' t' Hi' (v' & Hft' & Hv'). simplify_eq.
        apply Hle, select_elem_of. exists i'.
        split; [by apply Hrows|done].
    + intros i t' Hi (v' & Hft' & Hv'). simplify_eq.
      apply (Hmax t'), select_elem_of. exists i.
      split; [by apply Hrows|done].
Qed.

Lemma flag_set_lookup (df : DataFrame) (name : string) (c : column)
    (i : nat) :
  df !! name = Some c ->
  flag_set df name i <-> eq_one c !! i = Some true.
Proof.
  intros Hc. rewrite eq_one_lookup. unfold flag_set. split.
  - intros (v & q & Hv & Hi & Hq). simplify_eq. by exists v, q.
  - intros (v & q & -> & Hi & Hq). by exists v, q.
Qed.

Lemma flag_set_absent (df : DataFrame) (name : string) (i : nat) :
  df !! name = None -> ~ flag_set df name i.
Proof. intros Hc (v & q & Hv & _). congruence. Qed.

Lemma address_in_lookup (df : DataFrame) (name : string) (c : column)
    (ips : list string) (i : nat) :
  df !! name = Some c ->
  address_in df name ips i <-> isin c ips !! i = Some true.
Proof.
  intros Hc. rewrite isin_lookup. unfold address_in. split.
  - intros (v & a & Hv & Hi & Ha). simplify_eq. by exists v, a.
  - intros (v & a & -> & Hi & Ha). by exists v, a.
Qed.

Lemma address_in_absent (df : DataFrame) (name : string)
    (ips : list string) (i : nat) :
  df !! name = None -> ~ address_in df name ips i.
Proof. intros Hc (v & a & Hv & _). congruence. Qed.

Lemma primary_opened_spec (df : DataFrame) (ips : list string)
    (o : option Z) :
  primary_opened df ips = inr o -> earliest_of (syn_rows df ips) df o.
Proof.
  unfold primary_opened, in_columns, getitem.
  destruct (df !! "tcp.flags.syn") as [syn|] eqn:Hsyn;
    [destruct (df !! "ip.src") as [src|] eqn:Hsrc|]; simpl.
  - apply detect_earliest. intros i. unfold syn_rows.
    by rewrite mask_and_lookup, (flag_set_lookup _ _ _ _ Hsyn),
               (address_in_lookup _ _ _ _ _ Hsrc).
  - intros [= <-] i t' [_ Ha]. by apply address_in_absent in Ha.
  - intros [= <-] i t' [Hf _]. by apply flag_set_absent in Hf.
Qed.

Lemma fin_rst_mask (df : DataFrame) (ips : list string)
    (fin rst src dst : column) (i : nat) :
  df !! "tcp.flags.fin" = Some fin ->
  df !! "tcp.flags.reset" = Some rst ->
  df !! "ip.src" = Some src ->
  df !! "ip.dst" = Some dst ->
  fin_rst_rows df ips i <->
  mask_and (mask_or (eq_one fin) (eq_one rst))
           (mask_or (isin src ips) (isin dst ips)) !! i = Some true.
Proof.
  intros Hfin Hrst Hsrc Hdst. unfold fin_rst_rows.
  by rewrite mask_and_lookup, !mask_or_lookup,
             (flag_set_lookup _ _ _ _ Hfin),
             (flag_set_lookup _ _ _ _ Hrst),
             (address_in_lookup _ _ _ _ _ Hsrc),
             (address_in_lookup _ _ _ _ _ Hdst).
Qed.

Lemma primary_closed_spec (df : DataFrame) (ips : list string)
    (o : option Z) :
  primary_closed df ips = inr o ->
  in_columns "tcp.flags.fin" df = true ->
  in_columns "ip.src" df = true ->
  in_columns "ip.dst" df = true ->
  latest_of (fin_rst_rows df ips) df o.
Proof.
  unfold primary_closed, in_columns, getitem.
  destruct (df !! "tcp.flags.fin") as [fin|] eqn:Hfin; [|done].
  destruct (df !! "ip.src") as [src|] eqn:Hsrc; [|done].
  destruct (df !! "ip.dst") as [dst|] eqn:Hdst; [|done].
  destruct (df !! "tcp.flags.reset") as [rst|] eqn:Hrst; [|done].
  simpl. intros H _ _ _. revert H.
  apply detect_latest. intros i.
  by apply fin_rst_mask.
Qed.

Lemma primary_closed_unguarded (df : DataFrame) (ips : list string) :
  in_columns "tcp.flags.fin" df && in_columns "ip.src" df
    && in_columns "ip.dst" df = false ->
  primary_closed df ips = inr None.
Proof. unfold primary_closed. by intros ->. Qed.

Lemma selected_frame_time_total (df : DataFrame) (mask : list bool)
    (v : list (option Z)) :
  df !! "frame.time" = Some (Datetime v) ->
  selected_frame_time df mask = inr (select mask v).
Proof. unfold selected_frame_time, getitem. by intros ->. Qed.

Lemma primary_opened_total (df : DataFrame) (ips : list string)
    (v : list (option Z)) :
  df !! "frame.time" = Some (Datetime v) ->
  exists o, primary_opened df ips = inr o.
Proof.
  intros Hft. unfold primary_opened, in_columns, getitem.
  destruct (df !! "tcp.flags.syn") as [syn|];
    [destruct (df !! "ip.src") as [src|]|]; simpl; try by eexists.
  destruct (selection_empty _); simpl; [by eexists|].
  rewrite (selected_frame_time_total _ _ _ Hft). simpl. by eexists.
Qed.

Lemma primary_closed_total (df : DataFrame) (ips : list string)
    (v : list (option Z)) :
  df !! "frame.time" = Some (Datetime v) ->
  in_columns "tcp.flags.reset" df = true ->
  exists c, primary_closed df ips = inr c.
Proof.
  intros Hft. unfold primary_closed, in_columns, getitem.
  destruct (df !! "tcp.flags.reset") as [rst|]; [intros _|done].
  destruct (df !! "tcp.flags.fin") as [fin|]; [|by eexists].
  destruct (df !! "ip.src") as [src|]; [|by eexists].
  destruct (df !! "ip.dst") as [dst|]; [|by eexists].
  simpl. destruct (selection_empty _); simpl; [by eexists|].
  rewrite (selected_frame_time_total _ _ _ Hft). simpl. by eexists.
Qed.

(** Taking a successful run of [calculate_metrics] apart. *)
Ltac bind_inv H :=
  repeat match type of H with
         | bind ?r _ = inr _ =>
             let E := fresh "E" in
             destruct r eqn:E; cbn [bind] in H; [discriminate H|]
         end.

Lemma fallback_opened_determined (df : DataFrame) (t : Z) :
  fallback_opened df (Some t) = inr (Some t).
Proof. done. Qed.

Lemma fallback_closed_determined (df : DataFrame) (t : Z) :
  fallback_closed df (Some t) = inr (Some t).
Proof. done. Qed.

(** A time found in the TCP flags is the one reported. *)
Lemma calculate_metrics_primary (df : DataFrame) (duration_s : Q)
    (rtt_field : option string) (ips : list string) (m : metrics) :
  calculate_metrics df duration_s rtt_field ips = inr m ->
  exists o c,
    primary_opened df ips = inr o /\ primary_closed df ips = inr c /\
    (is_Some o -> ftp_conn_opened_timestamp m = format_timestamp o) /\
    (is_Some c -> ftp_conn_closed_timestamp m = format_timestamp c).
Proof.
  unfold calculate_metrics. intros H. bind_inv H.
  injection H as <-. simpl. eexists _, _. split; [done|]. split; [done|].
  split.
  - intros [t ->]. rewrite fallback_opened_determined in *.
    by simplify_eq.
  - intros [t ->]. rewrite fallback_closed_determined in *.
    by simplify_eq.
Qed.

(** C5 (connection timestamps from the TCP flags), as the code has it.
    The open time found in the TCP flags is the earliest time among the
    rows with SYN set whose source address is one of the cameras (the
    destination address is not consulted). When the table has the FIN
    flag and both address columns, the close time found in the TCP flags
    is the latest time among the rows with FIN or RESET set whose source
    or destination address is one of the cameras; when one of these three
    columns is missing no close time is found there. With a [frame.time]
    column of timestamps the open detection always returns, and so does
    the close detection when the RESET flag is present. A time found this
    way is the one [calculate_metrics] reports. *)
Theorem connection_timestamps_from_tcp_flags
    (df : DataFrame) (camera_ips : list string) :
  (forall o,
     primary_opened df camera_ips = inr o ->
     earliest_of (syn_rows df camera_ips) df o) /\
  (forall c,
     primary_closed df camera_ips = inr c ->
     in_columns "tcp.flags.fin" df = true ->
     in_columns "ip.src" df = true ->
     in_columns "ip.dst" df = true ->
     latest_of (fin_rst_rows df camera_ips) df c) /\
  (in_columns "tcp.flags.fin" df && in_columns "ip.src" df
     && in_columns "ip.dst" df = false ->
   primary_closed df camera_ips = inr None) /\
  (forall v,
     df !! "frame.time" = Some (Datetime v) ->
     (exists o, primary_opened df camera_ips = inr o) /\
     (in_columns "tcp.flags.reset" df = true ->
      exists c, primary_closed df camera_ips = inr c)) /\
  (forall duration_s rtt_field m,
     calculate_metrics df duration_s rtt_field camera_ips = inr m ->
     exists o c,
       primary_opened df camera_ips = inr o /\
       primary_closed df camera_ips = inr c /\
       (is_Some o -> ftp_conn_opened_timestamp m = format_timestamp o) /\
       (is_Some c -> ftp_conn_closed_timestamp m = format_timestamp c)).
Proof.
  split; [|split; [|split; [|split]]].
  - intros o. apply primary_opened_spec.
  - intros c. apply primary_closed_spec.
  - apply primary_closed_unguarded.
  - intros v Hft. split.
    + by eapply primary_opened_total.
    + by eapply primary_closed_total.
  - intros duration_s rtt_field m. apply calculate_metrics_primary.
Qed.

Lemma connection_timestamps_from_tcp_flags_witness :
  earliest_of (syn_rows camera_session ["10.0.0.1"]) camera_session
    (Some 5000) /\
  latest_of (fin_rst_rows camera_session ["10.0.0.1"]) camera_session
    (Some 9000).
Proof.
  destruct (connection_timestamps_from_tcp_flags camera_session
              ["10.0.0.1"]) as (Hopen & Hclose & _).
  split.
  - apply Hopen. vm_compute. reflexivity.
  - apply Hclose; vm_compute; reflexivity.
Defined.

(** The reading of the design document fails in two places. A SYN
    packet addressed to a camera by another host has SYN set and a
    camera as its destination, yet no open time is found, and none is
    reported. A FIN packet sent by a camera in a table without the
    destination column has FIN set and a camera as its source, yet no
    close time is found. *)
Lemma primary_detection_narrower_than_documented :
  (exists o m,
     primary_opened syn_to_camera ["10.0.0.1"] = inr o /\
     ~ earliest_of (syn_rows_as_documented syn_to_camera ["10.0.0.1"])
         syn_to_camera o /\
     calculate_metrics syn_to_camera 5 None ["10.0.0.1"] = inr m /\
     ftp_conn_opened_timestamp m = None) /\
  (exists c,
     primary_closed fin_without_destination ["10.0.0.1"] = inr c /\
     ~ latest_of (fin_rst_rows fin_without_destination ["10.0.0.1"])
         fin_without_destination c).
Proof.
  split.
  - exists None. eexists. split; [vm_compute; reflexivity|]. split.
    + intros H. apply (H 0%nat 5000).
      * split.
        -- exists [Some 1%Q], 1%Q. split; [vm_compute; reflexivity|].
           split; [reflexivity|reflexivity].
        -- right. exists ["10.0.0.1"], "10.0.0.1".
           split; [vm_compute; reflexivity|]. split; [reflexivity|].
           apply list_elem_of_here.
      * exists [Some 5000]. split; [vm_compute; reflexivity|reflexivity].
    + split; [vm_compute; reflexivity|reflexivity].
  - exists None. split; [vm_compute; reflexivity|].
    intros H. apply (H 0%nat 7000).
    + split.
      * left. exists [Some 1%Q], 1%Q. split; [vm_compute; reflexivity|].
        split; [reflexivity|reflexivity].
      * left. exists ["10.0.0.1"], "10.0.0.1".
        split; [vm_compute; reflexivity|]. split; [reflexivity|].
        apply list_elem_of_here.
    + exists [Some 7000]. split; [vm_compute; reflexivity|reflexivity].
Qed.

(** ** Missing columns *)

(** C4 (missing columns), where the code departs from it. A table that
    has the FIN flag and both address columns but no RESET flag makes
    [calculate_metrics] raise [KeyError], even without rows; so does a
    table in which a camera's SYN packet is found but [frame.time] is
    missing. *)
Theorem metrics_raise_on_missing_column :
  calculate_metrics fin_without_reset 5 None []
    = inl (KeyError "tcp.flags.reset") /\
  calculate_metrics syn_without_frame_time 5 None ["10.0.0.1"]
    = inl (KeyError "frame.time").
Proof. split; vm_compute; reflexivity. Qed.

Lemma counter_absent (df : DataFrame) (name : string) :
  in_columns name df = false -> counter df name = inr 0.
Proof. unfold counter. by intros ->. Qed.

(** The part of C4 that the code keeps: whenever [calculate_metrics]
    returns, a counter whose column is missing is 0, the throughput is 0
    without [frame.len] and the RTT is 0 without the RTT column; and on
    a table without any column it returns, with every counter 0, both
    rates 0 and no timestamp. *)
Lemma metrics_zero_defaults :
  (forall df duration_s rtt_field camera_ips m,
     calculate_metrics df duration_s rtt_field camera_ips = inr m ->
     (in_columns "tcp.analysis.retransmission" df = false ->
      total_retransmissions m = 0) /\
     (in_columns "tcp.analysis.zero_window" df = false ->
      zero_window_count m = 0) /\
     (in_columns "tcp.analysis.window_full" df = false ->
      window_full_count m = 0) /\
     (in_columns "tcp.analysis.lost_segment" df = false ->
      lost_segments_count m = 0) /\
     (in_columns "tcp.analysis.duplicate_ack" df = false ->
      duplicate_ack_count m = 0) /\
     (in_columns "frame.len" df = false ->
      measured_throughput_Mbps m = 0%Q) /\
     ((forall name, rtt_field = Some name ->
                    in_columns name df = false) ->
      avg_rtt_ms m = 0%Q)) /\
  (forall duration_s rtt_field camera_ips,
     calculate_metrics ∅ duration_s rtt_field camera_ips
     = inr {| total_retransmissions := 0;
              zero_window_count := 0;
              window_full_count := 0;
              lost_segments_count := 0;
              duplicate_ack_count := 0;
              measured_throughput_Mbps := 0%Q;
              avg_rtt_ms := 0%Q;
              ftp_conn_opened_timestamp := None;
              ftp_conn_closed_timestamp := None |}).
Proof.
  split.
  - intros df duration_s rtt_field ips m H.
    unfold calculate_metrics in H. bind_inv H. injection H as <-. simpl.
    repeat split; intros Habs.
    + rewrite (counter_absent _ _ Habs) in *. congruence.
    + rewrite (counter_absent _ _ Habs) in *. congruence.
    + rewrite (counter_absent _ _ Habs) in *. congruence.
    + rewrite (counter_absent _ _ Habs) in *. congruence.
    + rewrite (counter_absent _ _ Habs) in *. congruence.
    + unfold throughput in *. rewrite Habs, andb_false_r in *. congruence.
    + unfold average_rtt in *. destruct rtt_field as [name|].
      * rewrite (Habs name eq_refl) in *. congruence.
      * congruence.
  - intros duration_s rtt_field ips. unfold calculate_metrics.
    rewrite !counter_absent by done. cbn [bind].
    unfold throughput. rewrite andb_false_r. cbn [bind].
    assert (average_rtt ∅ rtt_field = inr 0%Q) as ->.
    { unfold average_rtt. destruct rtt_field as [name|]; [|done].
      unfold in_columns. by rewrite lookup_empty. }
    reflexivity.
Qed.

(* ================================================================== *)
(** * Part VI: further properties of the correlation                   *)
(* ================================================================== *)

(** ** Connection association *)

Lemma find_rev_last {A} (f : A -> bool) (l : list A) (x : A) :
  List.find f (rev l) = Some x ->
  last_such (fun y => f y = true) l x.
Proof.
  intros (pre & post & Hrev & Hx & Hpre)%find_first.
  exists (rev post), (rev pre). split; [|split; [done|]].
  - rewrite <- (rev_involutive l), Hrev, rev_app_distr. simpl.
    by rewrite <- app_assoc.
  - intros y Hy. apply Hpre. apply list_elem_of_In, in_rev.
    by apply list_elem_of_In in Hy.
Qed.

Lemma last_such_iff {A} (P Q : A -> Prop) (l : list A) (x : A) :
  (forall y, P y <-> Q y) -> last_such P l x -> last_such Q l x.
Proof.
  intros HPQ (pre & post & -> & Hx & Hpost).
  exists pre, post. split; [done|]. split; [by apply HPQ|].
  intros y Hy HQ. apply (Hpost y Hy). by apply HPQ.
Qed.

Lemma last_such_lookup {A} (P : A -> Prop) (l : list A) (x : A) :
  last_such P l x ->
  exists j, l !! j = Some x /\ P x /\
            forall k y, l !! k = Some y -> P y -> (k <= j)%nat.
Proof.
  intros (pre & post & -> & Hx & Hpost).
  exists (length pre). split; [by apply list_lookup_middle|].
  split; [done|]. intros k y Hk Hy.
  destruct (decide (k <= length pre)%nat) as [|Hgt]; [done|].
  exfalso. apply (Hpost y); [|done].
  rewrite lookup_app_r in Hk by lia.
  destruct (k - length pre)%nat as [|n] eqn:Hn; [lia|].
  simpl in Hk. by eapply list_elem_of_lookup_2.
Qed.

Lemma conn_open_test_spec (tolerance : Q) (s e : ftp_event) :
  (ftp_timestamp e <? ftp_timestamp s)
  && String.eqb (ftp_type e) "CONN_OPEN"
  && Qle_bool (total_seconds (ftp_timestamp s - ftp_timestamp e))
       tolerance = true
  <-> conn_open_candidate tolerance (ftp_timestamp s) e.
Proof.
  unfold conn_open_candidate.
  rewrite !andb_true_iff, String.eqb_eq, Z.ltb_lt, Qle_bool_iff. tauto.
Qed.

Lemma conn_close_test_spec (tolerance : Q) (c e : ftp_event) :
  (ftp_timestamp c <? ftp_timestamp e)
  && String.eqb (ftp_type e) "CONN_CLOSE"
  && Qle_bool (total_seconds (ftp_timestamp e - ftp_timestamp c))
       tolerance = true
  <-> conn_close_candidate tolerance (ftp_timestamp c) e.
Proof.
  unfold conn_close_candidate.
  rewrite !andb_true_iff, String.eqb_eq, Z.ltb_lt, Qle_bool_iff. tauto.
Qed.

Lemma find_conn_opened_spec ftp_events tolerance s :
  match find_conn_opened ftp_events tolerance s with
  | Some t =>
      exists e,
        ftp_timestamp e = t /\
        last_such (conn_open_candidate tolerance (ftp_timestamp s))
          ftp_events e
  | None =>
      forall e, e ∈ ftp_events ->
                ~ conn_open_candidate tolerance (ftp_timestamp s) e
  end.
Proof.
  unfold find_conn_opened.
  destruct (List.find _ _) as [e|] eqn:Hfind; simpl.
  - exists e. split; [done|].
    apply find_rev_last in Hfind.
    eapply last_such_iff; [|exact Hfind].
    intros y. apply conn_open_test_spec.
  - intros e He Hcand. rewrite find_none_iff in Hfind.
    apply conn_open_test_spec in Hcand.
    rewrite Hfind in Hcand; [done|].
    apply list_elem_of_In, in_rev. rewrite rev_involutive.
    by apply list_elem_of_In.
Qed.

Lemma find_conn_closed_spec ftp_events tolerance c :
  match find_conn_closed ftp_events tolerance c with
  | Some t =>
      exists e,
        ftp_timestamp e = t /\
        first_such (conn_close_candidate tolerance (ftp_timestamp c))
          ftp_events e
  | None =>
      forall e, e ∈ ftp_events ->
                ~ conn_close_candidate tolerance (ftp_timestamp c) e
  end.
Proof.
  unfold find_conn_closed.
  destruct (List.find _ _) as [e|] eqn:Hfind; simpl.
  - exists e. split; [done|].
    apply find_first in Hfind.
    eapply first_such_iff; [|exact Hfind].
    intros y. apply conn_close_test_spec.
  - intros e He Hcand. rewrite find_none_iff in Hfind.
    apply conn_close_test_spec in Hcand.
    rewrite Hfind in Hcand; done.
Qed.

(** X1. The connection-open time of a row, when there is one, is the
    time of the last CONN_OPEN of the FTP list that lies strictly before
    the row's STOR and no more than the tolerance before it, hence the
    latest such time when the list is sorted; it is unset exactly when
    the list has no such event. *)
Theorem connection_opened_nearest_before_stor
    mqtt_events ftp_events time_tolerance_stor time_tolerance_seconds_conn
    w r :
  r ∈ (analyze_transfers mqtt_events ftp_events time_tolerance_stor
         time_tolerance_seconds_conn w).1 ->
  match connection_opened_time r with
  | Some t =>
      t < ftp_stor_time r /\
      (total_seconds (ftp_stor_time r - t)%Z
         <= time_tolerance_seconds_conn)%Q /\
      (exists e,
         ftp_timestamp e = t /\
         last_such
           (conn_open_candidate time_tolerance_seconds_conn
              (ftp_stor_time r))
           ftp_events e) /\
      (ftp_sorted ftp_events ->
       forall e, e ∈ ftp_events ->
         conn_open_candidate time_tolerance_seconds_conn
           (ftp_stor_time r) e ->
         ftp_timestamp e <= t)
  | None =>
      forall e, e ∈ ftp_events ->
        ~ conn_open_candidate time_tolerance_seconds_conn
            (ftp_stor_time r) e
  end.
Proof.
  intros [k Hk]%list_elem_of_lookup.
  apply analyze_transfers_emitted in Hk as (i & Hem & _).
  apply emitted_row in Hem as (ev & s & c & lc & _ & _ & _ & _ & ->).
  simpl.
  pose proof (find_conn_opened_spec ftp_events
                time_tolerance_seconds_conn s) as Hspec.
  destruct (find_conn_opened _ _ _) as [t|]; [|done].
  destruct Hspec as (e & <- & Hlast).
  pose proof Hlast as (_ & _ & _ & (_ & Hlt & Htol) & _).
  split; [done|]. split; [done|]. split; [by exists e|].
  intros Hsorted e' [n Hn]%list_elem_of_lookup Hcand.
  apply last_such_lookup in Hlast as (j & Hj & _ & Hmax).
  eapply (Hsorted n j); [|done..]. by eapply Hmax.
Qed.

Lemma session_ftp_sorted : ftp_sorted session_ftp.
Proof.
  intros j k e e' Hjk Hj Hk.
  destruct j as [|[|[|[|[|j]]]]]; destruct k as [|[|[|[|[|k]]]]];
    simpl in Hj, Hk; simplify_eq; simpl; lia.
Qed.

Lemma session_row_emitted :
  session_row ∈ (analyze_transfers session_mqtt session_ftp
                   10000000 30%Q quiet_world).1.
Proof. vm_compute. apply list_elem_of_here. Qed.

Lemma connection_opened_nearest_before_stor_witness :
  51000000 < ftp_stor_time session_row /\
  (total_seconds (ftp_stor_time session_row - 51000000)%Z <= 30)%Q /\
  (forall e, e ∈ session_ftp ->
     conn_open_candidate 30 (ftp_stor_time session_row) e ->
     ftp_timestamp e <= 51000000).
Proof.
  pose proof (connection_opened_nearest_before_stor session_mqtt
                session_ftp 10000000 30%Q quiet_world session_row
                session_row_emitted) as H.
  simpl in H. destruct H as (H1 & H2 & _ & H4).
  exact (conj H1 (conj H2 (H4 session_ftp_sorted))).
Defined.

(** X2. The connection-close time of a row, when there is one, is the
    time of the first CONN_CLOSE of the FTP list that lies strictly
    after the row's completion and no more than the tolerance after it,
    hence the earliest such time when the list is sorted; it is unset
    exactly when the list has no such event. *)
Theorem connection_closed_nearest_after_completion
    mqtt_events ftp_events time_tolerance_stor time_tolerance_seconds_conn
    w r :
  r ∈ (analyze_transfers mqtt_events ftp_events time_tolerance_stor
         time_tolerance_seconds_conn w).1 ->
  match connection_closed_time r with
  | Some t =>
      ftp_completion_time r < t /\
      (total_seconds (t - ftp_completion_time r)%Z
         <= time_tolerance_seconds_conn)%Q /\
      (exists e,
         ftp_timestamp e = t /\
         first_such
           (conn_close_candidate time_tolerance_seconds_conn
              (ftp_completion_time r))
           ftp_events e) /\
      (ftp_sorted ftp_events ->
       forall e, e ∈ ftp_events ->
         conn_close_candidate time_tolerance_seconds_conn
           (ftp_completion_time r) e ->
         t <= ftp_timestamp e)
  | None =>
      forall e, e ∈ ftp_events ->
        ~ conn_close_candidate time_tolerance_seconds_conn
            (ftp_completion_time r) e
  end.
Proof.
  intros [k Hk]%list_elem_of_lookup.
  apply analyze_transfers_emitted in Hk as (i & Hem & _).
  apply emitted_row in Hem as (ev & s & c & lc & _ & _ & _ & _ & ->).
  simpl.
  pose proof (find_conn_closed_spec ftp_events
                time_tolerance_seconds_conn c) as Hspec.
  destruct (find_conn_closed _ _ _) as [t|]; [|done].
  destruct Hspec as (e & <- & Hfirst).
  pose proof Hfirst as (_ & _ & _ & (_ & Hlt & Htol) & _).
  split; [done|]. split; [done|]. split; [by exists e|].
  intros Hsorted e' [n Hn]%list_elem_of_lookup Hcand.
  apply first_such_lookup in Hfirst as (j & Hj & _ & Hmin).
  eapply (Hsorted j n); [|done..]. by eapply Hmin.
Qed.

Lemma connection_closed_nearest_after_completion_witness :
  ftp_completion_time session_row < 56000000 /\
  (total_seconds (56000000 - ftp_completion_time session_row)%Z <= 30)%Q /\
  (forall e, e ∈ session_ftp ->
     conn_close_candidate 30 (ftp_completion_time session_row) e ->
     56000000 <= ftp_timestamp e).
Proof.
  pose proof (connection_closed_nearest_after_completion session_mqtt
                session_ftp 10000000 30%Q quiet_world session_row
                session_row_emitted) as H.
  simpl in H. destruct H as (H1 & H2 & _ & H4).
  exact (conj H1 (conj H2 (H4 session_ftp_sorted))).
Defined.

(** ** Order of the rows and accounting of the messages *)

Lemma prefix_length_mono mqtt_events ftp_events time_tolerance_stor
    time_tolerance_seconds_conn w n m :
  (n <= m)%nat ->
  (length (analysis_results
             (analyze_prefix mqtt_events ftp_events time_tolerance_stor
                time_tolerance_seconds_conn w n))
   <= length (analysis_results
                (analyze_prefix mqtt_events ftp_events
                   time_tolerance_stor time_tolerance_seconds_conn
                   w m)))%nat.
Proof.
  induction 1 as [|m _ IH]; [done|].
  destruct (prefix_results_step mqtt_events ftp_events
              time_tolerance_stor time_tolerance_seconds_conn w m)
    as [->|[r ->]]; [done|].
  rewrite length_app. simpl. lia.
Qed.

(** A later row is appended by a later iteration. *)
Lemma rows_in_message_order mqtt_events ftp_events time_tolerance_stor
    time_tolerance_seconds_conn w k k' r r' :
  let rows :=
    (analyze_transfers mqtt_events ftp_events time_tolerance_stor
       time_tolerance_seconds_conn w).1 in
  rows !! k = Some r -> rows !! k' = Some r' -> (k < k')%nat ->
  exists i i',
    (i < i')%nat /\
    emits mqtt_events ftp_events time_tolerance_stor
      time_tolerance_seconds_conn w i r /\
    emits mqtt_events ftp_events time_tolerance_stor
      time_tolerance_seconds_conn w i' r'.
Proof.
  simpl. intros Hk Hk' Hlt.
  apply analyze_transfers_emitted in Hk as (i & Hem & Hlen).
  apply analyze_transfers_emitted in Hk' as (i' & Hem' & Hlen').
  exists i, i'. split; [|done].
  destruct (decide (i < i')%nat) as [|Hge]; [done|].
  pose proof (prefix_length_mono mqtt_events ftp_events
                time_tolerance_stor time_tolerance_seconds_conn w i' i
                ltac:(lia)).
  lia.
Qed.

(** X3. When the message list and the FTP list are both sorted by time,
    the rows of the result are in non-decreasing order of their 'true'
    time, of their STOR time and of their completion time. *)
Theorem rows_sorted_by_time
    mqtt_events ftp_events time_tolerance_stor time_tolerance_seconds_conn
    w k k' r r' :
  mqtt_sorted mqtt_events ->
  ftp_sorted ftp_events ->
  (analyze_transfers mqtt_events ftp_events time_tolerance_stor
     time_tolerance_seconds_conn w).1 !! k = Some r ->
  (analyze_transfers mqtt_events ftp_events time_tolerance_stor
     time_tolerance_seconds_conn w).1 !! k' = Some r' ->
  (k < k')%nat ->
  mqtt_true_time r <= mqtt_true_time r' /\
  ftp_stor_time r <= ftp_stor_time r' /\
  ftp_completion_time r <= ftp_completion_time r'.
Proof.
  intros Hmqtt Hftp Hk Hk' Hlt.
  destruct (rows_in_message_order _ _ _ _ _ _ _ _ _ Hk Hk' Hlt)
    as (i & i' & Hii & Hem & Hem').
  apply emitted_row in Hem
    as (ev & s & c & lc & Hev & _ & Hs & Hc & ->).
  apply emitted_row in Hem'
    as (ev' & s' & c' & lc' & Hev' & _ & Hs' & Hc' & ->).
  simpl.
  assert (mqtt_timestamp ev <= mqtt_timestamp ev') as Hon
    by (eapply (Hmqtt i i'); [lia|done..]).
  apply first_such_lookup in Hs as (j & Hj & [_ Hwin] & Hjmin).
  apply first_such_lookup in Hs' as (j' & Hj' & [Hty' Hwin'] & _).
  apply first_such_lookup in Hc as (n & Hn & [_ Hafter] & Hnmin).
  apply first_such_lookup in Hc' as (n' & Hn' & [Hcty' Hafter'] & _).
  assert (ftp_timestamp s <= ftp_timestamp s') as Hstor.
  { destruct (decide (ftp_timestamp s'
                      <= mqtt_timestamp ev + time_tolerance_stor))
      as [Hin|Hout]; [|lia].
    eapply (Hftp j j'); [|done..].
    apply (Hjmin j' s' Hj'). split; [done|lia]. }
  split; [done|]. split; [done|].
  eapply (Hftp n n'); [|done..].
  apply (Hnmin n' c' Hn'). split; [done|lia].
Qed.

Lemma scenario_mqtt_sorted : mqtt_sorted scenario_mqtt.
Proof.
  intros j k e e' Hjk Hj Hk.
  destruct j as [|[|[|j]]]; destruct k as [|[|[|k]]];
    simpl in Hj, Hk; simplify_eq; simpl; lia.
Qed.

Lemma rows_sorted_by_time_witness :
  mqtt_true_time scenario_first <= mqtt_true_time scenario_second /\
  ftp_stor_time scenario_first <= ftp_stor_time scenario_second /\
  ftp_completion_time scenario_first
    <= ftp_completion_time scenario_second.
Proof.
  apply (rows_sorted_by_time scenario_mqtt scenario_ftp 10000000 30%Q
           quiet_world 0%nat 1%nat scenario_first scenario_second
           scenario_mqtt_sorted scenario_ftp_sorted eq_refl eq_refl).
  lia.
Defined.

Section LogAccounting.

Variables (mqtt_events : list mqtt_event) (ftp_events : list ftp_event).
Variables (time_tolerance_stor : timedelta)
          (time_tolerance_seconds_conn : Q).



End LogAccounting.


(* ================================================================== *)
(** * Part VII: further properties of the report                       *)
(* ================================================================== *)


(* ================================================================== *)
(** * Part VIII: further properties of the metrics                     *)
(* ================================================================== *)

(** ** Counters *)





(** ** The FTP-layer fallback *)

Lemma map_test_lookup (f : string -> bool) (v : list string) (i : nat) :
  map f v !! i = Some true <-> exists s, v !! i = Some s /\ f s = true.
Proof.
  rewrite list_lookup_fmap. destruct (v !! i) as [s|]; simpl.
  - split; [intros [= H]; by exists s | by intros (s' & [= <-] & ->)].
  - split; [done | by intros (s' & [=] & _)].
Qed.

Lemma get_str_mask_lookup (df : DataFrame) (name : string)
    (f : string -> bool) (mask : list bool) (i : nat) :
  get_str_mask df name f = inr mask ->
  mask !! i = Some true <->
  exists v s, df !! name = Some (Text v) /\ v !! i = Some s /\ f s = true.
Proof.
  unfold get_str_mask.
  destruct (df !! name) as [[v|v|v]|] eqn:Hcol; simpl; try done.
  - intros [= <-]. rewrite map_test_lookup. split.
    + intros (s & Hs & Hf). by exists v, s.
    + intros (v' & s & [= <-] & Hs & Hf). by exists s.
  - intros [= <-]. split; [done|]. by intros (v & s & [=] & _).
Qed.

Lemma ftp_open_mask (df : DataFrame) (codes : list string)
    (users : list bool) (i : nat) :
  df !! "ftp.response.code" = Some (Text codes) ->
  get_str_mask df "ftp.request.command"
    (fun s => contains "USER" (upper s)) = inr users ->
  ftp_open_rows df i <->
  mask_or (map (fun s => startswith "220" s || startswith "230" s) codes)
          users !! i = Some true.
Proof.
  intros Hcode Husers. unfold ftp_open_rows.
  rewrite mask_or_lookup, map_test_lookup,
          (get_str_mask_lookup _ _ _ _ i Husers).
  split.
  - intros [(v & s & Hv & Hs & Hf)|H]; [left|by right].
    simplify_eq. exists s. split; [done|]. by apply orb_true_iff.
  - intros [(s & Hs & Hf)|H]; [left|by right].
    exists codes, s. split; [done|]. split; [done|].
    by apply orb_true_iff.
Qed.

Lemma ftp_close_mask (df : DataFrame) (commands : list string)
    (goodbyes : list bool) (i : nat) :
  df !! "ftp.request.command" = Some (Text commands) ->
  get_str_mask df "ftp.response.code" (startswith "221") = inr goodbyes ->
  ftp_close_rows df i <->
  mask_or (map (fun s => contains "QUIT" (upper s)) commands)
          goodbyes !! i = Some true.
Proof.
  intros Hcmd Hbye. unfold ftp_close_rows.
  rewrite mask_or_lookup, map_test_lookup,
          (get_str_mask_lookup _ _ _ _ i Hbye).
  split.
  - intros [(v & s & Hv & Hs & Hf)|H]; [left|by right].
    simplify_eq. by exists s.
  - intros [(s & Hs & Hf)|H]; [left|by right].
    by exists commands, s.
Qed.

Lemma fallback_opened_spec (df : DataFrame) (o : option Z) :
  fallback_opened df None = inr o ->
  (in_columns "ftp.response.code" df = true ->
   earliest_of (ftp_open_rows df) df o) /\
  (in_columns "ftp.response.code" df = false -> o = None).
Proof.
  unfold fallback_opened, in_columns, getitem.
  destruct (df !! "ftp.response.code") as [code|] eqn:Hcode; simpl.
  - destruct code as [v|codes|v]; simpl; try done.
    destruct (get_str_mask df "ftp.request.command" _)
      as [|users] eqn:Husers; [done|].
    cbn [bind]. intros H. split; [intros _|done].
    revert H. apply detect_earliest. intros i.
    by apply ftp_open_mask.
  - intros [= <-]. done.
Qed.

Lemma fallback_closed_spec (df : DataFrame) (c : option Z) :
  fallback_closed df None = inr c ->
  (in_columns "ftp.request.command" df = true ->
   latest_of (ftp_close_rows df) df c) /\
  (in_columns "ftp.request.command" df = false -> c = None).
Proof.
  unfold fallback_closed, in_columns, getitem.
  destruct (df !! "ftp.request.command") as [command|] eqn:Hcmd; simpl.
  - destruct command as [v|commands|v]; simpl; try done.
    destruct (get_str_mask df "ftp.response.code" _)
      as [|goodbyes] eqn:Hbye; [done|].
    cbn [bind]. intros H. split; [intros _|done].
    revert H. apply detect_latest. intros i.
    by apply ftp_close_mask.
  - intros [= <-]. done.
Qed.

(** X10. When the TCP flags give no open time, the reported open time
    comes from the FTP layer: with a response-code column it is the
    earliest time among the rows whose response code starts with 220 or
    230 or whose command contains USER, and without that column there is
    none, whatever the commands are. When the TCP flags give no close
    time, the reported close time is, with a command column, the latest
    time among the rows whose command contains QUIT or whose response
    code starts with 221, and without a command column there is none. *)
Theorem ftp_layer_fallback (df : DataFrame) (duration_s : Q)
    (rtt_field : option string) (camera_ips : list string) (m : metrics) :
  calculate_metrics df duration_s rtt_field camera_ips = inr m ->
  (primary_opened df camera_ips = inr None ->
   exists o,
     ftp_conn_opened_timestamp m = format_timestamp o /\
     (in_columns "ftp.response.code" df = true ->
      earliest_of (ftp_open_rows df) df o) /\
     (in_columns "ftp.response.code" df = false -> o = None)) /\
  (primary_closed df camera_ips = inr None ->
   exists c,
     ftp_conn_closed_timestamp m = format_timestamp c /\
     (in_columns "ftp.request.command" df = true ->
      latest_of (ftp_close_rows df) df c) /\
     (in_columns "ftp.request.command" df = false -> c = None)).
Proof.
  unfold calculate_metrics. intros H. bind_inv H.
  injection H as <-. simpl. split.
  - intros Hnone. simplify_eq. eexists. split; [done|].
    by apply fallback_opened_spec.
  - intros Hnone. simplify_eq. eexists. split; [done|].
    by apply fallback_closed_spec.
Qed.

Lemma ftp_layer_fallback_witness :
  exists m o c,
    calculate_metrics ftp_only_session 5 None ["10.0.0.1"] = inr m /\
    ftp_conn_opened_timestamp m = format_timestamp o /\
    earliest_of (ftp_open_rows ftp_only_session) ftp_only_session o /\
    ftp_conn_closed_timestamp m = format_timestamp c /\
    latest_of (ftp_close_rows ftp_only_session) ftp_only_session c.
Proof.
  assert (exists m,
            calculate_metrics ftp_only_session 5 None ["10.0.0.1"]
            = inr m) as [m Hm]
    by (eexists; vm_compute; reflexivity).
  destruct (ftp_layer_fallback _ _ _ _ _ Hm) as [Hopen Hclose].
  destruct (Hopen eq_refl) as (o & Ho & Hrows & _).
  destruct (Hclose eq_refl) as (c & Hc & Hcrows & _).
  exists m, o, c.
  exact (conj Hm (conj Ho (conj (Hrows eq_refl)
           (conj Hc (Hcrows eq_refl))))).
Defined.

(** ** When [calculate_metrics] returns *)

Lemma counter_total (df : DataFrame) (name : string) :
  numeric_or_absent df name -> exists n, counter df name = inr n.
Proof.
  unfold numeric_or_absent, counter, in_columns, getitem.
  destruct (df !! name) as [[v|v|v]|]; try done; by eexists.
Qed.

Lemma throughput_total (df : DataFrame) (duration_s : Q) :
  numeric_or_absent df "frame.len" ->
  exists x, throughput df duration_s = inr x.
Proof.
  unfold numeric_or_absent, throughput, in_columns, getitem.
  destruct (df !! "frame.len") as [[v|v|v]|]; try done;
    destruct (py_gt duration_s 0); by eexists.
Qed.

Lemma average_rtt_total (df : DataFrame) (rtt_field : option string) :
  (forall name, rtt_field = Some name -> numeric_or_absent df name) ->
  exists x, average_rtt df rtt_field = inr x.
Proof.
  intros Hrtt. unfold average_rtt. destruct rtt_field as [name|];
    [|by eexists].
  specialize (Hrtt name eq_refl).
  unfold numeric_or_absent, in_columns, getitem in *.
  destruct (df !! name) as [[v|v|v]|]; try done; [|by eexists].
  cbn [bind]. destruct (dropna_empty _); by eexists.
Qed.

Lemma get_str_mask_total (df : DataFrame) (name : string)
    (f : string -> bool) :
  text_or_absent df name -> exists mask, get_str_mask df name f = inr mask.
Proof.
  unfold text_or_absent, get_str_mask.
  destruct (df !! name) as [[v|v|v]|]; try done; by eexists.
Qed.

Lemma fallback_opened_total (df : DataFrame) (opened_ts : option Z)
    (v : list (option Z)) :
  text_or_absent df "ftp.response.code" ->
  text_or_absent df "ftp.request.command" ->
  df !! "frame.time" = Some (Datetime v) ->
  exists o, fallback_opened df opened_ts = inr o.
Proof.
  intros Hcode Hcmd Hft. unfold fallback_opened.
  destruct (_ && _) eqn:Hguard; [|by eexists].
  apply andb_true_iff in Hguard as [_ Hin].
  unfold text_or_absent, in_columns, getitem in *.
  destruct (df !! "ftp.response.code") as [[c|c|c]|]; try done.
  cbn [bind str_accessor].
  destruct (get_str_mask_total df "ftp.request.command"
              (fun s => contains "USER" (upper s))) as [users ->].
  { unfold text_or_absent.
    by destruct (df !! "ftp.request.command") as [[?|?|?]|]. }
  cbn [bind]. destruct (selection_empty _); cbn [negb]; [by eexists|].
  rewrite (selected_frame_time_total _ _ _ Hft). by eexists.
Qed.

Lemma fallback_closed_total (df : DataFrame) (closed_ts : option Z)
    (v : list (option Z)) :
  text_or_absent df "ftp.response.code" ->
  text_or_absent df "ftp.request.command" ->
  df !! "frame.time" = Some (Datetime v) ->
  exists c, fallback_closed df closed_ts = inr c.
Proof.
  intros Hcode Hcmd Hft. unfold fallback_closed.
  destruct (_ && _) eqn:Hguard; [|by eexists].
  apply andb_true_iff in Hguard as [_ Hin].
  unfold text_or_absent, in_columns, getitem in *.
  destruct (df !! "ftp.request.command") as [[c|c|c]|]; try done.
  cbn [bind str_accessor].
  destruct (get_str_mask_total df "ftp.response.code"
              (startswith "221")) as [goodbyes ->].
  { unfold text_or_absent.
    by destruct (df !! "ftp.response.code") as [[?|?|?]|]. }
  cbn [bind]. destruct (selection_empty _); cbn [negb]; [by eexists|].
  rewrite (selected_frame_time_total _ _ _ Hft). by eexists.
Qed.

(** X11. [calculate_metrics] returns without an exception on every
    table in which the counter columns, [frame.len] and the RTT column
    are numeric where present, the two FTP columns hold strings where
    present, [frame.time] is present and holds timestamps, and the
    RESET flag is present whenever the FIN flag and both address columns
    are. *)
Theorem calculate_metrics_returns (df : DataFrame) (duration_s : Q)
    (rtt_field : option string) (camera_ips : list string)
    (v : list (option Z)) :
  numeric_or_absent df "tcp.analysis.retransmission" ->
  numeric_or_absent df "tcp.analysis.zero_window" ->
  numeric_or_absent df "tcp.analysis.window_full" ->
  numeric_or_absent df "tcp.analysis.lost_segment" ->
  numeric_or_absent df "tcp.analysis.duplicate_ack" ->
  numeric_or_absent df "frame.len" ->
  (forall name, rtt_field = Some name -> numeric_or_absent df name) ->
  text_or_absent df "ftp.response.code" ->
  text_or_absent df "ftp.request.command" ->
  df !! "frame.time" = Some (Datetime v) ->
  (in_columns "tcp.flags.fin" df && in_columns "ip.src" df
     && in_columns "ip.dst" df = true ->
   in_columns "tcp.flags.reset" df = true) ->
  exists m, calculate_metrics df duration_s rtt_field camera_ips = inr m.
Proof.
  intros H1 H2 H3 H4 H5 Hlen Hrtt Hcode Hcmd Hft Hrst.
  unfold calculate_metrics.
  destruct (counter_total _ _ H1) as [? ->].
  destruct (counter_total _ _ H2) as [? ->].
  destruct (counter_total _ _ H3) as [? ->].
  destruct (counter_total _ _ H4) as [? ->].
  destruct (counter_total _ _ H5) as [? ->].
  destruct (throughput_total _ duration_s Hlen) as [? ->].
  destruct (average_rtt_total _ _ Hrtt) as [? ->].
  destruct (primary_opened_total df camera_ips v Hft) as [o ->].
  cbn [bind].
  assert (exists c, primary_closed df camera_ips = inr c) as [c ->].
  { destruct (in_columns "tcp.flags.fin" df && in_columns "ip.src" df
              && in_columns "ip.dst" df) eqn:Hguard.
    - eapply primary_closed_total; [done|]. by apply Hrst.
    - exists None. by apply primary_closed_unguarded. }
  cbn [bind].
  destruct (fallback_opened_total df o v Hcode Hcmd Hft) as [o' ->].
  destruct (fallback_closed_total df c v Hcode Hcmd Hft) as [c' ->].
  cbn [bind]. by eexists.
Qed.

Lemma calculate_metrics_returns_witness :
  exists m,
    calculate_metrics camera_session 5 (Some "tcp.analysis.ack_rtt")
      ["10.0.0.1"] = inr m.
Proof.
  apply (calculate_metrics_returns camera_session 5
           (Some "tcp.analysis.ack_rtt") ["10.0.0.1"]
           [Some 5000; Some 9000]);
    try exact I; try reflexivity.
  intros name [= <-]. exact I.
Defined.

(* ================================================================== *)
(** * Part IX: properties of [parse_wireshark_ftp_log]                 *)
(* ================================================================== *)

(** ** The stable sort *)

Lemma filter_none {A} (f : A -> bool) (l : list A) :
  (forall a, a ∈ l -> f a = false) -> List.filter f l = [].
Proof.
  induction l as [|x l IH]; intros H; simpl; [done|].
  rewrite (H x (list_elem_of_here _ _)).
  apply IH. intros a Ha. by apply H, list_elem_of_further.
Qed.

Section SortedBy.

Context {A : Type} (key : A -> Z).

Let le_key (a b : A) : Prop := key a <= key b.

Lemma insert_by_perm (x : A) (l : list A) : insert_by key x l ≡ₚ x :: l.
Proof.
  induction l as [|y l IH]; simpl; [done|].
  destruct (key x <? key y); [done|].
  rewrite IH. apply Permutation_swap.
Qed.

Lemma sorted_by_perm_acc (l acc : list A) :
  fold_left (fun acc x => insert_by key x acc) l acc ≡ₚ acc ++ l.
Proof.
  revert acc. induction l as [|x l IH]; intros acc; simpl.
  - by rewrite app_nil_r.
  - rewrite IH, insert_by_perm. simpl. apply Permutation_middle.
Qed.

Lemma sorted_by_perm (l : list A) : sorted_by key l ≡ₚ l.
Proof. unfold sorted_by. by rewrite sorted_by_perm_acc. Qed.

Lemma insert_by_sorted (x : A) (l : list A) :
  StronglySorted le_key l -> StronglySorted le_key (insert_by key x l).
Proof.
  induction 1 as [|y l Hl IH Hy]; simpl.
  - repeat constructor.
  - destruct (key x <? key y) eqn:Hlt.
    + apply Z.ltb_lt in Hlt. constructor; [by constructor|].
      constructor; [unfold le_key; lia|].
      eapply Forall_impl; [exact Hy|]. unfold le_key. intros; simpl in *; lia.
    + apply Z.ltb_ge in Hlt. constructor; [done|].
      rewrite insert_by_perm. by constructor.
Qed.

Lemma sorted_by_sorted_acc (l acc : list A) :
  StronglySorted le_key acc ->
  StronglySorted le_key
    (fold_left (fun acc x => insert_by key x acc) l acc).
Proof.
  revert acc. induction l as [|x l IH]; intros acc Hacc; simpl; [done|].
  by apply IH, insert_by_sorted.
Qed.

Lemma strongly_sorted_lookup (l : list A) :
  StronglySorted le_key l ->
  forall j k a b,
    (j <= k)%nat -> l !! j = Some a -> l !! k = Some b -> key a <= key b.
Proof.
  induction 1 as [|y l Hl IH Hy]; intros j k a b Hjk Hj Hk.
  - by rewrite lookup_nil in Hj.
  - destruct j as [|j], k as [|k]; simpl in *.
    + simplify_eq. lia.
    + simplify_eq. rewrite Forall_forall in Hy.
      apply Hy. by eapply list_elem_of_lookup_2.
    + lia.
    + eapply (IH j k); [lia|done..].
Qed.

Lemma sorted_by_lookup (l : list A) :
  forall j k a b,
    (j <= k)%nat ->
    sorted_by key l !! j = Some a -> sorted_by key l !! k = Some b ->
    key a <= key b.
Proof.
  apply strongly_sorted_lookup, sorted_by_sorted_acc. constructor.
Qed.

(** Among equal keys the original order is kept. *)
Lemma insert_by_filter (k : Z) (x : A) (l : list A) :
  StronglySorted le_key l ->
  List.filter (fun a => key a =? k) (insert_by key x l)
  = List.filter (fun a => key a =? k) l
    ++ (if key x =? k then [x] else []).
Proof.
  induction 1 as [|y l Hl IH Hy]; simpl.
  - by destruct (key x =? k).
  - destruct (key x <? key y) eqn:Hlt; simpl.
    + apply Z.ltb_lt in Hlt.
      destruct (key x =? k) eqn:Hx; [|by rewrite app_nil_r].
      apply Z.eqb_eq in Hx.
      assert (List.filter (fun a => key a =? k) (y :: l) = []) as Hnone.
      { apply filter_none. intros a Ha. apply Z.eqb_neq.
        apply elem_of_cons in Ha as [->|Ha]; [lia|].
        rewrite Forall_forall in Hy.
        apply Hy in Ha. unfold le_key in Ha. lia. }
      simpl in Hnone. by rewrite Hnone.
    + rewrite IH. by destruct (key y =? k).
Qed.

Lemma sorted_by_filter_acc (k : Z) (l acc : list A) :
  StronglySorted le_key acc ->
  List.filter (fun a => key a =? k)
    (fold_left (fun acc x => insert_by key x acc) l acc)
  = List.filter (fun a => key a =? k) acc
    ++ List.filter (fun a => key a =? k) l.
Proof.
  revert acc. induction l as [|x l IH]; intros acc Hacc; simpl.
  - by rewrite app_nil_r.
  - rewrite IH by by apply insert_by_sorted.
    rewrite insert_by_filter by done.
    rewrite <- app_assoc. by destruct (key x =? k).
Qed.

Lemma sorted_by_stable (k : Z) (l : list A) :
  List.filter (fun a => key a =? k) (sorted_by key l)
  = List.filter (fun a => key a =? k) l.
Proof. unfold sorted_by. rewrite sorted_by_filter_acc; [done|constructor]. Qed.

End SortedBy.

(** ** From rows to events *)

Lemma parse_wireshark_row_event strptime st row :
  (parse_wireshark_row strptime st row).1
  = st.1 ++ option_list (row_event strptime row).
Proof.
  destruct st as [evs w], row as [ts info]. unfold parse_wireshark_row,
    row_event.
  destruct (contains " " ts && contains "." ts).
  - destruct (strptime ts _) as [dt|]; simpl; [|by rewrite app_nil_r].
    destruct (classify_info info) as [[ty fn]|]; simpl;
      [done|by rewrite app_nil_r].
  - destruct (contains " " ts); simpl; [|by rewrite app_nil_r].
    destruct (strptime ts _) as [dt|]; simpl; [|by rewrite app_nil_r].
    destruct (classify_info info) as [[ty fn]|]; simpl;
      [done|by rewrite app_nil_r].
Qed.

Lemma parse_wireshark_fold strptime rows st :
  (fold_left (parse_wireshark_row strptime) rows st).1
  = st.1 ++ omap (row_event strptime) rows.
Proof.
  revert st. induction rows as [|row rows IH]; intros st; simpl.
  - by rewrite app_nil_r.
  - rewrite IH, parse_wireshark_row_event, <- app_assoc.
    by destruct (row_event strptime row).
Qed.

Lemma parse_wireshark_rows_events strptime rows w :
  (parse_wireshark_rows strptime rows w).1
  = sorted_by ftp_timestamp (omap (row_event strptime) rows).
Proof.
  unfold parse_wireshark_rows.
  pose proof (parse_wireshark_fold strptime rows ([], w)) as H.
  destruct (fold_left _ rows _) as [evs w']. simpl in *. by subst evs.
Qed.

(** X12. The events returned by [parse_wireshark_ftp_log] are in
    non-decreasing order of time; they are, up to order, the events of
    the rows whose timestamp parses and whose Info text names an FTP
    event, one per row; and events that carry the same time stay in the
    order of their rows. *)
Theorem parsed_ftp_events_sorted_stable
    (strptime : string -> string -> option datetime)
    (rows : list (string * string)) (w : World) :
  let events := (parse_wireshark_rows strptime rows w).1 in
  ftp_sorted events /\
  events ≡ₚ omap (row_event strptime) rows /\
  forall t,
    List.filter (fun e => ftp_timestamp e =? t) events
    = List.filter (fun e => ftp_timestamp e =? t)
        (omap (row_event strptime) rows).
Proof.
  intros events. subst events. rewrite parse_wireshark_rows_events.
  split; [|split].
  - unfold ftp_sorted. apply sorted_by_lookup.
  - apply sorted_by_perm.
  - intros t. apply sorted_by_stable.
Qed.

Lemma classify_info_kinds (info_str : string) (ty : string)
    (fn : option string) :
  classify_info info_str = Some (ty, fn) ->
  (ty = "STOR" /\ is_Some fn) \/
  ((ty = "COMPLETION" \/ ty = "CONN_OPEN" \/ ty = "CONN_CLOSE")
   /\ fn = None).
Proof.
  unfold classify_info.
  repeat match goal with
         | |- context [if ?b then _ else _] => destruct b
         end; intros [= <- <-]; eauto 6.
Qed.

(** X13. Every event returned by [parse_wireshark_ftp_log] is a STOR
    with a filename, or a COMPLETION, a CONN_OPEN or a CONN_CLOSE without
    one; and a row yields no event unless its timestamp has a space. *)
Theorem parsed_ftp_events_kinds
    (strptime : string -> string -> option datetime)
    (rows : list (string * string)) (w : World) (e : ftp_event) :
  e ∈ (parse_wireshark_rows strptime rows w).1 ->
  ((ftp_type e = "STOR" /\ is_Some (ftp_filename e)) \/
   ((ftp_type e = "COMPLETION" \/ ftp_type e = "CONN_OPEN"
     \/ ftp_type e = "CONN_CLOSE") /\ ftp_filename e = None)) /\
  exists timestamp_str info_str,
    (timestamp_str, info_str) ∈ rows /\
    contains " " timestamp_str = true /\
    row_event strptime (timestamp_str, info_str) = Some e.
Proof.
  rewrite parse_wireshark_rows_events, sorted_by_perm.
  intros ([ts info] & Hrow & Hev)%list_elem_of_omap.
  split.
  - unfold row_event in Hev.
    destruct (if contains " " ts && contains "." ts then _ else _)
      as [dt|]; [|done]. simpl in Hev.
    destruct (classify_info info) as [[ty fn]|] eqn:Hcl; [|done].
    simpl in Hev. injection Hev as <-. simpl.
    by apply (classify_info_kinds info).
  - exists ts, info. split; [done|]. split; [|done].
    unfold row_event in Hev.
    destruct (contains " " ts); [done|].
    by rewrite andb_false_l in Hev.
Qed.

Lemma parsed_ftp_events_kinds_witness :
  (ftp_type (FtpEvent "STOR" 2 (Some "img_001.jpg")) = "STOR" /\
   is_Some (ftp_filename (FtpEvent "STOR" 2 (Some "img_001.jpg")))) \/
  ((ftp_type (FtpEvent "STOR" 2 (Some "img_001.jpg")) = "COMPLETION"
    \/ ftp_type (FtpEvent "STOR" 2 (Some "img_001.jpg")) = "CONN_OPEN"
    \/ ftp_type (FtpEvent "STOR" 2 (Some "img_001.jpg")) = "CONN_CLOSE")
   /\ ftp_filename (FtpEvent "STOR" 2 (Some "img_001.jpg")) = None).
Proof.
  apply (parsed_ftp_events_kinds unary_time sample_rows quiet_world
           (FtpEvent "STOR" 2 (Some "img_001.jpg"))).
  vm_compute. apply list_elem_of_further, list_elem_of_here.
Defined.



(* ================================================================== *)
(** * Part X: properties of [analyze_tshark_capture]                   *)
(* ================================================================== *)

(** ** Which cameras are reported *)

Lemma any_eq_str (c : column) (ip : string) :
  any (eq_str c ip) = true <->
  exists v i, c = Text v /\ v !! i = Some ip.
Proof.
  unfold any. rewrite existsb_exists. split.
  - intros (b & Hb%list_elem_of_In & ->).
    apply list_elem_of_lookup in Hb as [i Hi].
    destruct c as [v|v|v]; simpl in Hi; rewrite list_lookup_fmap in Hi.
    + by destruct (v !! i).
    + destruct (v !! i) as [s|] eqn:Hs; [|done]. simpl in Hi.
      injection Hi as Hi. apply String.eqb_eq in Hi as ->. by exists v, i.
    + by destruct (v !! i).
  - intros (v & i & -> & Hi). exists true. split; [|done].
    apply list_elem_of_In, list_elem_of_lookup. exists i. simpl.
    rewrite list_lookup_fmap, Hi. simpl. by rewrite String.eqb_refl.
Qed.

Lemma ip_seen_spec (df : DataFrame) (ip : string) (b : bool) :
  ip_seen df ip = inr b -> b = true <-> address_occurs df ip.
Proof.
  unfold ip_seen, getitem, address_occurs.
  destruct (df !! "ip.src") as [src|] eqn:Hsrc; [|done]. cbn [bind].
  destruct (any (eq_str src ip)) eqn:Hany.
  - intros [= <-]. split; [intros _|done].
    apply any_eq_str in Hany as (v & i & -> & Hi).
    exists "ip.src", v, i. auto.
  - destruct (df !! "ip.dst") as [dst|] eqn:Hdst; [|done]. cbn [bind].
    intros [= <-]. rewrite any_eq_str. split.
    + intros (v & i & -> & Hi). exists "ip.dst", v, i. auto.
    + intros (name & v & i & [-> | ->] & Hcol & Hi).
      * assert (any (eq_str src ip) = true) as Htrue; [|congruence].
        apply any_eq_str. exists v, i. split; [congruence|done].
      * exists v, i. split; [congruence|done].
Qed.

Lemma seen_ips_spec (df : DataFrame) (configured ips : list string) :
  seen_ips df configured = inr ips ->
  (length ips <= length configured)%nat /\
  forall ip, ip ∈ ips <-> ip ∈ configured /\ address_occurs df ip.
Proof.
  revert ips. induction configured as [|c rest IH]; intros ips; simpl.
  - intros [= <-]. split; [done|]. intros ip.
    split; [by intros ?%elem_of_nil | by intros [?%elem_of_nil _]].
  - destruct (ip_seen df c) as [|seen] eqn:Hseen; [done|]. cbn [bind].
    destruct (seen_ips df rest) as [|ips'] eqn:Hrest; [done|].
    cbn [bind]. intros [= <-].
    destruct (IH ips' eq_refl) as [Hlen Hmem].
    pose proof (ip_seen_spec df c seen Hseen) as Hc.
    destruct seen.
    + split; [simpl; lia|]. intros ip.
      rewrite !elem_of_cons, Hmem. split.
      * intros [->|[? ?]]; [|tauto]. split; [by left|by apply Hc].
      * intros [[->|?] ?]; [by left|right; tauto].
    + split; [lia|]. intros ip. rewrite elem_of_cons, Hmem. split.
      * tauto.
      * intros [[->|?] Hocc]; [|tauto].
        apply Hc in Hocc. discriminate Hocc.
Qed.

Lemma remove_dups_length (l : list string) :
  (length (remove_dups l) <= length l)%nat.
Proof.
  induction l as [|x l IH]; simpl; [done|].
  destruct (decide_rel _ x l); simpl; lia.
Qed.

Lemma per_camera_metrics_spec (df : DataFrame) (d : Q)
    (rtt_field : option string) (ips : list string)
    (l : list (string * camera_metrics)) :
  per_camera_metrics df d rtt_field ips = inr l ->
  l.*1 = ips /\
  forall ip cm,
    (ip, cm) ∈ l ->
    num_cameras_detected cm = 1%nat /\
    exists df_cam,
      camera_frame df ip = inr df_cam /\
      calculate_metrics df_cam d rtt_field [ip] = inr (network cm).
Proof.
  revert l. induction ips as [|ip ips IH]; intros l; simpl.
  - intros [= <-]. split; [done|]. by intros ip cm ?%elem_of_nil.
  - destruct (camera_frame df ip) as [|df_cam] eqn:Hframe; [done|].
    cbn [bind].
    destruct (calculate_metrics df_cam d rtt_field [ip])
      as [|m] eqn:Hm; [done|]. cbn [bind].
    destruct (per_camera_metrics df d rtt_field ips) as [|l'] eqn:Hrest;
      [done|]. cbn [bind]. intros [= <-].
    destruct (IH l' eq_refl) as [Hfst Hall].
    split; [rewrite fmap_cons; simpl; by f_equal|].
    intros ip' cm [[= -> ->]|Hin]%elem_of_cons.
    + split; [done|]. by exists df_cam.
    + by apply Hall.
Qed.

(** X15. The cameras reported by [analyze_tshark_capture] are
    configured addresses, each listed once and each counted as one
    camera; their number is the overall camera count and does not exceed
    the number of configured addresses. When the analysis ends without
    an exception, the reported cameras are exactly the configured
    addresses that occur as a source or a destination in the table. *)
Theorem reported_cameras (df : DataFrame) (capture_duration_s : Q)
    (rtt_field : option string) (configured_camera_ips : list string) :
  let out :=
    analyze_tshark_capture df capture_duration_s rtt_field
      configured_camera_ips in
  length (per_camera out) = num_cameras_detected (overall out) /\
  (num_cameras_detected (overall out)
   <= length configured_camera_ips)%nat /\
  NoDup (per_camera out).*1 /\
  (forall ip cm,
     (ip, cm) ∈ per_camera out ->
     ip ∈ configured_camera_ips /\ address_occurs df ip /\
     num_cameras_detected cm = 1%nat) /\
  (forall analysis,
     analyze_frame df capture_duration_s rtt_field
       configured_camera_ips = inr analysis ->
     out = analysis /\
     forall ip,
       ip ∈ (per_camera out).*1 <->
       ip ∈ configured_camera_ips /\ address_occurs df ip).
Proof.
  intros out. subst out. unfold analyze_tshark_capture, analyze_frame,
    detected_ips.
  destruct (seen_ips df configured_camera_ips) as [|seen] eqn:Hseen.
  { cbn [bind per_camera overall default_metrics num_cameras_detected].
    split; [done|]. split; [lia|]. split; [constructor|].
    split; [by intros ip cm ?%elem_of_nil | done]. }
  destruct (seen_ips_spec _ _ _ Hseen) as [Hlen Hmem]. cbn [bind].
  destruct (calculate_metrics df _ _ _) as [|m].
  { cbn [bind per_camera overall default_metrics num_cameras_detected].
    split; [done|]. split; [lia|]. split; [constructor|].
    split; [by intros ip cm ?%elem_of_nil | done]. }
  cbn [bind].
  destruct (per_camera_metrics df _ _ (remove_dups seen)) as [|l] eqn:Hper.
  { cbn [bind per_camera overall default_metrics num_cameras_detected].
    split; [done|]. split; [lia|]. split; [constructor|].
    split; [by intros ip cm ?%elem_of_nil | done]. }
  cbn [bind per_camera overall num_cameras_detected].
  destruct (per_camera_metrics_spec _ _ _ _ _ Hper) as [Hfst Hall].
  assert (forall ip, ip ∈ l.*1 <->
            ip ∈ configured_camera_ips /\ address_occurs df ip) as Hiff.
  { intros ip. by rewrite Hfst, elem_of_remove_dups, Hmem. }
  split; [by rewrite <- Hfst, length_fmap|].
  split; [pose proof (remove_dups_length seen); lia|].
  split; [rewrite Hfst; apply NoDup_remove_dups|].
  split.
  - intros ip cm Hin.
    assert (ip ∈ l.*1) as Hip
      by (apply list_elem_of_fmap; by exists (ip, cm)).
    apply Hiff in Hip as [? ?]. split; [done|]. split; [done|].
    by apply (Hall ip cm).
  - intros analysis [= <-]. done.
Qed.

Lemma two_cameras_reported :
  (per_camera
     (analyze_tshark_capture two_cameras 5 None
        ["10.0.0.1"; "10.0.0.2"; "10.0.0.3"; "10.0.0.1"])).*1
  = ["10.0.0.2"; "10.0.0.1"].
Proof. vm_compute. reflexivity. Qed.

Lemma reported_cameras_witness :
  "10.0.0.2" ∈ ["10.0.0.1"; "10.0.0.2"; "10.0.0.3"; "10.0.0.1"] /\
  address_occurs two_cameras "10.0.0.2".
Proof.
  destruct (reported_cameras two_cameras 5 None
              ["10.0.0.1"; "10.0.0.2"; "10.0.0.3"; "10.0.0.1"])
    as (_ & _ & _ & _ & Hok).
  assert (exists analysis,
            analyze_frame two_cameras 5 None
              ["10.0.0.1"; "10.0.0.2"; "10.0.0.3"; "10.0.0.1"]
            = inr analysis) as [analysis Hrun]
    by (eexists; vm_compute; reflexivity).
  destruct (Hok analysis Hrun) as [_ Hiff].
  apply Hiff. rewrite two_cameras_reported. apply list_elem_of_here.
Defined.

(** ** Per-camera counters against the overall counters *)

Lemma fold_Qplus_acc (l : list Q) (a : Q) :
  (fold_left Qplus l a == a + py_sum l)%Q.
Proof.
  unfold py_sum. revert a. induction l as [|x l IH]; intros a; simpl.
  - lra.
  - rewrite (IH (a + x)%Q), (IH (0 + x)%Q). lra.
Qed.

Lemma py_sum_cons (x : Q) (l : list Q) :
  (py_sum (x :: l) == x + py_sum l)%Q.
Proof. unfold py_sum at 1. simpl. rewrite fold_Qplus_acc. lra. Qed.

Lemma select_cons {A} (b : bool) (mask : list bool) (x : A)
    (v : list A) :
  select (b :: mask) (x :: v)
  = if b then x :: select mask v else select mask v.
Proof. unfold select. simpl. by destruct b. Qed.

Lemma notna_cons (x : option Q) (v : list (option Q)) :
  notna (x :: v)
  = match x with Some q => q :: notna v | None => notna v end.
Proof. by destruct x. Qed.

Lemma sum_select_le (mask : list bool) (v : list (option Q)) :
  Forall (fun x => match x with
                   | Some q => (0 <= q)%Q
                   | None => True
                   end) v ->
  (0 <= py_sum (notna (select mask v)) <= py_sum (notna v))%Q.
Proof.
  intros Hv. revert mask.
  induction Hv as [|x v Hx _ IH]; intros mask.
  - assert (select mask (@nil (option Q)) = []) as ->
      by (by destruct mask).
    change (py_sum (notna [])) with 0%Q. lra.
  - destruct mask as [|b mask].
    + change (select [] (x :: v)) with (@nil (option Q)).
      specialize (IH []). change (select [] v) with (@nil (option Q)) in IH.
      change (py_sum (notna [])) with 0%Q in *.
      rewrite notna_cons. destruct x as [q|]; [|done].
      rewrite py_sum_cons. lra.
    + rewrite select_cons. specialize (IH mask).
      destruct b; rewrite ?notna_cons; destruct x as [q|];
        rewrite ?py_sum_cons; lra.
Qed.

Lemma py_int_mono (a b : Q) :
  (0 <= a)%Q -> (a <= b)%Q -> py_int a <= py_int b.
Proof.
  intros Ha Hab.
  assert (forall x, (0 <= x)%Q -> py_int x = Qfloor x) as Hfloor.
  { intros [n d] Hx. unfold py_int, Qfloor. simpl.
    apply Z.quot_div_nonneg; [|done].
    unfold Qle in Hx. simpl in Hx. lia. }
  rewrite !Hfloor by lra. by apply Qfloor_resp_le.
Qed.

Lemma lookup_filter_rows (mask : list bool) (df : DataFrame)
    (name : string) :
  filter_rows mask df !! name = column_select mask <$> df !! name.
Proof. unfold filter_rows. apply lookup_fmap. Qed.

Lemma counter_filter_rows_le (mask : list bool) (df : DataFrame)
    (name : string) (n n' : Z) :
  nonneg_column df name ->
  counter df name = inr n ->
  counter (filter_rows mask df) name = inr n' ->
  n' <= n.
Proof.
  unfold nonneg_column, counter, in_columns, getitem.
  rewrite lookup_filter_rows. intros Hnn.
  destruct (df !! name) as [[v|v|v]|]; simpl; try done.
  - intros [= <-] [= <-].
    destruct (sum_select_le mask v (Hnn v eq_refl)).
    by apply py_int_mono.
  - by intros [= <-] [= <-].
Qed.

Lemma calculate_metrics_counters (df : DataFrame) (d : Q)
    (rtt_field : option string) (ips : list string) (m : metrics) :
  calculate_metrics df d rtt_field ips = inr m ->
  counter df "tcp.analysis.retransmission"
    = inr (total_retransmissions m) /\
  counter df "tcp.analysis.zero_window" = inr (zero_window_count m) /\
  counter df "tcp.analysis.window_full" = inr (window_full_count m) /\
  counter df "tcp.analysis.lost_segment" = inr (lost_segments_count m) /\
  counter df "tcp.analysis.duplicate_ack" = inr (duplicate_ack_count m).
Proof.
  unfold calculate_metrics. intros H. bind_inv H. by injection H as <-.
Qed.

(** X16. When the cells of a counter column are not negative, the
    counter reported for a single camera never exceeds the overall
    counter. *)
Theorem camera_counters_within_overall (df : DataFrame)
    (capture_duration_s : Q) (rtt_field : option string)
    (configured_camera_ips : list string) (ip : string)
    (cm : camera_metrics) :
  let out :=
    analyze_tshark_capture df capture_duration_s rtt_field
      configured_camera_ips in
  (ip, cm) ∈ per_camera out ->
  (nonneg_column df "tcp.analysis.retransmission" ->
   total_retransmissions (network cm)
   <= total_retransmissions (network (overall out))) /\
  (nonneg_column df "tcp.analysis.zero_window" ->
   zero_window_count (network cm)
   <= zero_window_count (network (overall out))) /\
  (nonneg_column df "tcp.analysis.window_full" ->
   window_full_count (network cm)
   <= window_full_count (network (overall out))) /\
  (nonneg_column df "tcp.analysis.lost_segment" ->
   lost_segments_count (network cm)
   <= lost_segments_count (network (overall out))) /\
  (nonneg_column df "tcp.analysis.duplicate_ack" ->
   duplicate_ack_count (network cm)
   <= duplicate_ack_count (network (overall out))).
Proof.
  intros out. subst out.
  unfold analyze_tshark_capture, analyze_frame.
  destruct (detected_ips df configured_camera_ips) as [|ips];
    [by intros ?%elem_of_nil|]. cbn [bind].
  destruct (calculate_metrics df _ _ _) as [|m] eqn:Hm;
    [by intros ?%elem_of_nil|]. cbn [bind].
  destruct (per_camera_metrics df _ _ ips) as [|l] eqn:Hper;
    [by intros ?%elem_of_nil|].
  cbn [bind per_camera overall network]. intros Hin.
  destruct (per_camera_metrics_spec _ _ _ _ _ Hper) as [_ Hall].
  destruct (Hall ip cm Hin) as (_ & df_cam & Hframe & Hcam).
  unfold camera_frame in Hframe. bind_inv Hframe.
  injection Hframe as <-.
  destruct (calculate_metrics_counters _ _ _ _ _ Hm)
    as (H1 & H2 & H3 & H4 & H5).
  destruct (calculate_metrics_counters _ _ _ _ _ Hcam)
    as (C1 & C2 & C3 & C4 & C5).
  repeat split; intros Hnn; by eapply counter_filter_rows_le.
Qed.

Lemma camera_counters_within_overall_witness :
  exists cm,
    ("10.0.0.1", cm)
      ∈ per_camera (analyze_tshark_capture two_cameras 5 None
                      ["10.0.0.1"; "10.0.0.2"]) /\
    total_retransmissions (network cm)
    <= total_retransmissions
         (network (overall (analyze_tshark_capture two_cameras 5 None
                              ["10.0.0.1"; "10.0.0.2"]))).
Proof.
  assert (exists cm,
            per_camera (analyze_tshark_capture two_cameras 5 None
                          ["10.0.0.1"; "10.0.0.2"]) !! 0%nat
            = Some ("10.0.0.1", cm)) as [cm Hcm]
    by (eexists; vm_compute; reflexivity).
  apply list_elem_of_lookup_2 in Hcm.
  exists cm. split; [exact Hcm|].
  destruct (camera_counters_within_overall two_cameras 5 None
              ["10.0.0.1"; "10.0.0.2"] "10.0.0.1" cm Hcm) as [H _].
  apply H. intros v Hv. vm_compute in Hv. injection Hv as <-.
  repeat constructor; discriminate.
Defined.

(** ** Exceptions inside the analysis *)

Lemma per_camera_metrics_fails (df : DataFrame) (d : Q)
    (rtt_field : option string) (ips : list string) (ip : string) :
  ip ∈ ips ->
  (forall df_cam,
     camera_frame df ip = inr df_cam ->
     exists e, calculate_metrics df_cam d rtt_field [ip] = inl e) ->
  exists e, per_camera_metrics df d rtt_field ips = inl e.
Proof.
  intros Hin Hfail. induction ips as [|ip' ips IH]; simpl.
  - by apply elem_of_nil in Hin.
  - destruct (camera_frame df ip') as [e|df_cam] eqn:Hframe;
      [by eexists|]. cbn [bind].
    destruct (calculate_metrics df_cam d rtt_field [ip'])
      as [e|m] eqn:Hm; [by eexists|]. cbn [bind].
    apply elem_of_cons in Hin as [->|Hin].
    + destruct (Hfail df_cam Hframe) as [e He]. congruence.
    + destruct (IH Hin) as [e ->]. by eexists.
Qed.

(** X17. [analyze_tshark_capture] answers all or nothing. It returns
    the complete analysis or else the default metrics with no camera:
    the default is returned when the overall metrics raise an exception,
    and also when the metrics of a single detected camera do, even if
    the overall metrics and the other cameras could be computed. *)
Theorem capture_analysis_all_or_nothing (df : DataFrame)
    (capture_duration_s : Q) (rtt_field : option string)
    (configured_camera_ips : list string) :
  let out :=
    analyze_tshark_capture df capture_duration_s rtt_field
      configured_camera_ips in
  let nothing := {| overall := default_metrics; per_camera := [] |} in
  (out = nothing \/
   analyze_frame df capture_duration_s rtt_field configured_camera_ips
   = inr out) /\
  (forall e,
     calculate_metrics df capture_duration_s rtt_field
       configured_camera_ips = inl e ->
     out = nothing) /\
  (forall ips ip,
     detected_ips df configured_camera_ips = inr ips ->
     ip ∈ ips ->
     (forall df_cam,
        camera_frame df ip = inr df_cam ->
        exists e,
          calculate_metrics df_cam capture_duration_s rtt_field [ip]
          = inl e) ->
     out = nothing).
Proof.
  intros out nothing. subst out nothing.
  unfold analyze_tshark_capture. split; [|split].
  - destruct (analyze_frame _ _ _ _); [by left|by right].
  - intros e He. unfold analyze_frame.
    destruct (detected_ips _ _); [done|]. cbn [bind]. by rewrite He.
  - intros ips ip Hips Hin Hfail. unfold analyze_frame.
    rewrite Hips. cbn [bind].
    destruct (calculate_metrics df _ _ _); [done|]. cbn [bind].
    destruct (per_camera_metrics_fails df capture_duration_s rtt_field
                ips ip Hin Hfail) as [e ->]. done.
Qed.

Lemma capture_analysis_all_or_nothing_witness :
  analyze_tshark_capture fin_without_reset 5 None ["10.0.0.1"]
  = {| overall := default_metrics; per_camera := [] |}.
Proof.
  destruct (capture_analysis_all_or_nothing fin_without_reset 5 None
              ["10.0.0.1"]) as (_ & H & _).
  apply (H (KeyError "tcp.flags.reset")). vm_compute. reflexivity.
Defined.

(* ================================================================== *)
(** * Part XI: properties of the large-digit clock                     *)
(* ================================================================== *)

(** ** Scaling *)

Lemma scale_line_length (line : string) :
  String.length (scale_line line) = (2 * String.length line)%nat.
Proof. induction line as [|c line IH]; simpl; [done|]. lia. Qed.

Lemma scale_line_get (line : string) (j : nat) (c : ascii) :
  String.get j line = Some c ->
  String.get (2 * j) (scale_line line) = Some c /\
  String.get (2 * j + 1) (scale_line line) = Some c.
Proof.
  revert j. induction line as [|a line IH]; intros j; simpl; [done|].
  destruct j as [|j]; simpl.
  - by intros [= ->].
  - intros Hj. destruct (IH j Hj) as [H0 H1].
    replace (j + S (j + 0))%nat with (S (2 * j)) by lia.
    replace (j + S (j + 0) + 1)%nat with (S (2 * j + 1)) by lia.
    done.
Qed.

Lemma scale_line_inj (a b : string) :
  scale_line a = scale_line b -> a = b.
Proof.
  revert b. induction a as [|c a IH]; intros [|d b]; simpl; try done.
  intros [= -> H]. f_equal. by apply IH.
Qed.

Lemma scale_char_art_lookup (art : list string) (i : nat)
    (line : string) :
  art !! i = Some line ->
  scale_char_art art !! (2 * i)%nat = Some (scale_line line) /\
  scale_char_art art !! (2 * i + 1)%nat = Some (scale_line line).
Proof.
  revert i. induction art as [|l art IH]; intros i; [done|].
  destruct i as [|i]; simpl.
  - by intros [= ->].
  - intros Hi. destruct (IH i Hi) as [H0 H1].
    replace (i + S (i + 0))%nat with (S (2 * i)) by lia.
    replace (i + S (i + 0) + 1)%nat with (S (2 * i + 1)) by lia.
    done.
Qed.

(** X18. [scale_char_art] doubles a character in both directions and
    loses nothing: the result has twice as many lines; line [i] of the
    original, with every character written twice, is found at lines
    [2i] and [2i+1]; and two different originals never scale to the same
    art. *)
Theorem scale_char_art_doubles (art : list string) :
  length (scale_char_art art) = (2 * length art)%nat /\
  (forall i line,
     art !! i = Some line ->
     scale_char_art art !! (2 * i)%nat = Some (scale_line line) /\
     scale_char_art art !! (2 * i + 1)%nat = Some (scale_line line) /\
     String.length (scale_line line) = (2 * String.length line)%nat /\
     forall j c,
       String.get j line = Some c ->
       String.get (2 * j) (scale_line line) = Some c /\
       String.get (2 * j + 1) (scale_line line) = Some c) /\
  (forall other,
     scale_char_art art = scale_char_art other -> art = other).
Proof.
  split; [|split].
  - induction art as [|l art IH]; simpl; [done|]. lia.
  - intros i line Hi.
    destruct (scale_char_art_lookup art i line Hi) as [H0 H1].
    split; [done|]. split; [done|].
    split; [apply scale_line_length|]. apply scale_line_get.
  - induction art as [|l art IH]; intros [|m other]; simpl; try done.
    intros [= Hl _ Hrest]. f_equal; [by apply scale_line_inj|].
    by apply IH.
Qed.

Lemma scale_char_art_doubles_witness :
  scale_char_art ORIGINAL_SEPARATOR_DOT !! 3%nat
    = Some (scale_line "  .  ") /\
  String.get 5 (scale_line "  .  ") = Some "."%char.
Proof.
  destruct (scale_char_art_doubles ORIGINAL_SEPARATOR_DOT)
    as (_ & H & _).
  destruct (H 1%nat "  .  " eq_refl) as (_ & H1 & _ & Hget).
  split; [exact H1|]. exact (proj2 (Hget 2%nat "."%char eq_refl)).
Defined.

(** ** Characters and lines *)

(** Every character is either a superscript digit, for which the dict
    lookup fails, or has an art of ten lines of ten characters. *)
Lemma get_large_char_cases (c : ascii) :
  (superscript_digit c /\ get_large_char c = inl (CharKeyError c)) \/
  (~ superscript_digit c /\
   exists art,
     get_large_char c = inr art /\ length art = 10%nat /\
     Forall (fun l => String.length l = 10%nat) art).
Proof.
  destruct c as [[] [] [] [] [] [] [] []];
    solve
      [ left; split; [vm_compute; tauto | vm_compute; reflexivity]
      | right; split;
        [ intros [H|[H|H]]; vm_compute in H; discriminate H
        | eexists; split; [vm_compute; reflexivity|];
          split; [reflexivity|]; repeat constructor ] ].
Qed.

Lemma string_append_length (a b : string) :
  String.length (String.append a b)
  = (String.length a + String.length b)%nat.
Proof. induction a as [|c a IH]; simpl; [done|]. by rewrite IH. Qed.

Lemma list_ascii_length (s : string) :
  length (list_ascii_of_string s) = String.length s.
Proof. induction s as [|c s IH]; simpl; [done|]. by rewrite IH. Qed.

Lemma add_large_char_spec (art : list string) (n : nat)
    (display_lines : list string) (i : nat) :
  (i + length display_lines <= length art)%nat ->
  Forall (fun l => String.length l = 10%nat) art ->
  Forall (fun l => String.length l = n) display_lines ->
  exists lines,
    add_large_char i display_lines art = inr lines /\
    length lines = length display_lines /\
    Forall (fun l => String.length l = (n + 12)%nat) lines.
Proof.
  intros Hlen Hart Hlines. revert i Hlen.
  induction Hlines as [|line rest Hline _ IH]; intros i Hlen; simpl.
  - by exists [].
  - simpl in Hlen.
    destruct (lookup_lt_is_Some_2 art i) as [art_line Hi]; [lia|].
    rewrite Hi. destruct (IH (S i)) as (rest' & -> & Hl & Hall); [lia|].
    simpl. eexists. split; [done|]. split; [simpl; lia|].
    constructor; [|done].
    assert (String.length art_line = 10%nat) as Hten.
    { rewrite Forall_forall in Hart.
      apply Hart. by eapply list_elem_of_lookup_2. }
    rewrite !string_append_length, Hline, Hten. simpl. lia.
Qed.

Lemma display_chars_ok (chars : list ascii) (n : nat)
    (display_lines : list string) :
  Forall (fun c => ~ superscript_digit c) chars ->
  length display_lines = 10%nat ->
  Forall (fun l => String.length l = n) display_lines ->
  exists lines,
    display_chars chars display_lines = inr lines /\
    length lines = 10%nat /\
    Forall (fun l => String.length l = (n + 12 * length chars)%nat)
           lines.
Proof.
  intros Hchars. revert n display_lines.
  induction Hchars as [|c chars Hc _ IH]; intros n lines Hten Hall; simpl.
  - exists lines. split; [done|]. split; [done|].
    eapply Forall_impl; [exact Hall|]. intros l Hl. simpl in *. lia.
  - destruct (get_large_char_cases c)
      as [[Hsup _]|(_ & art & -> & Hart & Hwide)]; [done|].
    simpl.
    destruct (add_large_char_spec art n lines 0) as (l' & -> & Hl & Hn);
      [lia|done|done|]. simpl.
    destruct (IH (n + 12)%nat l') as (out & -> & Hout & Hw);
      [lia|done|].
    exists out. split; [done|]. split; [done|].
    eapply Forall_impl; [exact Hw|]. intros l Hl'. simpl in *. lia.
Qed.

(** ** Text of any characters *)

Lemma scaled_digits_keys (c : ascii) :
  match SCALED_DIGITS !! c with
  | Some art =>
      (48 <= N_of_ascii c <= 57)%N /\ length art = 10%nat /\
      Forall (fun l => String.length l = 10%nat) art
  | None => ~ (48 <= N_of_ascii c <= 57)%N
  end.
Proof.
  destruct c as [[] [] [] [] [] [] [] []]; vm_compute;
    first [ split; [split; discriminate|];
            split; [reflexivity|]; repeat constructor
          | intros [H1 H2]; first [by apply H1 | by apply H2] ].
Qed.

(** A character is a missing digit, for which the dict lookup fails,
    or has an art of ten lines of ten characters. *)
Lemma unicode_get_large_char_cases (isdigit : N -> bool) (c : N) :
  if Unicode.missing_digit isdigit c
  then Unicode.get_large_char isdigit c = inl (Unicode.KeyError c)
  else exists art,
         Unicode.get_large_char isdigit c = inr art /\
         length art = 10%nat /\
         Forall (fun l => String.length l = 10%nat) art.
Proof.
  unfold Unicode.missing_digit, Unicode.get_large_char.
  destruct (isdigit c); simpl.
  - unfold Unicode.SCALED_DIGITS_getitem, Unicode.ascii_digit.
    destruct (c <? 256)%N eqn:Hc.
    + apply N.ltb_lt in Hc.
      pose proof (scaled_digits_keys (ascii_of_N c)) as Hkey.
      rewrite (N_ascii_embedding c Hc) in Hkey.
      destruct (SCALED_DIGITS !! ascii_of_N c) as [art|].
      * destruct Hkey as ([H1 H2] & Hten & Hwide).
        rewrite (proj2 (N.leb_le _ _) H1), (proj2 (N.leb_le _ _) H2).
        simpl. by exists art.
      * destruct ((48 <=? c)%N && (c <=? 57)%N) eqn:E; [|done].
        apply andb_true_iff in E as [H1%N.leb_le H2%N.leb_le].
        by destruct Hkey.
    + apply N.ltb_ge in Hc.
      assert ((c <=? 57)%N = false) as -> by (apply N.leb_gt; lia).
      by rewrite andb_false_r.
  - destruct (c =? 46)%N; [|destruct (c =? 45)%N];
      (eexists; split; [reflexivity|]; split; [reflexivity|];
       repeat constructor).
Qed.

Lemma unicode_add_large_char_spec (art : list string) (n : nat)
    (display_lines : list string) (i : nat) :
  (i + length display_lines <= length art)%nat ->
  Forall (fun l => String.length l = 10%nat) art ->
  Forall (fun l => String.length l = n) display_lines ->
  exists lines,
    Unicode.add_large_char i display_lines art = inr lines /\
    length lines = length display_lines /\
    Forall (fun l => String.length l = (n + 12)%nat) lines.
Proof.
  intros Hlen Hart Hlines. revert i Hlen.
  induction Hlines as [|line rest Hline _ IH]; intros i Hlen; simpl.
  - by exists [].
  - simpl in Hlen.
    destruct (lookup_lt_is_Some_2 art i) as [art_line Hi]; [lia|].
    rewrite Hi. destruct (IH (S i)) as (rest' & -> & Hl & Hall); [lia|].
    simpl. eexists. split; [done|]. split; [simpl; lia|].
    constructor; [|done].
    assert (String.length art_line = 10%nat) as Hten.
    { rewrite Forall_forall in Hart.
      apply Hart. by eapply list_elem_of_lookup_2. }
    rewrite !string_append_length, Hline, Hten. simpl. lia.
Qed.

Lemma unicode_display_chars_spec (isdigit : N -> bool)
    (chars : list N) :
  forall (n : nat) (display_lines : list string),
    length display_lines = 10%nat ->
    Forall (fun l => String.length l = n) display_lines ->
    match List.find (Unicode.missing_digit isdigit) chars with
    | Some c =>
        Unicode.display_chars isdigit chars display_lines
        = inl (Unicode.KeyError c)
    | None =>
        exists lines,
          Unicode.display_chars isdigit chars display_lines = inr lines /\
          length lines = 10%nat /\
          Forall (fun l => String.length l = (n + 12 * length chars)%nat)
                 lines
    end.
Proof.
  induction chars as [|c chars IH]; intros n lines Hten Hall.
  - simpl. exists lines. split; [done|]. split; [done|].
    eapply Forall_impl; [exact Hall|]. intros l Hl. simpl in *. lia.
  - pose proof (unicode_get_large_char_cases isdigit c) as Hc.
    cbn [List.find Unicode.display_chars].
    destruct (Unicode.missing_digit isdigit c).
    + by rewrite Hc.
    + destruct Hc as (art & -> & Hart & Hwide). cbn [Unicode.clock_bind].
      destruct (unicode_add_large_char_spec art n lines 0)
        as (l' & -> & Hl & Hn); [lia|done|done|].
      cbn [Unicode.clock_bind].
      specialize (IH (n + 12)%nat l').
      destruct (List.find _ chars) as [bad|].
      * apply IH; [lia|done].
      * destruct IH as (out & -> & Hout & Hw); [lia|done|].
        exists out. split; [done|]. split; [done|].
        eapply Forall_impl; [exact Hw|]. intros l Hl'.
        simpl in *. lia.
Qed.

(** X19. Whatever [str.isdigit] is and whatever the characters of the
    text are, [display_large_time] prints ten lines, each twelve columns
    wide for every character of the text, unless the text holds a
    character that [isdigit] accepts and that is none of the ten ASCII
    digits; the call then ends in a [KeyError] for the first such
    character and prints nothing. *)
Theorem display_large_time_geometry (isdigit : N -> bool)
    (time_string : list N) :
  match List.find (Unicode.missing_digit isdigit) time_string with
  | Some c =>
      Unicode.display_large_time isdigit time_string
      = inl (Unicode.KeyError c)
  | None =>
      exists lines,
        Unicode.display_large_time isdigit time_string = inr lines /\
        length lines = 10%nat /\
        Forall (fun l =>
                  String.length l = (12 * length time_string)%nat)
               lines
  end.
Proof.
  unfold Unicode.display_large_time.
  change SCALED_CHAR_HEIGHT with 10%nat.
  apply (unicode_display_chars_spec isdigit time_string 0
           (replicate 10 EmptyString)); [done|].
  by repeat constructor.
Qed.

(** ** One frame of the clock *)

Lemma padded_two_digits (n : nat) :
  (n < 60)%nat -> padded_exactly 2 n = true.
Proof.
  intros Hn.
  assert (forallb (padded_exactly 2) (seq 0 60) = true) as Hall
    by (vm_compute; reflexivity).
  rewrite forallb_forall in Hall. apply Hall, in_seq. lia.
Qed.

Lemma padded_three_digits (n : nat) :
  (n < 1000)%nat -> padded_exactly 3 n = true.
Proof.
  intros Hn.
  assert (forallb (padded_exactly 3) (seq 0 1000) = true) as Hall
    by (vm_compute; reflexivity).
  rewrite forallb_forall in Hall. apply Hall, in_seq. lia.
Qed.

Lemma padded_exactly_spec (width n : nat) :
  padded_exactly width n = true ->
  String.length (zero_padded width n) = width /\
  Forall (fun c => ~ superscript_digit c)
         (list_ascii_of_string (zero_padded width n)).
Proof.
  unfold padded_exactly. intros [Hlen Hdig]%andb_true_iff.
  split; [by apply Nat.eqb_eq|].
  apply Forall_forall. intros c Hc%list_elem_of_In.
  rewrite forallb_forall in Hdig. specialize (Hdig c Hc).
  unfold ascii_digit in Hdig.
  apply andb_true_iff in Hdig as [H1%Nat.leb_le H2%Nat.leb_le].
  unfold superscript_digit. lia.
Qed.

Lemma list_ascii_append (a b : string) :
  list_ascii_of_string (String.append a b)
  = list_ascii_of_string a ++ list_ascii_of_string b.
Proof. induction a as [|c a IH]; simpl; [done|]. by rewrite IH. Qed.

(** X20. For every time of day the text that the clock builds has
    twelve characters, and displaying it never fails: ten lines of 144
    columns are printed. *)
Theorem clock_frame_never_fails (now : clock_now) :
  (hour now < 24)%nat ->
  (minute now < 60)%nat ->
  (second now < 60)%nat ->
  (microsecond now < 1000 * 1000)%nat ->
  String.length (time_str now) = 12%nat /\
  exists lines,
    display_large_time (time_str now) = inr lines /\
    length lines = 10%nat /\
    Forall (fun l => String.length l = 144%nat) lines.
Proof.
  intros Hh Hm Hs Hus.
  assert (microsecond now / 1000 < 1000)%nat as Hms
    by (apply Nat.Div0.div_lt_upper_bound; lia).
  destruct (padded_exactly_spec 2 (hour now))
    as [Lh Ch]; [apply padded_two_digits; lia|].
  destruct (padded_exactly_spec 2 (minute now))
    as [Lm Cm]; [by apply padded_two_digits|].
  destruct (padded_exactly_spec 2 (second now))
    as [Ls Cs]; [by apply padded_two_digits|].
  destruct (padded_exactly_spec 3 (microsecond now / 1000))
    as [Lu Cu]; [by apply padded_three_digits|].
  assert (String.length (time_str now) = 12%nat) as Hlen.
  { unfold time_str. rewrite !string_append_length, Lh, Lm, Ls, Lu.
    reflexivity. }
  split; [done|].
  assert (Forall (fun c => ~ superscript_digit c)
                 (list_ascii_of_string (time_str now))) as Hok.
  { assert (forall s, s = "-" \/ s = "." ->
              Forall (fun c => ~ superscript_digit c)
                     (list_ascii_of_string s)) as Hsep.
    { intros s [-> | ->]; simpl; constructor; try constructor;
        intros [E|[E|E]]; vm_compute in E; discriminate E. }
    unfold time_str. rewrite !list_ascii_append.
    repeat (apply Forall_app; split); auto. }
  unfold display_large_time. change SCALED_CHAR_HEIGHT with 10%nat.
  destruct (display_chars_ok _ 0 (replicate 10 EmptyString) Hok)
    as (lines & Hrun & Hten & Hwide);
    [done | by repeat constructor |].
  exists lines. split; [done|]. split; [done|].
  eapply Forall_impl; [exact Hwide|]. intros l Hl. simpl in Hl.
  rewrite Hl, list_ascii_length, Hlen. reflexivity.
Qed.

Lemma clock_frame_never_fails_witness :
  String.length (time_str (ClockNow 23 59 59 (999 * 1000 + 999))) = 12%nat /\
  exists lines,
    display_large_time (time_str (ClockNow 23 59 59 (999 * 1000 + 999)))
      = inr lines /\
    length lines = 10%nat /\
    Forall (fun l => String.length l = 144%nat) lines.
Proof.
  apply clock_frame_never_fails; cbn [hour minute second microsecond];
    lia.
Defined.

(* ================================================================== *)
(** * Part XII: properties of [load_config]                            *)
(* ================================================================== *)

Lemma last_value_snoc k pairs p :
  last_value k (pairs ++ [p]) =
  if decide (p.1 = k) then Some p.2 else last_value k pairs.
Proof.
  unfold last_value. rewrite omap_app. simpl.
  destruct (decide (p.1 = k)); simpl.
  - by rewrite last_snoc.
  - by rewrite app_nil_r.
Qed.

Lemma fold_insert_lookup (pairs : list (string * json))
    (d : gmap string json) k :
  fold_left (fun d p => <[p.1 := p.2]> d) pairs d !! k =
  match last_value k pairs with
  | Some v => Some v
  | None => d !! k
  end.
Proof.
  induction pairs as [|p pairs IH] using rev_ind; [reflexivity|].
  rewrite fold_left_app, last_value_snoc. simpl.
  destruct (decide (p.1 = k)) as [<-|Hne].
  - by rewrite lookup_insert_eq.
  - by rewrite lookup_insert_ne.
Qed.

Lemma dict_of_pairs_lookup pairs k :
  dict_of_pairs pairs !! k = last_value k pairs.
Proof.
  unfold dict_of_pairs. rewrite fold_insert_lookup, lookup_empty.
  by destruct (last_value k pairs).
Qed.

(** X21.  [load_config] never loses a default: every name of
    [default_config] is a name of the configuration returned.  When the
    file holds a JSON object, a name of the file has the value of its
    last occurrence there, every other name has its default, and
    nothing is logged.  In every other case (no file, a file that is
    not JSON, any other exception, a document that is not an object)
    the configuration is exactly the defaults and one record of level
    ERROR or CRITICAL is logged. *)
Theorem load_config_defaults_and_overrides
    (config_file : string) (outcome : load_outcome) (w : World)
    (k : string) :
  let config := (load_config config_file outcome w).1 in
  let w' := (load_config config_file outcome w).2 in
  dom default_config ⊆ dom config /\
  match outcome with
  | Loaded (JObject pairs) =>
      config !! k =
        match last_value k pairs with
        | Some v => Some v
        | None => default_config !! k
        end /\
      w' = w
  | _ =>
      config = default_config /\
      exists r, log_sink w' = log_sink w ++ [r] /\
                (levelname r = "ERROR" \/ levelname r = "CRITICAL")
  end.
Proof.
  assert (Hfail : forall level msg,
    level = "ERROR" \/ level = "CRITICAL" ->
    exists r, log_sink (logging_log level msg [] w) = log_sink w ++ [r] /\
              (levelname r = "ERROR" \/ levelname r = "CRITICAL")).
  { intros level msg Hl. eexists. split; [apply logging_log_sink|].
    exact Hl. }
  destruct outcome as [| |e|document]; simpl.
  1-3: split; [done|]; split; [done|]; apply Hfail; auto.
  destruct document; simpl.
  1-6: split; [done|]; split; [done|]; apply Hfail; auto.
  split.
  - rewrite dom_union_L. apply union_subseteq_r.
  - split; [|done].
    rewrite lookup_union, dict_of_pairs_lookup.
    destruct (last_value k pairs), (default_config !! k); reflexivity.
Qed.


(* ================================================================== *)
(** * Part XIII: properties of the publisher loop                      *)
(* ================================================================== *)

Lemma publish_and_log_returns s message c w b :
  publish_returns b ->
  exists w',
    publish_and_log s message c (w, b) =
      (inr tt,
       (w', MkBroker (publish_outcomes b)
                     (publish_calls b ++ [(topic s, message)])
                     (sleeps b) (connected b))) /\
    length (log_sink w') = S (length (log_sink w)).
Proof.
  intros Hret. unfold publish_and_log, pub_bind, client_publish.
  destruct (Hret (length (publish_calls b))) as [rc ->].
  destruct rc as [e|]; simpl; eexists; (split; [reflexivity|]);
    rewrite logging_log_sink, length_app; simpl; lia.
Qed.

Lemma time_sleep_returns seconds w b :
  (0 <= seconds)%Q ->
  time_sleep seconds (w, b) =
    (inr tt, (w, MkBroker (publish_outcomes b) (publish_calls b)
                          (sleeps b ++ [seconds]) (connected b))).
Proof.
  intros H. unfold time_sleep.
  by rewrite (proj2 (Qle_bool_iff 0 seconds) H).
Qed.

Lemma time_sleep_raises seconds st :
  (seconds < 0)%Q ->
  time_sleep seconds st =
    (inl "sleep length must be non-negative", st).
Proof.
  intros H. destruct st as [w b]. unfold time_sleep.
  destruct (Qle_bool 0 seconds) eqn:E; [|reflexivity].
  apply Qle_bool_iff in E. exfalso. apply (Qlt_not_le _ _ H E).
Qed.

(** One body of the loop on a client whose calls return, with pauses
    that are not negative. *)
Lemma publish_cycle_returns s c w b :
  (0 <= interval_tf_s s)%Q -> (0 <= interval_ft_s s)%Q ->
  publish_returns b ->
  exists w',
    publish_cycle s c (w, b) =
      (inr (if negb (repeats s =? -1) then c + 1 else c),
       (w', MkBroker (publish_outcomes b)
                     (publish_calls b ++ cycles_published s 1)
                     (sleeps b ++ cycles_slept s 1) (connected b))) /\
    length (log_sink w') = (length (log_sink w) + 2)%nat.
Proof.
  intros Htf Hft Hret. unfold publish_cycle.
  destruct (publish_and_log_returns s (true_message s) c w b Hret)
    as (w1 & E1 & L1).
  unfold pub_bind at 1. rewrite E1.
  unfold pub_bind at 1. rewrite time_sleep_returns by exact Htf.
  set (b1 := MkBroker _ _ _ _).
  assert (Hret1 : publish_returns b1) by exact Hret.
  destruct (publish_and_log_returns s (false_message s) c w1 b1 Hret1)
    as (w2 & E2 & L2).
  unfold pub_bind at 1. rewrite E2.
  unfold pub_bind at 1. rewrite time_sleep_returns by exact Hft.
  exists w2. split; [|lia].
  unfold pub_ret, cycles_published, cycles_slept. simpl.
  by rewrite <- !app_assoc.
Qed.

Lemma cycles_published_S s n :
  cycles_published s (S n) = cycles_published s 1 ++ cycles_published s n.
Proof. reflexivity. Qed.

Lemma cycles_slept_S s n :
  cycles_slept s (S n) = cycles_slept s 1 ++ cycles_slept s n.
Proof. reflexivity. Qed.

(** [n] bodies in a row. *)
Lemma publish_cycles_returns s n : forall c w b,
  (0 <= interval_tf_s s)%Q -> (0 <= interval_ft_s s)%Q ->
  publish_returns b ->
  exists w',
    publish_cycles n s c (w, b) =
      (inr (if negb (repeats s =? -1) then c + Z.of_nat n else c),
       (w', MkBroker (publish_outcomes b)
                     (publish_calls b ++ cycles_published s n)
                     (sleeps b ++ cycles_slept s n) (connected b))) /\
    length (log_sink w') = (length (log_sink w) + 2 * n)%nat.
Proof.
  induction n as [|n IH]; intros c w b Htf Hft Hret.
  - exists w. split; [|lia]. simpl. unfold pub_ret.
    unfold cycles_published, cycles_slept. simpl.
    rewrite !app_nil_r, Z.add_0_r. destruct b.
    by destruct (negb _).
  - destruct (publish_cycle_returns s c w b Htf Hft Hret)
      as (w1 & E1 & L1).
    replace (c + Z.of_nat (S n)) with (c + 1 + Z.of_nat n) by lia.
    simpl. unfold pub_bind. rewrite E1.
    set (b1 := MkBroker _ _ _ _).
    destruct (IH (if negb (repeats s =? -1) then c + 1 else c)
                 w1 b1 Htf Hft Hret) as (w2 & E2 & L2).
    rewrite E2. exists w2. split; [|lia].
    rewrite cycles_published_S, cycles_slept_S. subst b1. simpl.
    rewrite <- !app_assoc.
    by destruct (negb (repeats s =? -1)).
Qed.

(** A finite loop with fuel for the bodies left is those bodies. *)
Lemma publish_loop_finite s : forall fuel c st,
  repeats s <> -1 ->
  (forall n, exists c' st', publish_cycles n s c st = (inr c', st')) ->
  (Z.to_nat (repeats s - c) <= fuel)%nat ->
  exists st',
    publish_cycles (Z.to_nat (repeats s - c)) s c st =
      (inr (Z.max c (repeats s)), st') /\
    publish_loop fuel s c st = Some (None, Z.max c (repeats s), st').
Proof.
  assert (Hgen : forall m fuel c st,
    repeats s <> -1 ->
    (forall n, exists c' st', publish_cycles n s c st = (inr c', st')) ->
    Z.to_nat (repeats s - c) = m -> (m <= fuel)%nat ->
    exists st',
      publish_cycles m s c st = (inr (Z.max c (repeats s)), st') /\
      publish_loop fuel s c st = Some (None, Z.max c (repeats s), st')).
  { induction m as [|m IH]; intros fuel c st Hfin Hall Hm Hfuel.
    - exists st. assert (repeats s <= c) by lia.
      split; [simpl; unfold pub_ret; f_equal; f_equal; lia|].
      destruct fuel; simpl;
        rewrite (proj2 (Z.eqb_neq _ _) Hfin), (proj2 (Z.ltb_ge _ _) H);
        simpl; repeat f_equal; lia.
    - destruct fuel as [|fuel]; [lia|].
      assert (c < repeats s) by lia.
      destruct (Hall 1%nat) as (c1 & st1 & E1).
      simpl in E1. unfold pub_bind in E1.
      destruct (publish_cycle s c st) as [[e|c1'] st1'] eqn:Ec;
        [discriminate|].
      unfold pub_ret in E1. simplify_eq.
      assert (Hc1 : c1 = c + 1).
      { unfold publish_cycle, pub_bind in Ec.
        repeat match type of Ec with
        | context [match ?x with _ => _ end] =>
            destruct x as [[?|?] ?]; [discriminate|]
        end.
        unfold pub_ret in Ec. simplify_eq.
        by rewrite (proj2 (Z.eqb_neq _ _) Hfin). }
      subst c1.
      destruct (IH fuel (c + 1) st1 Hfin) as (st' & E' & L');
        [|lia|lia|].
      { intros n. destruct (Hall (S n)) as (c' & st'' & E).
        simpl in E. unfold pub_bind in E. rewrite Ec in E. eauto. }
      exists st'. replace (Z.max c (repeats s))
        with (Z.max (c + 1) (repeats s)) by lia.
      split.
      + simpl. unfold pub_bind. by rewrite Ec.
      + simpl.
        rewrite (proj2 (Z.eqb_neq _ _) Hfin), (proj2 (Z.ltb_lt _ _) H).
        simpl. by rewrite Ec. }
  intros fuel c st Hfin Hall Hfuel. by eapply Hgen.
Qed.

(** X22.  With a number of repeats other than -1, pauses that are not
    negative and a client whose calls return (with whatever result
    codes), [run_publisher] of triggering_manager.py ends once the loop
    has run its bodies: it has published exactly [max repeats 0] pairs
    of the true and the false message, in alternation, slept after each
    one, disconnected, logged two records for every pair and none of an
    unhandled error, and the last record says that [max repeats 0]
    cycles were completed.  A publication that fails counts as much as
    one that succeeds. *)
Theorem publisher_completes_configured_cycles
    (s : publisher_settings) (fuel : nat) (w : World) (b : broker) :
  repeats s <> -1 ->
  (0 <= interval_tf_s s)%Q -> (0 <= interval_ft_s s)%Q ->
  publish_returns b ->
  (Z.to_nat (repeats s) <= fuel)%nat ->
  exists w' b',
    publish_messages fuel s (w, b) =
      Some (Z.max 0 (repeats s), (w', b')) /\
    publish_calls b' =
      publish_calls b ++ cycles_published s (Z.to_nat (repeats s)) /\
    sleeps b' = sleeps b ++ cycles_slept s (Z.to_nat (repeats s)) /\
    connected b' = false /\
    length (log_sink w') =
      (length (log_sink w) + 2 * Z.to_nat (repeats s) + 2)%nat /\
    last (map message (log_sink w')) =
      Some (String.append "Completed "
              (String.append (str_int (Z.max 0 (repeats s)))
                 " message cycles as configured.")).
Proof.
  intros Hfin Htf Hft Hret Hfuel.
  destruct (publish_loop_finite s fuel 0 (w, b) Hfin) as (st' & E & L).
  { intros n.
    destruct (publish_cycles_returns s n 0 w b Htf Hft Hret)
      as (w1 & E1 & _). eauto. }
  { by rewrite Z.sub_0_r. }
  rewrite Z.sub_0_r in E.
  destruct (publish_cycles_returns s (Z.to_nat (repeats s)) 0 w b
              Htf Hft Hret) as (w1 & E1 & L1).
  rewrite E1 in E. simplify_eq.
  unfold publish_messages. rewrite L.
  rewrite (proj2 (Z.eqb_neq _ _) Hfin). simpl.
  eexists _, _. split; [reflexivity|]. simpl.
  repeat split.
  - rewrite !length_app. simpl. lia.
  - rewrite map_app. simpl. by rewrite last_snoc.
Qed.

Lemma publisher_completes_configured_cycles_witness :
  exists w' b',
    publish_messages 2 (sample_settings 2 5) (quiet_world, offline_broker) =
      Some (2, (w', b')) /\
    publish_calls b' =
      [("home/status/power", "true"); ("home/status/power", "false");
       ("home/status/power", "true"); ("home/status/power", "false")].
Proof.
  destruct (publisher_completes_configured_cycles
              (sample_settings 2 5) 2 quiet_world offline_broker)
    as (w' & b' & E & C & _).
  - simpl. lia.
  - simpl. unfold Qle. simpl. lia.
  - simpl. unfold Qle. simpl. lia.
  - intros k. eexists. reflexivity.
  - simpl. lia.
  - exists w', b'. split; [exact E|exact C].
Defined.




(** X24.  A negative pause after the true message ends the run at the
    first body: when the loop is entered at all ([repeats] is -1 or
    positive) and the calls of the client return, [run_publisher]
    publishes the true message once and the false message never,
    sleeps not at all, logs the [ValueError] of [time.sleep] as an
    unhandled error and disconnects, with no cycle completed. *)
Theorem publisher_stops_at_negative_pause
    (s : publisher_settings) (fuel : nat) (w : World) (b : broker) :
  (interval_tf_s s < 0)%Q ->
  repeats s = -1 \/ 0 < repeats s ->
  publish_returns b ->
  (0 < fuel)%nat ->
  exists w' b',
    publish_messages fuel s (w, b) = Some (0, (w', b')) /\
    publish_calls b' = publish_calls b ++ [(topic s, true_message s)] /\
    sleeps b' = sleeps b /\
    connected b' = false /\
    In ("CRITICAL",
        "An unhandled error occurred: sleep length must be non-negative")
       (map (fun r => (levelname r, message r)) (log_sink w')).
Proof.
  intros Hneg Hrep Hret Hfuel.
  destruct fuel as [|fuel]; [lia|].
  unfold publish_messages. simpl publish_loop.
  assert (Hcond : (repeats s =? -1) || (0 <? repeats s) = true).
  { destruct Hrep as [->|H]; [reflexivity|].
    rewrite (proj2 (Z.ltb_lt _ _) H). apply orb_true_r. }
  rewrite Hcond.
  destruct (publish_and_log_returns s (true_message s) 0 w b Hret)
    as (w1 & E1 & L1).
  unfold publish_cycle.
  unfold pub_bind at 1. rewrite E1.
  unfold pub_bind at 1. rewrite time_sleep_raises by exact Hneg.
  eexists _, _. split; [reflexivity|]. simpl.
  repeat split.
  apply in_map_iff.
  destruct (negb (repeats s =? -1)).
  - eexists (LogRecord _ _ _ _). split; [reflexivity|].
    unfold logging_info, logging_critical.
    rewrite ?logging_log_sink. apply in_app_iff. left.
    apply in_app_iff. left. apply in_app_iff. right. left. reflexivity.
  - eexists (LogRecord _ _ _ _). split; [reflexivity|].
    unfold logging_info, logging_critical. rewrite ?logging_log_sink.
    apply in_app_iff. left. apply in_app_iff. right. left. reflexivity.
Qed.

Lemma publisher_stops_at_negative_pause_witness :
  exists w' b',
    publish_messages 1 (sample_settings 4 (-5))
      (quiet_world, idle_broker) = Some (0, (w', b')) /\
    publish_calls b' = [("home/status/power", "true")].
Proof.
  destruct (publisher_stops_at_negative_pause
              (sample_settings 4 (-5)) 1 quiet_world idle_broker)
    as (w' & b' & E & C & _).
  - simpl. unfold Qlt. simpl. lia.
  - right. simpl. lia.
  - intros k. eexists. reflexivity.
  - lia.
  - exists w', b'. split; [exact E|exact C].
Defined.

